(** * OBIVox NLM core: a shallow embedding of [nlm_core.c]

    The decision layer of OBIVox (speech-variation detector and normaliser,
    NLM coordinate mapper, drift handler, human-in-the-loop gate) is
    embedded function by function.  C [float] values are IEEE 754 binary32
    numbers, modelled with the parametric [spec_float] operations of the
    standard library at precision 24 and maximal exponent 128; every C
    operation rounds to nearest-even on its own, as a compiler does with
    [FLT_EVAL_METHOD = 0] and no contraction.  Unsigned integers are [Z]
    with their wrap-around written out.  Nullable pointers are [option]s, a
    buffer is the list of the floats allocated behind the pointer, and an
    access outside of it is the outcome [OutOfBounds]. *)

From Stdlib Require Import ZArith Bool Lia String.
From Stdlib Require Import Floats.SpecFloat.
From Stdlib Require Import Reals Lra.
From stdpp Require Import base list.
Local Open Scope Z_scope.

(** ** binary32 arithmetic *)

Module F32.

Definition prec : Z := 24.
Definition emax : Z := 128.

Definition float := spec_float.

Definition add : float -> float -> float := SFadd prec emax.
Definition sub : float -> float -> float := SFsub prec emax.
Definition mul : float -> float -> float := SFmul prec emax.
Definition div : float -> float -> float := SFdiv prec emax.
Definition ltb : float -> float -> bool := SFltb.
Definition gtb (x y : float) : bool := SFltb y x.

(** Conversion of a C integer to [float] (round to nearest even). *)
Definition of_Z (n : Z) : float := binary_normalize prec emax n 0 false.

(** The decimal literal [n / 10^k] written with an [f] suffix: the
    binary32 number nearest to the rational [n / 10^k].  Both [n] and
    [10^k] are below [2^24] wherever this is used, so they convert
    exactly and the correctly rounded quotient is the literal. *)
Definition dec (n : Z) (k : Z) : float := div (of_Z n) (of_Z (10 ^ k)).

Definition zero : float := S754_zero false.
Definition one : float := of_Z 1.

Definition is_nan (x : float) : bool :=
  match x with S754_nan => true | _ => false end.

(** The binary32 numbers proper: mantissa of at most 24 bits, normalised
    unless the exponent is the least one, exponent within range. *)
Definition valid (x : float) : bool := valid_binary prec emax x.

(** The value of a zero or of a finite number, counted in units of
    [2^-149], the least positive binary32 number. *)
Definition units (x : float) : option Z :=
  match x with
  | S754_zero _ => Some 0
  | S754_finite s m e => Some (cond_Zopp s (Zpos m * 2 ^ (e + 149)))
  | _ => None
  end.

End F32.

Abbreviation float := F32.float.

Declare Scope f32_scope.
Delimit Scope f32_scope with f32.
Infix "+" := F32.add : f32_scope.
Infix "-" := F32.sub : f32_scope.
Infix "*" := F32.mul : f32_scope.
Infix "/" := F32.div : f32_scope.
Infix "<?" := F32.ltb : f32_scope.
Infix ">?" := F32.gtb : f32_scope.

(** The floating-point literals of the source. *)
Definition f0_954 : float := Eval vm_compute in F32.dec 954 3.
Definition f0_85 : float := Eval vm_compute in F32.dec 85 2.
Definition f0_7 : float := Eval vm_compute in F32.dec 7 1.
Definition f0_95 : float := Eval vm_compute in F32.dec 95 2.
Definition f0_5 : float := Eval vm_compute in F32.dec 5 1.
Definition f0_4 : float := Eval vm_compute in F32.dec 4 1.
Definition f0_3 : float := Eval vm_compute in F32.dec 3 1.
Definition f0_1 : float := Eval vm_compute in F32.dec 1 1.
Definition f0_6 : float := Eval vm_compute in F32.dec 6 1.
Definition f0_8 : float := Eval vm_compute in F32.dec 8 1.
Definition f0_9 : float := Eval vm_compute in F32.dec 9 1.
Definition f0_2 : float := Eval vm_compute in F32.dec 2 1.
Definition f0_05 : float := Eval vm_compute in F32.dec 5 2.
Definition f1_0 : float := Eval vm_compute in F32.of_Z 1.
Definition f2_0 : float := Eval vm_compute in F32.of_Z 2.
Definition f3_0 : float := Eval vm_compute in F32.of_Z 3.
Definition f12_0 : float := Eval vm_compute in F32.of_Z 12.
Definition f24_0 : float := Eval vm_compute in F32.of_Z 24.
Definition f256_0 : float := Eval vm_compute in F32.of_Z 256.
Definition fm3_0 : float := Eval vm_compute in F32.of_Z (-3).


(** ** Outcomes of a C call

    A call either returns, reads or writes outside of the buffer it was
    given (undefined behaviour in C), or is still looping when the
    iteration budget of the model is used up. *)

Inductive outcome (A : Type) : Type :=
| Returns (a : A)
| OutOfBounds
| OutOfFuel.
Arguments Returns {A} a.
Arguments OutOfBounds {A}.
Arguments OutOfFuel {A}.

Definition obind {A B : Type} (m : outcome A) (k : A -> outcome B) : outcome B :=
  match m with
  | Returns a => k a
  | OutOfBounds => OutOfBounds
  | OutOfFuel => OutOfFuel
  end.

Notation "'do' x <- m ; k" := (obind m (fun x => k))
  (at level 10, x pattern, m at level 99, k at level 200).

Notation "s |> f" := (f s) (at level 45, left associativity, only parsing).

(** [uint32_t] arithmetic wraps modulo [2^32], [uint8_t] modulo [2^8]. *)
Definition u32 (z : Z) : Z := z mod 4294967296.
Definition u8 (z : Z) : Z := z mod 256.
Arguments u32 : simpl never.

(** A C [for] loop [for (i = i0; cond i; i = next i) body], with the loop
    state threaded through the body. *)
Section ForLoop.
Context {St : Type}.
Variable cond : Z -> bool.
Variable next : Z -> Z.
Variable body : Z -> St -> outcome St.

Fixpoint for_loop (fuel : nat) (i : Z) (s : St) : outcome St :=
  match fuel with
  | O => if cond i then OutOfFuel else Returns s
  | S fuel' =>
      if cond i then do s' <- body i s; for_loop fuel' (next i) s'
      else Returns s
  end.
End ForLoop.

(** ** Data model ([nlm_framwork.h]) *)

Record NLMCoordinate : Type := mkNLMCoordinate {
  x_axis : float;
  y_axis : float;
  z_axis : float;
  confidence : float
}.

Record PhoneticAccessibility : Type := mkPhoneticAccessibility {
  lisp_mitigation : bool;
  stutter_detection : bool;
  accent_normalization : bool;
  variation_tolerance : float;
  dialect_markers : list (option string);
  dialect_count : Z;
  phenomenological_integrity : float;
  experiential_authenticity : float
}.

Inductive TreeMode : Type :=
| TREE_MODE_AVL
| TREE_MODE_RB
| TREE_MODE_HYBRID.

Inductive Color : Type := RED | BLACK.

(** The fields of a [struct nlm_atlas_node] other than its links. *)
Record AtlasEntry : Type := mkAtlasEntry {
  service : string;
  operation : string;
  x_coord : Z;
  y_coord : Z;
  z_coord : Z;
  mode : TreeMode;
  dynamic_cost : float;
  confidence_score : float;
  access_frequency : Z
}.

(** A [NLMAtlasNode*]: [NullNode] is the null pointer.  A node owns its two
    children; the [parent] back pointer is determined by the position of
    the node in the tree and is not stored. *)
Inductive NLMAtlasNode : Type :=
| NullNode
| AtlasNode (left : NLMAtlasNode) (entry : AtlasEntry)
            (height : Z) (color : Color) (right : NLMAtlasNode).

Record VariationFlags : Type := mkVariationFlags {
  has_lisp : bool;
  has_stutter : bool;
  has_accent : bool;
  variation_score : float
}.

Record AudioFeatures : Type := mkAudioFeatures {
  raw_audio : option (list float);
  sample_rate : Z;
  num_samples : Z;
  pitch_contour : list float;    (* float[256] *)
  energy_envelope : list float;  (* float[256] *)
  mfcc_features : option (list float);
  variations : VariationFlags;
  nlm_position : NLMCoordinate
}.

Inductive ActiveCodec : Type :=
| CODEC_WHISPER
| CODEC_COQUI
| CODEC_VOSK
| CODEC_ADAPTIVE.

(** The three [void*] backend contexts of the C struct are opaque handles
    that the core never dereferences; they are left out. *)
Record CodecEngine : Type := mkCodecEngine {
  active_codec : ActiveCodec;
  last_confidence : float;
  processing_time_ns : Z
}.

Record OBIVoxNLMSystem : Type := mkOBIVoxNLMSystem {
  current_position : NLMCoordinate;
  accessibility : PhoneticAccessibility;
  service_tree : NLMAtlasNode;
  current_tree_mode : TreeMode;
  codec_engine : CodecEngine;
  drift_magnitude : float;
  coherence_threshold : float;
  fault_tolerance_enabled : bool;
  recovery_attempts : Z          (* uint8_t *)
}.

Record HumanFeedback : Type := mkHumanFeedback {
  requires_confirmation : bool;
  confidence_threshold : float;
  suggested_correction : option string;
  original_interpretation : option string
}.

(** Field updates. *)
Definition set_y_axis (v : float) (c : NLMCoordinate) : NLMCoordinate :=
  mkNLMCoordinate (x_axis c) v (z_axis c) (confidence c).
Definition set_z_axis (v : float) (c : NLMCoordinate) : NLMCoordinate :=
  mkNLMCoordinate (x_axis c) (y_axis c) v (confidence c).

Definition set_lisp_mitigation (v : bool) (a : PhoneticAccessibility) :=
  mkPhoneticAccessibility v (stutter_detection a) (accent_normalization a)
    (variation_tolerance a) (dialect_markers a) (dialect_count a)
    (phenomenological_integrity a) (experiential_authenticity a).
Definition set_stutter_detection (v : bool) (a : PhoneticAccessibility) :=
  mkPhoneticAccessibility (lisp_mitigation a) v (accent_normalization a)
    (variation_tolerance a) (dialect_markers a) (dialect_count a)
    (phenomenological_integrity a) (experiential_authenticity a).
Definition set_accent_normalization (v : bool) (a : PhoneticAccessibility) :=
  mkPhoneticAccessibility (lisp_mitigation a) (stutter_detection a) v
    (variation_tolerance a) (dialect_markers a) (dialect_count a)
    (phenomenological_integrity a) (experiential_authenticity a).

Definition set_current_position (v : NLMCoordinate) (s : OBIVoxNLMSystem) :=
  mkOBIVoxNLMSystem v (accessibility s) (service_tree s) (current_tree_mode s)
    (codec_engine s) (drift_magnitude s) (coherence_threshold s)
    (fault_tolerance_enabled s) (recovery_attempts s).
Definition set_accessibility (v : PhoneticAccessibility) (s : OBIVoxNLMSystem) :=
  mkOBIVoxNLMSystem (current_position s) v (service_tree s) (current_tree_mode s)
    (codec_engine s) (drift_magnitude s) (coherence_threshold s)
    (fault_tolerance_enabled s) (recovery_attempts s).
Definition set_current_tree_mode (v : TreeMode) (s : OBIVoxNLMSystem) :=
  mkOBIVoxNLMSystem (current_position s) (accessibility s) (service_tree s) v
    (codec_engine s) (drift_magnitude s) (coherence_threshold s)
    (fault_tolerance_enabled s) (recovery_attempts s).
Definition set_codec_engine (v : CodecEngine) (s : OBIVoxNLMSystem) :=
  mkOBIVoxNLMSystem (current_position s) (accessibility s) (service_tree s)
    (current_tree_mode s) v (drift_magnitude s) (coherence_threshold s)
    (fault_tolerance_enabled s) (recovery_attempts s).
Definition set_drift_magnitude (v : float) (s : OBIVoxNLMSystem) :=
  mkOBIVoxNLMSystem (current_position s) (accessibility s) (service_tree s)
    (current_tree_mode s) (codec_engine s) v (coherence_threshold s)
    (fault_tolerance_enabled s) (recovery_attempts s).
Definition set_coherence_threshold (v : float) (s : OBIVoxNLMSystem) :=
  mkOBIVoxNLMSystem (current_position s) (accessibility s) (service_tree s)
    (current_tree_mode s) (codec_engine s) (drift_magnitude s) v
    (fault_tolerance_enabled s) (recovery_attempts s).
Definition set_fault_tolerance_enabled (v : bool) (s : OBIVoxNLMSystem) :=
  mkOBIVoxNLMSystem (current_position s) (accessibility s) (service_tree s)
    (current_tree_mode s) (codec_engine s) (drift_magnitude s)
    (coherence_threshold s) v (recovery_attempts s).
Definition set_recovery_attempts (v : Z) (s : OBIVoxNLMSystem) :=
  mkOBIVoxNLMSystem (current_position s) (accessibility s) (service_tree s)
    (current_tree_mode s) (codec_engine s) (drift_magnitude s)
    (coherence_threshold s) (fault_tolerance_enabled s) v.
Definition set_x_axis (v : float) (c : NLMCoordinate) : NLMCoordinate :=
  mkNLMCoordinate v (y_axis c) (z_axis c) (confidence c).
Definition set_confidence (v : float) (c : NLMCoordinate) : NLMCoordinate :=
  mkNLMCoordinate (x_axis c) (y_axis c) (z_axis c) v.
Definition set_variation_tolerance (v : float) (a : PhoneticAccessibility) :=
  mkPhoneticAccessibility (lisp_mitigation a) (stutter_detection a)
    (accent_normalization a) v (dialect_markers a) (dialect_count a)
    (phenomenological_integrity a) (experiential_authenticity a).
Definition set_phenomenological_integrity (v : float) (a : PhoneticAccessibility) :=
  mkPhoneticAccessibility (lisp_mitigation a) (stutter_detection a)
    (accent_normalization a) (variation_tolerance a) (dialect_markers a)
    (dialect_count a) v (experiential_authenticity a).
Definition set_experiential_authenticity (v : float) (a : PhoneticAccessibility) :=
  mkPhoneticAccessibility (lisp_mitigation a) (stutter_detection a)
    (accent_normalization a) (variation_tolerance a) (dialect_markers a)
    (dialect_count a) (phenomenological_integrity a) v.
Definition set_service_tree (v : NLMAtlasNode) (s : OBIVoxNLMSystem) :=
  mkOBIVoxNLMSystem (current_position s) (accessibility s) v
    (current_tree_mode s) (codec_engine s) (drift_magnitude s)
    (coherence_threshold s) (fault_tolerance_enabled s) (recovery_attempts s).
Definition set_active_codec (v : ActiveCodec) (c : CodecEngine) :=
  mkCodecEngine v (last_confidence c) (processing_time_ns c).
Definition set_last_confidence (v : float) (c : CodecEngine) :=
  mkCodecEngine (active_codec c) v (processing_time_ns c).

(** ** System initialisation *)

(** What [calloc(1, sizeof(OBIVoxNLMSystem))] hands out: every byte zero. *)
Definition calloc_OBIVoxNLMSystem : OBIVoxNLMSystem :=
  {| current_position := mkNLMCoordinate F32.zero F32.zero F32.zero F32.zero;
     accessibility :=
       mkPhoneticAccessibility false false false F32.zero
         (replicate 16 None) 0 F32.zero F32.zero;
     service_tree := NullNode;
     current_tree_mode := TREE_MODE_AVL;
     codec_engine := mkCodecEngine CODEC_WHISPER F32.zero 0;
     drift_magnitude := F32.zero;
     coherence_threshold := F32.zero;
     fault_tolerance_enabled := false;
     recovery_attempts := 0 |}.

(** [obivox_nlm_init]; the argument says whether [calloc] succeeded.
    [av_register_all] belongs to FFmpeg and does not see the system. *)
Definition obivox_nlm_init (calloc_ok : bool) : Z * option OBIVoxNLMSystem :=
  if calloc_ok then
    let sys := calloc_OBIVoxNLMSystem in
    let sys := sys |> set_coherence_threshold f0_954 in
    let sys := sys |> set_current_position
      (current_position sys |> set_x_axis F32.zero |> set_y_axis F32.zero
         |> set_z_axis f0_5 |> set_confidence f0_954) in
    let sys := sys |> set_accessibility
      (accessibility sys |> set_lisp_mitigation true
         |> set_stutter_detection true |> set_accent_normalization false
         |> set_variation_tolerance f0_7
         |> set_phenomenological_integrity f0_95
         |> set_experiential_authenticity f0_95) in
    let sys := sys |> set_current_tree_mode TREE_MODE_HYBRID
                   |> set_service_tree NullNode in
    let sys := sys |> set_codec_engine
      (codec_engine sys |> set_active_codec CODEC_ADAPTIVE
         |> set_last_confidence F32.zero) in
    let sys := sys |> set_fault_tolerance_enabled true
                   |> set_recovery_attempts 0 in
    (0, Some sys)
  else (-1, None).

(** ** Drift handling *)

(** The three branches of [obivox_handle_drift], named as its comments name
    them. *)
Inductive FailureZone : Type := GREEN | AI_STRESS | HUMAN_STRESS.

Definition failure_magnitude_of (drift_detected : float) : float :=
  (drift_detected * f24_0 - f12_0)%f32.

Definition drift_zone (drift_detected : float) : FailureZone :=
  let failure_magnitude := failure_magnitude_of drift_detected in
  if (failure_magnitude <? fm3_0)%f32 then AI_STRESS
  else if (failure_magnitude >? f3_0)%f32 then HUMAN_STRESS
  else GREEN.

(** The tree mode each branch selects. *)
Definition zone_tree_mode (z : FailureZone) : TreeMode :=
  match z with
  | AI_STRESS => TREE_MODE_RB
  | HUMAN_STRESS => TREE_MODE_AVL
  | GREEN => TREE_MODE_HYBRID
  end.

(** [obivox_handle_drift].  The [HumanFeedback] record built in the
    human-stress branch is a local that is dropped on return. *)
Definition obivox_handle_drift (system : option OBIVoxNLMSystem)
    (drift_detected : float) (should_cascade : option bool)
  : Z * option OBIVoxNLMSystem * option bool :=
  match system, should_cascade with
  | Some sys, Some _ =>
      let failure_magnitude := (drift_detected * f24_0 - f12_0)%f32 in
      let '(sys, cascade) :=
        if (failure_magnitude <? fm3_0)%f32 then
          (sys |> set_current_tree_mode TREE_MODE_RB
               |> set_coherence_threshold f0_85, true)
        else if (failure_magnitude >? f3_0)%f32 then
          (sys |> set_current_tree_mode TREE_MODE_AVL, false)
        else
          (sys |> set_current_tree_mode TREE_MODE_HYBRID
               |> set_coherence_threshold f0_954, false) in
      (0, Some (sys |> set_drift_magnitude drift_detected), Some cascade)
  | _, _ => (-1, system, should_cascade)
  end.

(** ** Human in the loop *)

(** [obivox_request_human_validation]; [calloc] and [strdup] are taken to
    succeed, so the suggestion is a fresh empty string. *)
Definition obivox_request_human_validation (transcription : option string)
    (confidence : float) (feedback : option HumanFeedback)
  : Z * option HumanFeedback :=
  match transcription, feedback with
  | Some text, Some _ =>
      let fb :=
        {| requires_confirmation := (confidence <? f0_85)%f32;
           confidence_threshold := f0_954;
           suggested_correction := Some EmptyString;
           original_interpretation := Some text |} in
      (if requires_confirmation fb then 1 else 0, Some fb)
  | _, _ => (-1, feedback)
  end.

(** [obivox_incorporate_feedback]. *)
Definition obivox_incorporate_feedback (system : option OBIVoxNLMSystem)
    (feedback : option HumanFeedback) : Z * option OBIVoxNLMSystem :=
  match system, feedback with
  | Some sys, Some fb =>
      let sys :=
        match suggested_correction fb with
        | Some _ =>
            let pos := current_position sys in
            let pos := pos |> set_y_axis (y_axis pos + f0_1)%f32 in
            let pos :=
              if (y_axis pos >? f1_0)%f32 then pos |> set_y_axis f1_0 else pos in
            let pos := pos |> set_z_axis (z_axis pos + f0_05)%f32 in
            let pos :=
              if (z_axis pos >? f1_0)%f32 then pos |> set_z_axis f1_0 else pos in
            sys |> set_current_position pos
        | None => sys
        end in
      (0, Some (sys |> set_drift_magnitude F32.zero |> set_recovery_attempts 0))
  | _, _ => (-1, system)
  end.

(** ** Buffers *)

(** [audio[i]] as a read and as a write. *)
Definition rd (audio : list float) (i : Z) : outcome float :=
  if i <? 0 then OutOfBounds
  else match audio !! Z.to_nat i with
       | Some x => Returns x
       | None => OutOfBounds
       end.

Definition wr (audio : list float) (i : Z) (v : float) : outcome (list float) :=
  if i <? 0 then OutOfBounds
  else match audio !! Z.to_nat i with
       | Some _ => Returns (<[Z.to_nat i := v]> audio)
       | None => OutOfBounds
       end.

(** A loop with a constant trip count, over the values of its counter. *)
Fixpoint ofold {A B : Type} (f : B -> A -> outcome B) (l : list A) (b : B)
  : outcome B :=
  match l with
  | [] => Returns b
  | a :: l' => do b' <- f b a; ofold f l' b'
  end.

(** ** Speech variation detection *)

Definition window_size : Z := 1024.

(** Body of the zero-crossing loop. *)
Definition zcr_body (audio : list float) (i : Z) (zero_crossing_rate : float)
  : outcome float :=
  do a <- rd audio i;
  do b <- rd audio (i - 1);
  Returns (if xorb (a >? F32.zero)%f32 (b >? F32.zero)%f32
           then (zero_crossing_rate + f1_0)%f32
           else zero_crossing_rate).

(** Body of the repetition loop: the window at [i] against the one
    [window_size] samples earlier.  [i] is a [uint32_t], so the indices
    are computed modulo [2^32]. *)
Definition repetition_body (audio : list float) (i : Z) (repetition_score : float)
  : outcome float :=
  do correlation <-
    ofold (fun correlation j =>
             do a <- rd audio (u32 (i + j));
             do b <- rd audio (u32 (u32 (i - window_size) + j));
             Returns (correlation + a * b)%f32)
          (seqZ 0 window_size) F32.zero;
  Returns (if (correlation >? f0_8)%f32
           then (repetition_score + f1_0)%f32
           else repetition_score).

(** [obivox_detect_speech_variations].  The result is the return code, the
    accessibility profile and [*variation_score] after the call. *)
Definition obivox_detect_speech_variations (fuel : nat)
    (audio : option (list float)) (num_samples : Z)
    (accessibility : option PhoneticAccessibility)
    (variation_score : option float)
  : outcome (Z * option PhoneticAccessibility * option float) :=
  match audio, accessibility, variation_score with
  | Some au, Some acc, Some _ =>
      do zero_crossing_rate <-
        for_loop (fun i => i <? num_samples) (fun i => u32 (i + 1))
                 (zcr_body au) fuel 1 F32.zero;
      let zero_crossing_rate :=
        (zero_crossing_rate / F32.of_Z num_samples)%f32 in
      let acc :=
        if (zero_crossing_rate >? f0_4)%f32
        then acc |> set_lisp_mitigation true else acc in
      do repetition_score <-
        for_loop (fun i => i <? u32 (num_samples - window_size))
                 (fun i => u32 (i + window_size / 2))
                 (repetition_body au) fuel window_size F32.zero;
      let acc :=
        if (repetition_score >? f3_0)%f32
        then acc |> set_stutter_detection true else acc in
      let score :=
        ((zero_crossing_rate * f0_3) + (repetition_score * f0_1)
         + (variation_tolerance acc * f0_6))%f32 in
      let acc :=
        if (score >? f0_5)%f32 && (phenomenological_integrity acc >? f0_9)%f32
        then acc |> set_accent_normalization false else acc in
      Returns (0, Some acc, Some score)
  | _, _, _ => Returns (-1, accessibility, variation_score)
  end.

(** ** Phonetic normalisation *)

Definition smooth_window : Z := 512.

(** Body of the fricative-correction loop. *)
Definition lisp_body (preservation_factor : float) (i : Z) (audio : list float)
  : outcome (list float) :=
  if 0 <? i then
    do a <- rd audio i;
    do b <- rd audio (i - 1);
    let diff := (a - b)%f32 in
    wr audio i (a - (diff * f0_2 * (f1_0 - preservation_factor)))%f32
  else Returns audio.

(** The accumulator of the smoothing loop: the samples
    [audio[i-256] .. audio[i+256]] added up from [0.0f], left to right. *)
Definition window_sum (audio : list float) (i : Z) : outcome float :=
  ofold (fun avg j => do x <- rd audio (u32 (i + j)); Returns (avg + x)%f32)
        (seqZ (- (smooth_window / 2)) (smooth_window / 2 + 1 + smooth_window / 2))
        F32.zero.

Definition blend (preservation_factor original avg : float) : float :=
  ((original * preservation_factor) + (avg * (f1_0 - preservation_factor)))%f32.

(** Body of the smoothing loop. *)
Definition stutter_body (preservation_factor : float) (i : Z) (audio : list float)
  : outcome (list float) :=
  do avg <- window_sum audio i;
  let avg := (avg / F32.of_Z smooth_window)%f32 in
  do a <- rd audio i;
  wr audio i (blend preservation_factor a avg).

Definition lisp_pass (fuel : nat) (num_samples : Z) (preservation_factor : float)
    (audio : list float) : outcome (list float) :=
  for_loop (fun i => i <? num_samples) (fun i => u32 (i + 1))
           (lisp_body preservation_factor) fuel 0 audio.

Definition stutter_pass (fuel : nat) (num_samples : Z) (preservation_factor : float)
    (audio : list float) : outcome (list float) :=
  for_loop (fun i => i <? u32 (num_samples - smooth_window))
           (fun i => u32 (i + 1))
           (stutter_body preservation_factor) fuel smooth_window audio.

(** [obivox_apply_phonetic_normalization].  The result is the return code
    and the buffer after the call. *)
Definition obivox_apply_phonetic_normalization (fuel : nat)
    (audio : option (list float)) (num_samples : Z)
    (accessibility : option PhoneticAccessibility)
    (preservation_factor : float)
  : outcome (Z * option (list float)) :=
  match audio, accessibility with
  | Some au, Some acc =>
      do au <-
        (if lisp_mitigation acc && (preservation_factor <? f1_0)%f32
         then lisp_pass fuel num_samples preservation_factor au
         else Returns au);
      do au <-
        (if stutter_detection acc && (preservation_factor <? f1_0)%f32
         then stutter_pass fuel num_samples preservation_factor au
         else Returns au);
      Returns (0, Some au)
  | _, _ => Returns (-1, audio)
  end.

(** ** Coordinate mapping and conversion

    Three functions this file calls are not defined in it: [tanhf] of the C
    library, and [obivox_select_optimal_codec] and
    [obivox_generate_pronunciation_guide], which the header declares.  They
    are parameters of the embedding.  The selector receives the system and
    a pointer into it and may change it; the guide generator receives the
    text and a read-only profile. *)

Inductive ConvertInput : Type :=
| INPUT_AUDIO (samples : list float)
| INPUT_TEXT (text : string).

Inductive ConvertOutput : Type :=
| Transcription (text : string)
| Synthesis (samples : list float).

(** What a call of [obivox_bidirectional_convert] leaves behind: its return
    code, the system, the caller's input buffer (the audio path writes to
    it), [*output] and [*confidence]. *)
Record ConvertResult : Type := mkConvertResult {
  cr_code : Z;
  cr_system : option OBIVoxNLMSystem;
  cr_input : option ConvertInput;
  cr_output : option (option ConvertOutput);
  cr_confidence : option float
}.

Section Conversion.
Variable tanhf : float -> float.
Variable obivox_select_optimal_codec :
  OBIVoxNLMSystem -> outcome (Z * OBIVoxNLMSystem * TreeMode).
Variable obivox_generate_pronunciation_guide :
  string -> PhoneticAccessibility -> outcome (Z * option string).
(** [sinf(2.0f * M_PI * 440.0f * i / 16000.0f)], the tone of the
    placeholder synthesis. *)
Variable tone : Z -> float.

(** [obivox_map_to_nlm_space].  The two contours are [float[256]] arrays
    inside the feature record, so every index below 256 is in bounds. *)
Definition obivox_map_to_nlm_space (features : option AudioFeatures)
    (coordinates : option NLMCoordinate) : Z * option NLMCoordinate :=
  match features, coordinates with
  | Some ft, Some co =>
      let at_ (l : list float) (i : Z) := nth (Z.to_nat i) l F32.zero in
      let pitch_variance :=
        fold_left (fun pitch_variance i =>
                     let diff := (at_ (pitch_contour ft) i
                                  - at_ (pitch_contour ft) (i - 1)%Z)%f32 in
                     (pitch_variance + diff * diff)%f32)
                  (seqZ 1 255) F32.zero in
      let pitch_variance := (pitch_variance / f256_0)%f32 in
      let co := co |> set_x_axis (f1_0 - (f2_0 * tanhf pitch_variance))%f32 in
      let energy_mean :=
        fold_left (fun energy_mean i =>
                     (energy_mean + at_ (energy_envelope ft) i)%f32)
                  (seqZ 0 256) F32.zero in
      let energy_mean := (energy_mean / f256_0)%f32 in
      let co := co |> set_y_axis (tanhf (energy_mean * f2_0)%f32) in
      let co := co |> set_z_axis (variation_score (variations ft)) in
      let co := co |> set_confidence
        (f0_954 * (f1_0 - variation_score (variations ft) * f0_1))%f32 in
      (0, Some co)
  | _, _ => (-1, coordinates)
  end.

(** The drift check that opens [obivox_bidirectional_convert]. *)
Definition convert_drift_check (sys : OBIVoxNLMSystem) : OBIVoxNLMSystem :=
  if (drift_magnitude sys >? f0_3)%f32 then
    let should_cascade := false in
    let '(_, system, should_cascade) :=
      obivox_handle_drift (Some sys) (drift_magnitude sys) (Some should_cascade) in
    let sys := default sys system in
    if default false should_cascade && (recovery_attempts sys <? 3) then
      sys |> set_recovery_attempts (u8 (recovery_attempts sys + 1))
          |> set_fault_tolerance_enabled true
    else sys
  else sys.

(** [AudioFeatures features = {0}]. *)
Definition zero_AudioFeatures : AudioFeatures :=
  {| raw_audio := None; sample_rate := 0; num_samples := 0;
     pitch_contour := replicate 256 F32.zero;
     energy_envelope := replicate 256 F32.zero;
     mfcc_features := None;
     variations := mkVariationFlags false false false F32.zero;
     nlm_position := mkNLMCoordinate F32.zero F32.zero F32.zero F32.zero |}.

(** [obivox_bidirectional_convert]. *)
Definition obivox_bidirectional_convert (fuel : nat)
    (system : option OBIVoxNLMSystem) (input : option ConvertInput)
    (output : option (option ConvertOutput)) (confidence_ : option float)
  : outcome ConvertResult :=
  match system, input, output, confidence_ with
  | Some sys, Some inp, Some _, Some _ =>
      let sys := convert_drift_check sys in
      let result := 0 in
      do (sys, inp, out, conf) <-
        match inp with
        | INPUT_AUDIO samples =>
            let features :=
              {| raw_audio := Some samples; sample_rate := 16000;
                 num_samples := num_samples zero_AudioFeatures;
                 pitch_contour := pitch_contour zero_AudioFeatures;
                 energy_envelope := energy_envelope zero_AudioFeatures;
                 mfcc_features := mfcc_features zero_AudioFeatures;
                 variations := variations zero_AudioFeatures;
                 nlm_position := nlm_position zero_AudioFeatures |} in
            let variation_score := F32.zero in
            do (_, acc, variation_score) <-
              obivox_detect_speech_variations fuel (raw_audio features)
                (num_samples features) (Some (accessibility sys))
                (Some variation_score);
            let sys := sys |> set_accessibility (default (accessibility sys) acc) in
            let variation_score := default F32.zero variation_score in
            do audio <-
              (if (variation_score >? f0_5)%f32 then
                 do (_, audio) <-
                   obivox_apply_phonetic_normalization fuel (raw_audio features)
                     (num_samples features) (Some (accessibility sys)) f0_7;
                 Returns audio
               else Returns (raw_audio features));
            let features :=
              {| raw_audio := audio; sample_rate := sample_rate features;
                 num_samples := num_samples features;
                 pitch_contour := pitch_contour features;
                 energy_envelope := energy_envelope features;
                 mfcc_features := mfcc_features features;
                 variations := variations features;
                 nlm_position := nlm_position features |} in
            let '(_, pos) :=
              obivox_map_to_nlm_space (Some features)
                (Some (current_position sys)) in
            let sys := sys |> set_current_position
                                (default (current_position sys) pos) in
            do (_, sys, suggested_mode) <- obivox_select_optimal_codec sys;
            let transcription :=
              "Transcribed text with variation handling"%string in
            Returns (sys, INPUT_AUDIO (default samples audio),
                     Transcription transcription,
                     confidence (current_position sys))
        | INPUT_TEXT text =>
            let audio_output := replicate (Z.to_nat (16000 * 10)) F32.zero in
            do _ <-
              (if lisp_mitigation (accessibility sys) then
                 do _ <- obivox_generate_pronunciation_guide text
                           (accessibility sys);
                 Returns tt
               else Returns tt);
            let audio_output :=
              fold_left (fun audio_output i =>
                           <[Z.to_nat i := (tone i * f0_1)%f32]> audio_output)
                        (seqZ 0 16000) audio_output in
            Returns (sys, inp, Synthesis audio_output, f0_95)
        end;
      let sys := sys |> set_codec_engine
                          (codec_engine sys |> set_last_confidence conf) in
      Returns (mkConvertResult result (Some sys) (Some inp) (Some (Some out))
                               (Some conf))
  | _, _, _, _ =>
      Returns (mkConvertResult (-1) system input output confidence_)
  end.
End Conversion.

(** The system a text-to-speech conversion leaves behind: the drift check,
    then the confidence 0.95 recorded in the codec engine. *)
Definition text_conversion_system (sys : OBIVoxNLMSystem) : OBIVoxNLMSystem :=
  let sys := convert_drift_check sys in
  sys |> set_codec_engine (codec_engine sys |> set_last_confidence f0_95).

(** The buffer the text route hands out: ten seconds of zeroed samples at
    16 kHz whose first second is overwritten with the tone at a tenth of
    its amplitude. *)
Definition synthesis_buffer (tone : Z -> float) : list float :=
  fold_left (fun audio_output i =>
               <[Z.to_nat i := (tone i * f0_1)%f32]> audio_output)
            (seqZ 0 16000) (replicate (Z.to_nat (16000 * 10)) F32.zero).

(** ** Sample values used in the statements below *)

Definition f0_374 : float := Eval vm_compute in F32.dec 374 3.
Definition f0_375 : float := Eval vm_compute in F32.dec 375 3.
Definition f0_625 : float := Eval vm_compute in F32.dec 625 3.
Definition f0_626 : float := Eval vm_compute in F32.dec 626 3.
Definition f0_35 : float := Eval vm_compute in F32.dec 35 2.
Definition f0_84 : float := Eval vm_compute in F32.dec 84 2.
Definition f0_86 : float := Eval vm_compute in F32.dec 86 2.
Definition f0_99 : float := Eval vm_compute in F32.dec 99 2.

(** The system right after a successful [obivox_nlm_init]. *)
Definition initial_system : OBIVoxNLMSystem :=
  default calloc_OBIVoxNLMSystem (snd (obivox_nlm_init true)).

(** A system that has just been initialised and whose drift is 0.35. *)
Definition drifting_system : OBIVoxNLMSystem :=
  initial_system |> set_drift_magnitude f0_35.

(** A system that has just been initialised and whose drift is 0.1: in the
    AI-stress zone, but not above the 0.3 at which a conversion looks at
    the drift. *)
Definition quiet_system : OBIVoxNLMSystem :=
  initial_system |> set_drift_magnitude f0_1.

(** A 1025-sample test buffer: silence with a single unit sample at
    index 256. *)
Definition spike_buffer : list float :=
  replicate 256 F32.zero ++ [f1_0] ++ replicate 768 F32.zero.

(** A 1025-sample test buffer whose samples are all 1.0. *)
Definition ones_buffer : list float := replicate 1025 f1_0.

(** A profile with only the stutter flag set. *)
Definition stutter_only_profile : PhoneticAccessibility :=
  accessibility initial_system |> set_lisp_mitigation false.

(** Section 4.2 of the specification in its own words, for comparison with
    the code: the 512-sample moving average around sample [i], read as the
    mean of the 512 samples [audio[i-256] .. audio[i+255]] (samples outside
    the buffer count as silence), and the blend
    [factor * original + (1 - factor) * moving_average_512]. *)
Definition spec_moving_average_512 (audio : list float) (i : Z) : float :=
  (fold_left (fun acc j => (acc + nth (Z.to_nat (i + j)) audio F32.zero)%f32)
             (seqZ (-256) 512) F32.zero
   / F32.of_Z 512)%f32.

Definition spec_blend (factor : float) (audio : list float) (i : Z) : float :=
  (factor * nth (Z.to_nat i) audio F32.zero
   + (f1_0 - factor) * spec_moving_average_512 audio i)%f32.

(** Zeros and finite numbers, as opposed to infinities and NaN. *)
Definition is_number (x : float) : bool :=
  match x with
  | S754_zero _ | S754_finite _ _ _ => true
  | _ => false
  end.

(** A feature record whose pitch contour is flat at 0.5. *)
Definition flat_features : AudioFeatures :=
  {| raw_audio := None; sample_rate := 16000; num_samples := 0;
     pitch_contour := replicate 256 f0_5;
     energy_envelope := replicate 256 F32.zero;
     mfcc_features := None;
     variations := mkVariationFlags false false false F32.zero;
     nlm_position := mkNLMCoordinate F32.zero F32.zero F32.zero F32.zero |}.

(** A buffer of 1025 silent samples. *)
Definition silent_buffer : list float := replicate 1025 F32.zero.

(** A freshly initialised profile with both flags cleared. *)
Definition no_flags_profile : PhoneticAccessibility :=
  accessibility initial_system |> set_lisp_mitigation false
                               |> set_stutter_detection false.

(** A profile with only the lisp flag set. *)
Definition lisp_only_profile : PhoneticAccessibility :=
  accessibility initial_system |> set_stutter_detection false.

(** A buffer of 100 silent samples, shorter than one detection window. *)
Definition short_buffer : list float := replicate 100 F32.zero.

(** ** Reachable systems

    The states a system can be in: the one [obivox_nlm_init] sets up, and
    those that the functions of [nlm_core.c] which receive the system, or a
    pointer to one of its parts, turn a reachable state into. *)
Section Reachability.
Variable tanhf : float -> float.
Variable obivox_select_optimal_codec :
  OBIVoxNLMSystem -> outcome (Z * OBIVoxNLMSystem * TreeMode).
Variable obivox_generate_pronunciation_guide :
  string -> PhoneticAccessibility -> outcome (Z * option string).
Variable tone : Z -> float.

Inductive api_step : OBIVoxNLMSystem -> OBIVoxNLMSystem -> Prop :=
| step_detect (s : OBIVoxNLMSystem) fuel audio n v code acc' v' :
    obivox_detect_speech_variations fuel audio n (Some (accessibility s)) v
    = Returns (code, Some acc', v') ->
    api_step s (s |> set_accessibility acc')
| step_map (s : OBIVoxNLMSystem) features code co :
    obivox_map_to_nlm_space tanhf features (Some (current_position s))
    = (code, Some co) ->
    api_step s (s |> set_current_position co)
| step_convert (s s' : OBIVoxNLMSystem) fuel input output conf r :
    obivox_bidirectional_convert tanhf obivox_select_optimal_codec
      obivox_generate_pronunciation_guide tone fuel (Some s) input output conf
    = Returns r ->
    cr_system r = Some s' ->
    api_step s s'
| step_handle_drift (s s' : OBIVoxNLMSystem) d b code cascade :
    obivox_handle_drift (Some s) d b = (code, Some s', cascade) ->
    api_step s s'
| step_feedback (s s' : OBIVoxNLMSystem) fb code :
    obivox_incorporate_feedback (Some s) fb = (code, Some s') ->
    api_step s s'.

Inductive reachable : OBIVoxNLMSystem -> Prop :=
| reach_init (s : OBIVoxNLMSystem) :
    obivox_nlm_init true = (0, Some s) -> reachable s
| reach_step (s s' : OBIVoxNLMSystem) :
    reachable s -> api_step s s' -> reachable s'.
End Reachability.

Definition flags_set (s : OBIVoxNLMSystem) : Prop :=
  lisp_mitigation (accessibility s) = true
  /\ stutter_detection (accessibility s) = true.

(** The range the attempt counter and the coherence threshold are meant to
    stay in. *)
Definition within_limits (s : OBIVoxNLMSystem) : Prop :=
  0 <= recovery_attempts s <= 3
  /\ (coherence_threshold s = f0_954 \/ coherence_threshold s = f0_85).

(** Stand-ins for the functions defined outside of [nlm_core.c], used to
    run the embedding on concrete inputs: a selector that suggests the
    hybrid mode and leaves the system alone, a guide generator that
    produces no guide, and a silent tone. *)
Definition idle_selector (s : OBIVoxNLMSystem)
  : outcome (Z * OBIVoxNLMSystem * TreeMode) :=
  Returns (0, s, TREE_MODE_HYBRID).
Definition no_guide (text : string) (acc : PhoneticAccessibility)
  : outcome (Z * option string) :=
  Returns (0, None).
Definition silent_tone (i : Z) : float := F32.zero.

(** The initial system after one call of the drift handler with a drift of
    0.35. *)
Definition drifted_system : OBIVoxNLMSystem :=
  default initial_system
    (snd (fst (obivox_handle_drift (Some initial_system) f0_35 (Some false)))).

(** ** The NLM-Atlas discovery tree

    The sources declare the node type and the three tree modes, and the
    system starts with an empty tree; no function of the sources builds or
    searches the tree.  The operations below follow section 4.4 of the
    specification: a tree keyed by [(service, operation)], height-balanced
    in strict mode ([TREE_MODE_AVL], the [height] field) and
    colour-balanced in relaxed mode ([TREE_MODE_RB], the [color] field). *)
Module Atlas.

(** Modelled from the spec: the key order of the tree, which the sources do
    not define; [(service, operation)] pairs compared lexicographically. *)
Definition key_compare (a b : AtlasEntry) : comparison :=
  match String.compare (service a) (service b) with
  | Eq => String.compare (operation a) (operation b)
  | c => c
  end.

(** The height stored in a node, as C code reads it. *)
Definition node_height (t : NLMAtlasNode) : Z :=
  match t with
  | NullNode => 0
  | AtlasNode _ _ h _ _ => h
  end.

(** Number of nodes on the longest path from the root down. *)
Fixpoint tree_height (t : NLMAtlasNode) : nat :=
  match t with
  | NullNode => O
  | AtlasNode l _ _ _ r => S (Nat.max (tree_height l) (tree_height r))
  end.

Fixpoint tree_size (t : NLMAtlasNode) : nat :=
  match t with
  | NullNode => O
  | AtlasNode l _ _ _ r => S (tree_size l + tree_size r)
  end.

(** Modelled from the spec: the strict-mode rebalancing, absent from the
    sources; single and double rotations driven by the stored heights. *)
Definition mk_node (l : NLMAtlasNode) (e : AtlasEntry) (c : Color)
    (r : NLMAtlasNode) : NLMAtlasNode :=
  AtlasNode l e (1 + Z.max (node_height l) (node_height r)) c r.

Definition rotate_right (t : NLMAtlasNode) : NLMAtlasNode :=
  match t with
  | AtlasNode (AtlasNode a x _ cx b) y _ cy c =>
      mk_node a x cx (mk_node b y cy c)
  | _ => t
  end.

Definition rotate_left (t : NLMAtlasNode) : NLMAtlasNode :=
  match t with
  | AtlasNode a x _ cx (AtlasNode b y _ cy c) =>
      mk_node (mk_node a x cx b) y cy c
  | _ => t
  end.

Definition balance_factor (t : NLMAtlasNode) : Z :=
  match t with
  | NullNode => 0
  | AtlasNode l _ _ _ r => node_height l - node_height r
  end.

Definition avl_rebalance (l : NLMAtlasNode) (e : AtlasEntry) (c : Color)
    (r : NLMAtlasNode) : NLMAtlasNode :=
  let bf := node_height l - node_height r in
  if 1 <? bf then
    if balance_factor l <? 0
    then rotate_right (mk_node (rotate_left l) e c r)
    else rotate_right (mk_node l e c r)
  else if bf <? -1 then
    if 0 <? balance_factor r
    then rotate_left (mk_node l e c (rotate_right r))
    else rotate_left (mk_node l e c r)
  else mk_node l e c r.

(** Modelled from the spec: [insert(node)] in strict mode, absent from the
    sources.  A new node is a leaf of height 1; an entry whose key is
    already in the tree replaces the stored one. *)
Fixpoint avl_insert (x : AtlasEntry) (t : NLMAtlasNode) : NLMAtlasNode :=
  match t with
  | NullNode => AtlasNode NullNode x 1 RED NullNode
  | AtlasNode l e h c r =>
      match key_compare x e with
      | Lt => avl_rebalance (avl_insert x l) e c r
      | Gt => avl_rebalance l e c (avl_insert x r)
      | Eq => AtlasNode l x h c r
      end
  end.

(** Modelled from the spec: the relaxed-mode rebalancing, absent from the
    sources; a black node with a red child that has a red child is turned
    into a red node with two black children. *)
Definition rb_balance (c : Color) (l : NLMAtlasNode) (e : AtlasEntry) (h : Z)
    (r : NLMAtlasNode) : NLMAtlasNode :=
  match c with
  | RED => AtlasNode l e h RED r
  | BLACK =>
      match l with
      | AtlasNode (AtlasNode a x hx RED b) y hy RED c' =>
          AtlasNode (AtlasNode a x hx BLACK b) y hy RED (AtlasNode c' e h BLACK r)
      | AtlasNode a x hx RED (AtlasNode b y hy RED c') =>
          AtlasNode (AtlasNode a x hx BLACK b) y hy RED (AtlasNode c' e h BLACK r)
      | _ =>
          match r with
          | AtlasNode (AtlasNode b y hy RED c') z hz RED d =>
              AtlasNode (AtlasNode l e h BLACK b) y hy RED
                        (AtlasNode c' z hz BLACK d)
          | AtlasNode b y hy RED (AtlasNode c' z hz RED d) =>
              AtlasNode (AtlasNode l e h BLACK b) y hy RED
                        (AtlasNode c' z hz BLACK d)
          | _ => AtlasNode l e h BLACK r
          end
      end
  end.

Fixpoint rb_ins (x : AtlasEntry) (t : NLMAtlasNode) : NLMAtlasNode :=
  match t with
  | NullNode => AtlasNode NullNode x 1 RED NullNode
  | AtlasNode l e h c r =>
      match key_compare x e with
      | Lt => rb_balance c (rb_ins x l) e h r
      | Gt => rb_balance c l e h (rb_ins x r)
      | Eq => AtlasNode l x h c r
      end
  end.

Definition make_black (t : NLMAtlasNode) : NLMAtlasNode :=
  match t with
  | NullNode => NullNode
  | AtlasNode l e h _ r => AtlasNode l e h BLACK r
  end.

(** Modelled from the spec: [insert(node)] in relaxed mode, absent from the
    sources.  The new node is red and the root is repainted black. *)
Definition rb_insert (x : AtlasEntry) (t : NLMAtlasNode) : NLMAtlasNode :=
  make_black (rb_ins x t).

(** The tree after a sequence of inserts into the empty tree. *)
Definition avl_insert_all (entries : list AtlasEntry) : NLMAtlasNode :=
  fold_left (fun t x => avl_insert x t) entries NullNode.

Definition rb_insert_all (entries : list AtlasEntry) : NLMAtlasNode :=
  fold_left (fun t x => rb_insert x t) entries NullNode.

(** *** Balance conditions *)

(** Height balance: sibling heights differ by at most one, and every
    stored height is the height of its subtree. *)
Fixpoint avl (t : NLMAtlasNode) : Prop :=
  match t with
  | NullNode => True
  | AtlasNode l _ h _ r =>
      avl l /\ avl r
      /\ (tree_height l <= S (tree_height r))%nat
      /\ (tree_height r <= S (tree_height l))%nat
      /\ h = Z.of_nat (S (Nat.max (tree_height l) (tree_height r)))
  end.

(** The colour sequences of the paths from the root of [t] down to each
    null link. *)
Fixpoint paths (t : NLMAtlasNode) : list (list Color) :=
  match t with
  | NullNode => [[]]
  | AtlasNode l _ _ c r => (cons c) <$> (paths l ++ paths r)
  end.

Fixpoint consecutive_red (p : list Color) : bool :=
  match p with
  | RED :: ((RED :: _) as q) => true
  | _ :: q => consecutive_red q
  | [] => false
  end.

Fixpoint black_count (p : list Color) : nat :=
  match p with
  | [] => O
  | BLACK :: q => S (black_count q)
  | RED :: q => black_count q
  end.

(** [subtree u t]: [u] is [t] or the tree below one of the nodes of [t]. *)
Inductive subtree (u : NLMAtlasNode) : NLMAtlasNode -> Prop :=
| subtree_here : subtree u u
| subtree_left l e h c r : subtree u l -> subtree u (AtlasNode l e h c r)
| subtree_right l e h c r : subtree u r -> subtree u (AtlasNode l e h c r).

(** The two colour conditions as structural invariants. *)
Definition is_red (t : NLMAtlasNode) : bool :=
  match t with
  | AtlasNode _ _ _ RED _ => true
  | _ => false
  end.

Fixpoint no_red_red (t : NLMAtlasNode) : Prop :=
  match t with
  | NullNode => True
  | AtlasNode l _ _ c r =>
      no_red_red l /\ no_red_red r
      /\ (c = RED -> is_red l = false /\ is_red r = false)
  end.

(** As [no_red_red], except that a red root may have a red child. *)
Definition no_red_red_below (t : NLMAtlasNode) : Prop :=
  match t with
  | NullNode => True
  | AtlasNode l _ _ _ r => no_red_red l /\ no_red_red r
  end.

Fixpoint black_height (t : NLMAtlasNode) : nat :=
  match t with
  | NullNode => O
  | AtlasNode l _ _ BLACK _ => S (black_height l)
  | AtlasNode l _ _ RED _ => black_height l
  end.

Fixpoint black_balanced (t : NLMAtlasNode) : Prop :=
  match t with
  | NullNode => True
  | AtlasNode l _ _ _ r =>
      black_balanced l /\ black_balanced r /\ black_height l = black_height r
  end.

(** Fibonacci numbers, the least sizes of height-balanced trees. *)
Fixpoint fib (n : nat) : nat :=
  match n with
  | O => O
  | S m => match m with
           | O => 1%nat
           | S k => (fib m + fib k)%nat
           end
  end.

End Atlas.

(** Seven entries with the keys [("stt", "op1")] to [("stt", "op7")]. *)
Definition sample_entry (op : string) : AtlasEntry :=
  {| service := "stt"; operation := op; x_coord := 0; y_coord := 0;
     z_coord := 0; mode := TREE_MODE_HYBRID; dynamic_cost := F32.zero;
     confidence_score := F32.zero; access_frequency := 0 |}.

Definition sample_entries : list AtlasEntry :=
  sample_entry <$> ["op1"; "op2"; "op3"; "op4"; "op5"; "op6"; "op7"]%string.

(** [log2] and the ceiling of a real number. *)
Definition log2R (x : R) : R := (ln x / ln 2)%R.
Definition ceilR (x : R) : Z := 1 - up (- x)%R.

(** * Properties *)

(** ** binary32 comparison *)

Lemma digits2_pos_size (p : positive) : digits2_pos p = Pos.size p.
Proof. induction p as [p IH|p IH|]; cbn; congruence. Qed.

Lemma digits2_pos_bounds (m : positive) :
  2 ^ (Zpos (digits2_pos m) - 1) <= Zpos m < 2 ^ Zpos (digits2_pos m).
Proof.
  rewrite digits2_pos_size.
  pose proof (Pos.size_gt m) as G. pose proof (Pos.size_le m) as L.
  apply Pos2Z.pos_lt_pos in G. apply Pos2Z.pos_le_pos in L.
  rewrite Pos2Z.inj_pow in G, L. change (Zpos m~0) with (2 * Zpos m) in L.
  replace (Zpos (Pos.size m)) with (Z.succ (Zpos (Pos.size m) - 1)) in L at 1 by lia.
  rewrite Z.pow_succ_r in L by lia. lia.
Qed.

Lemma canonical_mantissa_bounds (m : positive) (e : Z) :
  canonical_mantissa F32.prec F32.emax m e = true ->
  -149 <= e /\ 2 ^ 23 <= Zpos m * 2 ^ (e + 149) \/ e = -149 /\ Zpos m < 2 ^ 23.
Proof.
  unfold canonical_mantissa, fexp, emin, F32.prec, F32.emax.
  intros H. apply Z.eqb_eq in H.
  pose proof (digits2_pos_bounds m) as [B1 B2].
  destruct (Z.eq_dec e (-149)) as [->|Ne].
  - destruct (Z_lt_le_dec (Zpos m) (2 ^ 23)); [right; lia|left].
    change (2 ^ (-149 + 149)) with 1. lia.
  - left. assert (E : Zpos (digits2_pos m) = 24) by lia.
    rewrite E in B1. change (24 - 1) with 23 in B1. split; [lia|].
    assert (1 <= 2 ^ (e + 149)) by (apply (Z.pow_le_mono_r 2 0); lia).
    nia.
Qed.

(** Below the next power of two of its exponent. *)
Lemma canonical_mantissa_upper (m : positive) (e : Z) :
  canonical_mantissa F32.prec F32.emax m e = true ->
  -149 <= e /\ Zpos m < 2 ^ 24.
Proof.
  unfold canonical_mantissa, fexp, emin, F32.prec, F32.emax.
  intros H. apply Z.eqb_eq in H.
  pose proof (digits2_pos_bounds m) as [B1 B2].
  split; [lia|].
  eapply Z.lt_le_trans; [exact B2|]. apply Z.pow_le_mono_r; lia.
Qed.

(** Two canonical mantissa-exponent pairs compare like their values. *)
Lemma compare_canonical (m1 : positive) (e1 : Z) (m2 : positive) (e2 : Z) :
  canonical_mantissa F32.prec F32.emax m1 e1 = true ->
  canonical_mantissa F32.prec F32.emax m2 e2 = true ->
  (Zpos m1 * 2 ^ (e1 + 149) ?= Zpos m2 * 2 ^ (e2 + 149))
  = match e1 ?= e2 with
    | Lt => Lt
    | Gt => Gt
    | Eq => Pos.compare_cont Eq m1 m2
    end.
Proof.
  intros C1 C2.
  assert (Below : forall m e m' e',
            canonical_mantissa F32.prec F32.emax m e = true ->
            canonical_mantissa F32.prec F32.emax m' e' = true ->
            e < e' -> Zpos m * 2 ^ (e + 149) < Zpos m' * 2 ^ (e' + 149)).
  { intros m e m' e' Cm Cm' Hlt.
    destruct (canonical_mantissa_upper m e Cm) as [Le Um].
    destruct (canonical_mantissa_bounds m' e' Cm') as [[_ Lm']|[-> _]]; [|lia].
    destruct (canonical_mantissa_bounds m' e' Cm') as [[Le' _]|[-> _]]; [|lia].
    pose proof (digits2_pos_bounds m') as [B1' _].
    assert (D' : Zpos (digits2_pos m') = 24).
    { unfold canonical_mantissa, fexp, emin, F32.prec, F32.emax in Cm'.
      apply Z.eqb_eq in Cm'. lia. }
    rewrite D' in B1'. change (24 - 1) with 23 in B1'.
    replace (e' + 149) with (Z.succ (e + 149) + (e' - e - 1)) by lia.
    rewrite (Z.pow_add_r 2 (Z.succ (e + 149)) (e' - e - 1)) by lia.
    rewrite (Z.pow_succ_r 2 (e + 149)) by lia.
    assert (0 < 2 ^ (e + 149)) by (apply Z.pow_pos_nonneg; lia).
    assert (1 <= 2 ^ (e' - e - 1)) by (apply (Z.pow_le_mono_r 2 0); lia).
    change (2 ^ 24) with 16777216 in Um. change (2 ^ 23) with 8388608 in B1'.
    set (X := 2 ^ (e + 149)) in *. set (Y := 2 ^ (e' - e - 1)) in *.
    assert (X <= X * Y) by nia.
    assert (Zpos m * X < 16777216 * X) by nia.
    assert (16777216 * (X * Y) <= Zpos m' * (2 * X * Y)) by nia.
    lia. }
  destruct (Z.compare_spec e1 e2) as [->|Hlt|Hgt].
  - change (Pos.compare_cont Eq m1 m2) with (Zpos m1 ?= Zpos m2).
    destruct (canonical_mantissa_upper m2 e2 C2) as [Le _].
    assert (0 < 2 ^ (e2 + 149)) by (apply Z.pow_pos_nonneg; lia).
    destruct (Z.compare_spec (Zpos m1) (Zpos m2)) as [E|L|G].
    + rewrite E. apply Z.compare_refl.
    + apply Z.compare_lt_iff. nia.
    + apply Z.compare_gt_iff. nia.
  - apply Z.compare_lt_iff. apply Below; assumption.
  - apply Z.compare_gt_iff. apply Below; assumption.
Qed.

(** On binary32 numbers that are not infinite, [<] is the order of the
    values. *)
Lemma ltb_units (x y : float) (u v : Z) :
  F32.valid x = true -> F32.valid y = true ->
  F32.units x = Some u -> F32.units y = Some v ->
  (F32.ltb x y = true <-> u < v).
Proof.
  unfold F32.valid, F32.ltb, SFltb.
  destruct x as [sx|sx| |sx mx ex]; try discriminate;
    destruct y as [sy|sy| |sy my ey]; try discriminate;
    cbn [valid_binary F32.units SFcompare]; intros Vx Vy [= <-] [= <-].
  - split; [discriminate|lia].
  - unfold bounded in Vy. apply andb_true_iff in Vy as [Cy _].
    destruct (canonical_mantissa_upper my ey Cy) as [Le _].
    assert (0 < 2 ^ (ey + 149)) by (apply Z.pow_pos_nonneg; lia).
    destruct sy; cbn; split; try discriminate; try reflexivity; nia.
  - unfold bounded in Vx. apply andb_true_iff in Vx as [Cx _].
    destruct (canonical_mantissa_upper mx ex Cx) as [Le _].
    assert (0 < 2 ^ (ex + 149)) by (apply Z.pow_pos_nonneg; lia).
    destruct sx; cbn; split; try discriminate; try reflexivity; nia.
  - unfold bounded in Vx, Vy.
    apply andb_true_iff in Vx as [Cx _]. apply andb_true_iff in Vy as [Cy _].
    destruct (canonical_mantissa_upper mx ex Cx) as [Lx _].
    destruct (canonical_mantissa_upper my ey Cy) as [Ly _].
    assert (0 < 2 ^ (ex + 149)) by (apply Z.pow_pos_nonneg; lia).
    assert (0 < 2 ^ (ey + 149)) by (apply Z.pow_pos_nonneg; lia).
    pose proof (compare_canonical mx ex my ey Cx Cy) as C.
    destruct sx, sy; cbn [cond_Zopp].
    + replace (match ex ?= ey with
               | Eq => CompOpp (Pos.compare_cont Eq mx my)
               | Lt => Gt
               | Gt => Lt
               end)
        with (CompOpp (Zpos mx * 2 ^ (ex + 149) ?= Zpos my * 2 ^ (ey + 149)))
        by (rewrite C; destruct (ex ?= ey); reflexivity).
      destruct (Z.compare_spec (Zpos mx * 2 ^ (ex + 149))
                               (Zpos my * 2 ^ (ey + 149)));
        cbn; split; try discriminate; try reflexivity; lia.
    + split; [nia|reflexivity].
    + split; [discriminate|nia].
    + rewrite <- C.
      destruct (Z.compare_spec (Zpos mx * 2 ^ (ex + 149))
                               (Zpos my * 2 ^ (ey + 149)));
        cbn; split; try discriminate; try reflexivity; lia.
Qed.

(** ** Drift handling *)

Lemma handle_drift_zone (sys : OBIVoxNLMSystem) (d : float) (b : bool) :
  exists sys',
    obivox_handle_drift (Some sys) d (Some b)
    = (0, Some sys', Some match drift_zone d with AI_STRESS => true | _ => false end)
    /\ current_tree_mode sys' = zone_tree_mode (drift_zone d)
    /\ coherence_threshold sys'
       = match drift_zone d with
         | AI_STRESS => f0_85
         | HUMAN_STRESS => coherence_threshold sys
         | GREEN => f0_954
         end
    /\ drift_magnitude sys' = d
    /\ recovery_attempts sys' = recovery_attempts sys
    /\ accessibility sys' = accessibility sys
    /\ current_position sys' = current_position sys.
Proof.
  unfold obivox_handle_drift, drift_zone, failure_magnitude_of.
  destruct (F32.ltb _ fm3_0); [|destruct (F32.gtb _ f3_0)];
    eexists; repeat split; reflexivity.
Qed.

(** C1 (as the code has it).  With [failure_magnitude = drift * 24 - 12]
    computed in binary32, a drift of 0.374 lands in the AI-stress branch,
    0.375 and 0.625 land in the green branch and 0.626 lands in the
    human-stress branch; [obivox_handle_drift] returns 0, selects the tree
    mode of the branch and stores the drift. *)
Theorem C1_zone_boundaries :
  drift_zone f0_374 = AI_STRESS
  /\ drift_zone f0_375 = GREEN
  /\ drift_zone f0_625 = GREEN
  /\ drift_zone f0_626 = HUMAN_STRESS
  /\ forall (sys : OBIVoxNLMSystem) (d : float) (b : bool),
       (drift_zone d = AI_STRESS <-> F32.ltb (failure_magnitude_of d) fm3_0 = true)
       /\ (drift_zone d = HUMAN_STRESS <->
           F32.ltb (failure_magnitude_of d) fm3_0 = false
           /\ F32.gtb (failure_magnitude_of d) f3_0 = true)
       /\ exists sys' cascade,
            obivox_handle_drift (Some sys) d (Some b) = (0, Some sys', Some cascade)
            /\ current_tree_mode sys' = zone_tree_mode (drift_zone d)
            /\ drift_magnitude sys' = d.
Proof.
  do 4 (split; [vm_compute; reflexivity|]).
  intros sys d b. split; [|split].
  - unfold drift_zone. destruct (F32.ltb _ fm3_0); [easy|].
    destruct (F32.gtb _ f3_0); easy.
  - unfold drift_zone. destruct (F32.ltb _ fm3_0); [easy|].
    destruct (F32.gtb _ f3_0); easy.
  - destruct (handle_drift_zone sys d b) as (sys' & E & M & _ & D & _).
    eauto.
Qed.

(** C1, the claim as written fails: 0.374 is not a green drift and 0.375
    is not an AI-stress drift. *)
Lemma C1_counterexample :
  ~ (drift_zone f0_374 = GREEN /\ drift_zone f0_375 = AI_STRESS
     /\ drift_zone f0_625 = GREEN /\ drift_zone f0_626 = HUMAN_STRESS).
Proof. vm_compute. intros [H _]. discriminate H. Qed.

(** One conversion cycle in the AI-stress band: the handler selects the
    relaxed tree mode and the lowered threshold whatever the attempt
    counter is, and the caller counts the attempt only below the cap. *)
Lemma drift_check_ai_stress (sys : OBIVoxNLMSystem) :
  F32.gtb (drift_magnitude sys) f0_3 = true ->
  drift_zone (drift_magnitude sys) = AI_STRESS ->
  let sys' := convert_drift_check sys in
  current_tree_mode sys' = TREE_MODE_RB
  /\ coherence_threshold sys' = f0_85
  /\ drift_magnitude sys' = drift_magnitude sys
  /\ recovery_attempts sys'
     = (if recovery_attempts sys <? 3 then u8 (recovery_attempts sys + 1)
        else recovery_attempts sys).
Proof.
  intros Hd Hz. unfold convert_drift_check. rewrite Hd.
  unfold obivox_handle_drift. unfold drift_zone, failure_magnitude_of in Hz.
  destruct (F32.ltb _ fm3_0); [|destruct (F32.gtb _ f3_0); discriminate].
  cbn. destruct (recovery_attempts sys <? 3); cbn; repeat split; reflexivity.
Qed.

(** A text conversion that returns has run the drift check and recorded
    its confidence; nothing else of the system changes. *)
Lemma convert_text_system
    (tanhf : float -> float)
    (obivox_select_optimal_codec :
       OBIVoxNLMSystem -> outcome (Z * OBIVoxNLMSystem * TreeMode))
    (obivox_generate_pronunciation_guide :
       string -> PhoneticAccessibility -> outcome (Z * option string))
    (tone : Z -> float) (fuel : nat) (sys : OBIVoxNLMSystem) (text : string)
    (out : option ConvertOutput) (c : float) (r : ConvertResult) :
  obivox_bidirectional_convert tanhf obivox_select_optimal_codec
    obivox_generate_pronunciation_guide tone fuel (Some sys)
    (Some (INPUT_TEXT text)) (Some out) (Some c) = Returns r ->
  cr_code r = 0
  /\ cr_confidence r = Some f0_95
  /\ cr_system r = Some (text_conversion_system sys).
Proof.
  unfold obivox_bidirectional_convert. intros E.
  match type of E with
  | obind (obind ?m _) _ = _ => destruct m as [u| |]
  end; cbn [obind] in E; [|discriminate E|discriminate E].
  pose proof (f_equal (fun o => match o with
                                | Returns a => Some (cr_code a)
                                | _ => None
                                end) E) as E1.
  pose proof (f_equal (fun o => match o with
                                | Returns a => cr_confidence a
                                | _ => None
                                end) E) as E2.
  pose proof (f_equal (fun o => match o with
                                | Returns a => cr_system a
                                | _ => None
                                end) E) as E3.
  cbn [cr_code cr_confidence cr_system] in E1, E2, E3.
  injection E1 as E1. rewrite <- E1, <- E2, <- E3. repeat split.
Qed.

(** A conversion whose stored drift is not above 0.3 does not look at the
    drift at all. *)
Lemma drift_check_gate_closed (sys : OBIVoxNLMSystem) :
  F32.gtb (drift_magnitude sys) f0_3 = false ->
  convert_drift_check sys = sys.
Proof. intros G. unfold convert_drift_check. rewrite G. reflexivity. Qed.

(** C2 (as the code has it).  The handler, called with a drift of the
    AI-stress zone, reports [should_cascade = true] and selects the relaxed
    tree mode and the threshold 0.85 whatever the attempt counter is, and
    leaves the counter alone.  A conversion cycle (a text conversion, whose
    effect on the system is [text_conversion_system]) runs the handler only
    when the stored drift is above 0.3.  Starting with no recovery attempt
    and a stored drift above 0.3 in the AI-stress zone, four cycles in a
    row take the attempt counter through 0, 1, 2, 3 and leave it at 3;
    every cycle, the fourth included, stays in the AI-stress branch, and
    the handler still reports the cascade on the fourth: nothing switches
    to the human-stress branch.  A cycle whose stored drift is not above
    0.3 changes neither the counter nor the tree mode nor the threshold,
    also when that drift lies in the AI-stress zone. *)
Theorem C2_four_cycles (sys : OBIVoxNLMSystem) :
  recovery_attempts sys = 0 ->
  F32.gtb (drift_magnitude sys) f0_3 = true ->
  drift_zone (drift_magnitude sys) = AI_STRESS ->
  let after (k : nat) := Nat.iter k text_conversion_system sys in
  (recovery_attempts <$> (after <$> [0; 1; 2; 3; 4]%nat)) = [0; 1; 2; 3; 3]
  /\ (forall k : nat,
        (1 <= k <= 4)%nat ->
        current_tree_mode (after k) = TREE_MODE_RB
        /\ coherence_threshold (after k) = f0_85
        /\ drift_magnitude (after k) = drift_magnitude sys)
  /\ (forall b : bool,
        exists sys',
          obivox_handle_drift (Some (after 3%nat))
            (drift_magnitude (after 3%nat)) (Some b)
          = (0, Some sys', Some true)
          /\ current_tree_mode sys' = TREE_MODE_RB)
  /\ (forall tanhf select guide tone fuel s text out c r,
        obivox_bidirectional_convert tanhf select guide tone fuel (Some s)
          (Some (INPUT_TEXT text)) (Some out) (Some c) = Returns r ->
        cr_system r = Some (text_conversion_system s))
  /\ (forall (s : OBIVoxNLMSystem) (d : float) (b : bool),
        drift_zone d = AI_STRESS ->
        exists s',
          obivox_handle_drift (Some s) d (Some b) = (0, Some s', Some true)
          /\ current_tree_mode s' = TREE_MODE_RB
          /\ coherence_threshold s' = f0_85
          /\ recovery_attempts s' = recovery_attempts s)
  /\ (forall s : OBIVoxNLMSystem,
        F32.gtb (drift_magnitude s) f0_3 = true ->
        drift_zone (drift_magnitude s) = AI_STRESS ->
        recovery_attempts (text_conversion_system s)
        = (if recovery_attempts s <? 3 then u8 (recovery_attempts s + 1)
           else recovery_attempts s))
  /\ (forall s : OBIVoxNLMSystem,
        F32.gtb (drift_magnitude s) f0_3 = false ->
        recovery_attempts (text_conversion_system s) = recovery_attempts s
        /\ current_tree_mode (text_conversion_system s) = current_tree_mode s
        /\ coherence_threshold (text_conversion_system s) = coherence_threshold s
        /\ drift_magnitude (text_conversion_system s) = drift_magnitude s).
Proof.
  intros Hr Hd Hz after.
  assert (step : forall s, drift_magnitude s = drift_magnitude sys ->
            let s' := text_conversion_system s in
            current_tree_mode s' = TREE_MODE_RB
            /\ coherence_threshold s' = f0_85
            /\ drift_magnitude s' = drift_magnitude sys
            /\ recovery_attempts s'
               = (if recovery_attempts s <? 3 then u8 (recovery_attempts s + 1)
                  else recovery_attempts s)).
  { intros s E. cbv zeta. rewrite <- E. unfold text_conversion_system.
    cbn [set_codec_engine current_tree_mode coherence_threshold
         drift_magnitude recovery_attempts].
    apply drift_check_ai_stress; rewrite E; assumption. }
  destruct (step sys eq_refl) as (M1 & T1 & D1 & R1).
  destruct (step _ D1) as (M2 & T2 & D2 & R2).
  destruct (step _ D2) as (M3 & T3 & D3 & R3).
  destruct (step _ D3) as (M4 & T4 & D4 & R4).
  rewrite Hr in R1. change (recovery_attempts (text_conversion_system sys) = 1) in R1.
  rewrite R1 in R2.
  change (recovery_attempts (text_conversion_system (text_conversion_system sys))
          = 2) in R2.
  rewrite R2 in R3.
  change (recovery_attempts
            (text_conversion_system
               (text_conversion_system (text_conversion_system sys))) = 3) in R3.
  rewrite R3 in R4.
  change (recovery_attempts
            (text_conversion_system
               (text_conversion_system
                  (text_conversion_system (text_conversion_system sys)))) = 3)
    in R4.
  split; [|split; [|split; [|split; [|split; [|split]]]]].
  - unfold after. cbn [fmap list_fmap Nat.iter nat_rect].
    rewrite Hr, R1, R2, R3, R4. reflexivity.
  - intros k Hk. unfold after.
    destruct k as [|[|[|[|[|k]]]]]; try lia; cbn [Nat.iter nat_rect]; auto.
  - intros b. unfold after. cbn [Nat.iter nat_rect].
    destruct (handle_drift_zone
                (text_conversion_system
                   (text_conversion_system (text_conversion_system sys)))
                (drift_magnitude
                   (text_conversion_system
                      (text_conversion_system (text_conversion_system sys))))
                b) as (sys' & E & M & _).
    rewrite D3 in E, M |- *. rewrite Hz in E, M. eauto.
  - intros tanhf select guide tone fuel s text out c r E.
    apply (convert_text_system _ _ _ _ _ _ _ _ _ _ E).
  - intros s d b Z.
    destruct (handle_drift_zone s d b) as (s' & E & M & T & _ & R & _).
    rewrite Z in E, M, T. exists s'. auto.
  - intros s G Z. unfold text_conversion_system.
    cbn [set_codec_engine recovery_attempts].
    apply (drift_check_ai_stress s G Z).
  - intros s G. unfold text_conversion_system.
    rewrite (drift_check_gate_closed s G). repeat split.
Qed.

(** The four cycles on a freshly initialised system whose drift is 0.35. *)
Lemma C2_four_cycles_witness :
  (recovery_attempts <$>
     ((fun k => Nat.iter k text_conversion_system drifting_system)
        <$> [0; 1; 2; 3; 4]%nat)) = [0; 1; 2; 3; 3].
Proof.
  apply (C2_four_cycles drifting_system); vm_compute; reflexivity.
Defined.

(** C2, the claim as written fails twice.  With the attempt counter at its
    cap of 3 and a drift of 0.35, in the AI-stress zone, the handler still
    sets [should_cascade] and the cycle ends in the relaxed tree mode of
    the AI-stress branch, not in the strict mode of the human-stress
    branch.  And with a stored drift of 0.1, in the AI-stress zone as well,
    four cycles in a row leave the attempt counter at 0 and the tree mode
    where it was: the conversion does not run the handler for a drift that
    is not above 0.3. *)
Lemma C2_counterexample :
  let sys := drifting_system |> set_recovery_attempts 3 in
  (drift_zone (drift_magnitude sys) = AI_STRESS
   /\ snd (obivox_handle_drift (Some sys) (drift_magnitude sys) (Some false))
      = Some true
   /\ current_tree_mode (text_conversion_system sys) = TREE_MODE_RB
   /\ current_tree_mode (text_conversion_system sys) <> zone_tree_mode HUMAN_STRESS
   /\ recovery_attempts (text_conversion_system sys) = 3)
  /\ (drift_zone (drift_magnitude quiet_system) = AI_STRESS
      /\ (recovery_attempts <$>
            ((fun k => Nat.iter k text_conversion_system quiet_system)
               <$> [0; 1; 2; 3; 4]%nat)) = [0; 0; 0; 0; 0]
      /\ current_tree_mode (Nat.iter 4 text_conversion_system quiet_system)
         = TREE_MODE_HYBRID).
Proof. vm_compute. repeat split; discriminate. Qed.

(** ** Coordinate mapping *)

(** C3 (as the code has it).  For every feature record the mapper returns
    0 and a confidence of [0.954f * (1.0f - variation_score * 0.1f)]: the
    factor is the constant 0.954, and the coherence threshold of the system
    plays no part, also right after a drift cycle has lowered it to 0.85. *)
Theorem C3_confidence_constant_base
    (tanhf : float -> float) (features : AudioFeatures)
    (sys : OBIVoxNLMSystem) (d : float) (b : bool) :
  exists sys' cascade co,
    obivox_handle_drift (Some sys) d (Some b) = (0, Some sys', Some cascade)
    /\ obivox_map_to_nlm_space tanhf (Some features) (Some (current_position sys'))
       = (0, Some co)
    /\ confidence co
       = (f0_954 * (f1_0 - variation_score (variations features) * f0_1))%f32
    /\ z_axis co = variation_score (variations features).
Proof.
  destruct (handle_drift_zone sys d b) as (sys' & E & _).
  eexists sys', _, _. split; [exact E|].
  split; [reflexivity|]. split; reflexivity.
Qed.

(** C3, the claim as written fails: after an AI-stress cycle has lowered
    the coherence threshold to 0.85, a feature record with variation score
    0 is mapped to confidence 0.954, not to [0.85 * (1 - 0.1 * 0)]. *)
Lemma C3_counterexample :
  ~ (forall (tanhf : float -> float) (sys : OBIVoxNLMSystem)
            (features : AudioFeatures) (co : NLMCoordinate),
       snd (obivox_map_to_nlm_space tanhf (Some features)
              (Some (current_position sys))) = Some co ->
       confidence co
       = (coherence_threshold sys
          * (f1_0 - f0_1 * variation_score (variations features)))%f32).
Proof.
  intros H.
  pose (sys := default drifting_system
                 (snd (fst (obivox_handle_drift (Some drifting_system) f0_35
                              (Some false))))).
  assert (T : coherence_threshold sys = f0_85) by (vm_compute; reflexivity).
  specialize (H (fun x => x) sys zero_AudioFeatures _ eq_refl).
  rewrite T in H. vm_compute in H. discriminate H.
Qed.

(** ** Human in the loop *)

(** C8.  The gate sets [requires_confirmation] exactly when the confidence
    is strictly below 0.85, and returns 1 in that case and 0 otherwise.
    The comparison is the one of binary32: on a zero or a finite number it
    is the strict order of the values against the constant [0.85f], which
    is [14260634 * 2^-24]; a NaN never asks for confirmation.  0.84 asks
    for confirmation, 0.86 and 0.85 itself do not. *)
Theorem C8_confirmation_gate :
  (forall (text : string) (c : float) (fb : HumanFeedback),
     exists fb',
       obivox_request_human_validation (Some text) c (Some fb)
       = (if F32.ltb c f0_85 then 1 else 0, Some fb')
       /\ requires_confirmation fb' = F32.ltb c f0_85
       /\ original_interpretation fb' = Some text)
  /\ (forall (c : float) (u : Z),
        F32.valid c = true -> F32.units c = Some u ->
        (F32.ltb c f0_85 = true <-> u < 14260634 * 2 ^ 125))
  /\ F32.ltb S754_nan f0_85 = false
  /\ F32.ltb f0_84 f0_85 = true
  /\ F32.ltb f0_86 f0_85 = false
  /\ F32.ltb f0_85 f0_85 = false.
Proof.
  split; [|split; [|vm_compute; auto]].
  - intros text c fb. unfold obivox_request_human_validation. cbn.
    eexists. repeat split.
  - intros c u V U. apply (ltb_units c f0_85 u); [exact V|reflexivity|exact U|].
    reflexivity.
Qed.

(** C7.  [obivox_incorporate_feedback] looks at the pointer
    [suggested_correction], not at what it points to.  With the pointer
    set, feedback raises the formality axis by 0.1 and the evolution axis
    by 0.05, each capped at 1.0, and leaves the other two components
    alone; with a null pointer the coordinate is untouched.  Either way the
    call returns 0 and resets the drift magnitude and the attempt counter
    to 0, and from [y = 0.9], [z = 0.99] a correction gives [y = 1.0],
    [z = 1.0].  But the record that [obivox_request_human_validation] fills
    always has the pointer set, to an empty buffer: handed back with no
    correction entered, it moves a freshly initialised system from
    [y = 0.0], [z = 0.5] to [y = 0.1], [z = 0.55], where feedback without a
    correction is to leave the coordinate as it is. *)
Theorem C7_incorporate_feedback :
  let cap (v : float) := if F32.gtb v f1_0 then f1_0 else v in
  (forall (sys : OBIVoxNLMSystem) (fb : HumanFeedback),
     exists sys',
       obivox_incorporate_feedback (Some sys) (Some fb) = (0, Some sys')
       /\ drift_magnitude sys' = F32.zero
       /\ recovery_attempts sys' = 0
       /\ current_position sys'
          = match suggested_correction fb with
            | Some _ =>
                let pos := current_position sys in
                {| x_axis := x_axis pos;
                   y_axis := cap (y_axis pos + f0_1)%f32;
                   z_axis := cap (z_axis pos + f0_05)%f32;
                   confidence := confidence pos |}
            | None => current_position sys
            end
       /\ accessibility sys' = accessibility sys
       /\ current_tree_mode sys' = current_tree_mode sys
       /\ coherence_threshold sys' = coherence_threshold sys)
  /\ (forall v : float, F32.gtb (cap v) f1_0 = false)
  /\ (forall (sys : OBIVoxNLMSystem) (x conf : float) (fb : HumanFeedback)
             (text : string),
        let sys := sys |> set_current_position (mkNLMCoordinate x f0_9 f0_99 conf) in
        let fb :=
          mkHumanFeedback (requires_confirmation fb) (confidence_threshold fb)
            (Some text) (original_interpretation fb) in
        current_position <$> snd (obivox_incorporate_feedback (Some sys) (Some fb))
        = Some (mkNLMCoordinate x f1_0 f1_0 conf))
  /\ cap (f0_9 + f0_1)%f32 = f1_0
  /\ cap (f0_99 + f0_05)%f32 = f1_0
  /\ (forall (text : string) (conf : float) (fb0 : HumanFeedback),
        exists code fb sys',
          obivox_request_human_validation (Some text) conf (Some fb0)
          = (code, Some fb)
          /\ suggested_correction fb = Some EmptyString
          /\ obivox_incorporate_feedback (Some initial_system) (Some fb)
             = (0, Some sys')
          /\ current_position initial_system
             = mkNLMCoordinate F32.zero F32.zero f0_5 f0_954
          /\ current_position sys'
             = mkNLMCoordinate F32.zero f0_1 (f0_5 + f0_05)%f32 f0_954
          /\ current_position sys' <> current_position initial_system).
Proof.
  intros cap.
  split; [|split; [|split; [intros; reflexivity|]]].
  - intros sys fb. unfold obivox_incorporate_feedback.
    destruct (suggested_correction fb) as [c|]; cbn.
    + eexists. split; [reflexivity|]. repeat split.
      unfold cap. cbn.
      destruct (F32.gtb (y_axis (current_position sys) + f0_1)%f32 f1_0);
        cbn; destruct (F32.gtb (z_axis (current_position sys) + f0_05)%f32 f1_0);
        reflexivity.
    + eexists. split; [reflexivity|]. repeat split.
  - intros v. unfold cap. destruct (F32.gtb v f1_0) eqn:E; [|exact E].
    vm_compute. reflexivity.
  - split; [vm_compute; reflexivity|]. split; [vm_compute; reflexivity|].
    intros text conf fb0. unfold obivox_request_human_validation.
    eexists _, _, _. split; [reflexivity|]. split; [reflexivity|].
    unfold obivox_incorporate_feedback. cbn [suggested_correction].
    split; [reflexivity|].
    split; [vm_compute; reflexivity|].
    split; [vm_compute; reflexivity|].
    vm_compute. discriminate.
Qed.

(** ** Loops and buffers *)

Section ForLoopFacts.
Context {St : Type}.
Variable cond : Z -> bool.
Variable next : Z -> Z.
Variable body : Z -> St -> outcome St.

(** More fuel does not change an outcome that did not run out of it. *)
Lemma for_loop_fuel_mono (fuel extra : nat) (i : Z) (s : St) :
  for_loop cond next body fuel i s <> OutOfFuel ->
  for_loop cond next body (fuel + extra) i s = for_loop cond next body fuel i s.
Proof.
  revert i s. induction fuel as [|fuel IH]; intros i s H.
  - cbn in *. destruct (cond i) eqn:E; [contradiction|].
    destruct extra; cbn; rewrite E; reflexivity.
  - cbn in *. destruct (cond i); [|reflexivity].
    destruct (body i s) as [s'| |]; cbn in *; auto.
Qed.
End ForLoopFacts.

Section CountingLoop.
Context {St : Type}.
Variable hi : Z.
Variable body : Z -> St -> outcome St.
Variable Inv : Z -> St -> Prop.

Hypothesis hi_u32 : hi < 4294967296.
Variable lo : Z.
Hypothesis lo_nonneg : 0 <= lo.
Hypothesis body_preserves :
  forall i s, lo <= i < hi -> Inv i s ->
              exists s', body i s = Returns s' /\ Inv (i + 1) s'.

(** A counting loop [for (i = lo; i < hi; i++)] whose body keeps an
    invariant returns once it has at least [hi - lo] units of fuel. *)
Lemma counting_loop_returns (fuel : nat) (i : Z) (s : St) :
  lo <= i -> hi - i <= Z.of_nat fuel -> Inv i s ->
  exists s',
    for_loop (fun i => i <? hi) (fun i => u32 (i + 1)) body fuel i s = Returns s'
    /\ Inv (Z.max i hi) s'.
Proof.
  revert i s. induction fuel as [|fuel IH]; intros i s Hlo Hfuel HI.
  - cbn. destruct (Z.ltb_spec i hi); [lia|].
    exists s. rewrite Z.max_l by lia. auto.
  - cbn. destruct (Z.ltb_spec i hi).
    + destruct (body_preserves i s) as (s1 & E & HI1); [lia|assumption|].
      rewrite E. cbn.
      replace (u32 (i + 1)) with (i + 1)
        by (unfold u32; rewrite Z.mod_small; lia).
      destruct (IH (i + 1) s1) as (s' & E' & HI'); [lia|lia|assumption|].
      exists s'. split; [exact E'|].
      replace (Z.max i hi) with (Z.max (i + 1) hi) by lia. exact HI'.
    + exists s. rewrite Z.max_l by lia. auto.
Qed.
End CountingLoop.

Lemma rd_in_bounds (audio : list float) (i : Z) :
  0 <= i < Z.of_nat (length audio) ->
  exists x, audio !! Z.to_nat i = Some x /\ rd audio i = Returns x.
Proof.
  intros H. unfold rd. destruct (Z.ltb_spec i 0); [lia|].
  destruct (lookup_lt_is_Some_2 audio (Z.to_nat i)) as [x E]; [lia|].
  exists x. rewrite E. auto.
Qed.

Lemma rd_out_of_bounds (audio : list float) (i : Z) :
  Z.of_nat (length audio) <= i -> rd audio i = OutOfBounds.
Proof.
  intros H. unfold rd. destruct (Z.ltb_spec i 0); [reflexivity|].
  rewrite lookup_ge_None_2 by lia. reflexivity.
Qed.

Lemma wr_in_bounds (audio : list float) (i : Z) (v : float) :
  0 <= i < Z.of_nat (length audio) ->
  wr audio i v = Returns (<[Z.to_nat i := v]> audio).
Proof.
  intros H. unfold wr. destruct (Z.ltb_spec i 0); [lia|].
  destruct (lookup_lt_is_Some_2 audio (Z.to_nat i)) as [x E]; [lia|].
  rewrite E. reflexivity.
Qed.

Lemma ofold_returns {A B : Type} (f : B -> A -> outcome B) (l : list A) (b : B) :
  (forall a b, a ∈ l -> exists b', f b a = Returns b') ->
  exists r, ofold f l b = Returns r.
Proof.
  revert b. induction l as [|a l IH]; intros b H; cbn.
  - eauto.
  - destruct (H a b) as [b' E]; [left|]. rewrite E. cbn.
    apply IH. intros a' b0 Ha'. apply H. right. exact Ha'.
Qed.

(** The smoothing window around an index that keeps half a window of
    distance from both ends lies in the buffer. *)
Lemma window_sum_returns (audio : list float) (i : Z) :
  smooth_window / 2 <= i ->
  i + smooth_window / 2 < Z.of_nat (length audio) ->
  i + smooth_window / 2 < 4294967296 ->
  exists avg, window_sum audio i = Returns avg.
Proof.
  unfold smooth_window. change (512 / 2) with 256. intros H1 H2 H3.
  unfold window_sum. apply ofold_returns. intros j avg Hj.
  unfold smooth_window in Hj. change (512 / 2) with 256 in Hj.
  apply elem_of_seqZ in Hj.
  replace (u32 (i + j)) with (i + j)
    by (unfold u32; rewrite Z.mod_small; lia).
  destruct (rd_in_bounds audio (i + j)) as (x & _ & E); [lia|].
  rewrite E. cbn. eauto.
Qed.

(** ** Phonetic normalisation *)

(** C4.  With a preservation factor of exactly 1.0 neither pass runs: for
    every buffer, sample count and profile the call returns the buffer it
    was given, with code 0 when both pointers are valid. *)
Theorem C4_factor_one_is_identity :
  forall (fuel : nat) (audio : option (list float)) (num_samples : Z)
         (accessibility : option PhoneticAccessibility),
    obivox_apply_phonetic_normalization fuel audio num_samples accessibility f1_0
    = Returns (match audio, accessibility with
               | Some _, Some _ => 0
               | _, _ => -1
               end, audio).
Proof.
  intros fuel [au|] n [acc|]; try reflexivity.
  unfold obivox_apply_phonetic_normalization.
  change (F32.ltb f1_0 f1_0) with false.
  rewrite !andb_false_r. reflexivity.
Qed.

(** The fricative pass rewrites samples in place and keeps the length. *)
Lemma lisp_pass_returns (fuel : nat) (pf : float) (audio : list float) :
  Z.of_nat (length audio) < 4294967296 ->
  (length audio <= fuel)%nat ->
  exists mid,
    lisp_pass fuel (Z.of_nat (length audio)) pf audio = Returns mid
    /\ length mid = length audio.
Proof.
  intros Hn Hfuel. unfold lisp_pass.
  destruct (counting_loop_returns (Z.of_nat (length audio)) (lisp_body pf)
              (fun _ s => length s = length audio) Hn 0 (Z.le_refl 0))
    with (fuel := fuel) (i := 0) (s := audio) as (mid & E & L);
    [|lia|lia|reflexivity|eauto].
  intros i s Hi Hs. unfold lisp_body.
  destruct (Z.ltb_spec 0 i).
  - destruct (rd_in_bounds s i) as (a & _ & ->); [lia|].
    destruct (rd_in_bounds s (i - 1)) as (b & _ & ->); [lia|]. cbn.
    rewrite wr_in_bounds by lia. eexists. split; [reflexivity|].
    rewrite length_insert. exact Hs.
  - eauto.
Qed.

(** What the smoothing pass has established when its counter is [i]:
    samples from [i] on and samples of the first window are still those of
    the buffer [mid] it started from, and each sample [k] it has passed is
    the blend of [mid[k]] with the window sum taken over the buffer as it
    stood when the counter was [k]. *)
Definition smoothed_up_to (pf : float) (mid : list float) (i : Z)
    (s : list float) : Prop :=
  length s = length mid
  /\ (forall k : nat, Z.of_nat k < smooth_window \/ i <= Z.of_nat k ->
                      s !! k = mid !! k)
  /\ (forall k : nat,
        smooth_window <= Z.of_nat k < i ->
        exists avg a,
          window_sum (take k s ++ drop k mid) (Z.of_nat k) = Returns avg
          /\ mid !! k = Some a
          /\ s !! k = Some (blend pf a (avg / F32.of_Z smooth_window)%f32)).

Lemma smoothed_up_to_step (pf : float) (mid : list float) (i : Z) (s : list float) :
  Z.of_nat (length mid) < 4294967296 ->
  smooth_window <= i < Z.of_nat (length mid) - smooth_window ->
  smoothed_up_to pf mid i s ->
  exists s', stutter_body pf i s = Returns s'
             /\ smoothed_up_to pf mid (i + 1) s'.
Proof.
  unfold smooth_window. intros Hn Hi (L & Frame & Done).
  assert (Ei : Z.of_nat (Z.to_nat i) = i) by lia.
  destruct (window_sum_returns s i) as (avg & Ws);
    [unfold smooth_window; change (512 / 2) with 256; lia ..|].
  destruct (rd_in_bounds s i) as (a & Ea & Ra); [lia|].
  unfold stutter_body. rewrite Ws. cbn. rewrite Ra. cbn.
  rewrite wr_in_bounds by lia.
  eexists. split; [reflexivity|].
  assert (Same : take (Z.to_nat i) s ++ drop (Z.to_nat i) mid = s).
  { transitivity (take (Z.to_nat i) s ++ drop (Z.to_nat i) s);
      [|apply take_drop].
    f_equal. apply list_eq. intros k. rewrite !lookup_drop.
    apply eq_sym, Frame. right. lia. }
  split; [|split].
  - rewrite length_insert. exact L.
  - intros k Hk. rewrite list_lookup_insert_ne by (unfold smooth_window in *; lia).
    apply Frame. unfold smooth_window in *; lia.
  - intros k Hk. unfold smooth_window in Hk.
    destruct (decide (k = Z.to_nat i)) as [->|Hne].
    + exists avg, a. rewrite take_insert_ge by lia. rewrite Same, Ei.
      split; [exact Ws|]. split.
      * rewrite <- Ea. apply eq_sym, Frame. right. lia.
      * apply list_lookup_insert_eq. lia.
    + rewrite take_insert_ge by lia.
      rewrite list_lookup_insert_ne by lia.
      apply Done. unfold smooth_window. lia.
Qed.

Lemma stutter_pass_returns (fuel : nat) (pf : float) (mid : list float) :
  smooth_window <= Z.of_nat (length mid) < 4294967296 ->
  (length mid <= fuel)%nat ->
  exists out,
    stutter_pass fuel (Z.of_nat (length mid)) pf mid = Returns out
    /\ smoothed_up_to pf mid (Z.of_nat (length mid) - smooth_window) out.
Proof.
  intros Hn Hfuel. unfold stutter_pass.
  replace (u32 (Z.of_nat (length mid) - smooth_window))
    with (Z.of_nat (length mid) - smooth_window)
    by (unfold u32, smooth_window in *; rewrite Z.mod_small; lia).
  assert (Hhi : Z.of_nat (length mid) - smooth_window < 4294967296)
    by (unfold smooth_window; lia).
  assert (Hlo : 0 <= smooth_window) by (unfold smooth_window; lia).
  destruct (counting_loop_returns (Z.of_nat (length mid) - smooth_window)
              (stutter_body pf) (smoothed_up_to pf mid) Hhi smooth_window Hlo)
    with (fuel := fuel) (i := smooth_window) (s := mid) as (out & E & I).
  - intros i s Hi HI. apply smoothed_up_to_step; [lia|lia|exact HI].
  - lia.
  - unfold smooth_window in *. lia.
  - split; [reflexivity|]. split; [reflexivity|]. intros k Hk. lia.
  - exists out. split; [exact E|].
    destruct (Z.le_gt_cases smooth_window
                (Z.of_nat (length mid) - smooth_window)) as [Long|Short].
    + rewrite Z.max_r in I by exact Long. exact I.
    + rewrite Z.max_l in I by lia. destruct I as (L & Frame & _).
      split; [exact L|]. split.
      * intros k _. apply Frame. lia.
      * intros k Hk. lia.
Qed.

(** C6 (as the code has it).  On a buffer that holds at least one smoothing
    window, with the stutter flag set and a factor below 1, the call
    returns 0 and keeps the length.  Taking [mid] to be the buffer after
    the fricative pass (the input itself when the lisp flag is unset), the
    smoothing pass leaves the first 512 and the last 512 samples of [mid]
    alone: the margin is a whole window, not half of one.  Every sample [k]
    that keeps that margin from both ends becomes
    [mid[k] * factor + avg * (1 - factor)], where [avg] is what the window
    loop of the code yields at [k] on the buffer as it stands at that
    step. *)
Theorem C6_smoothing_full_window_margin
    (fuel : nat) (pf : float) (audio : list float) (acc : PhoneticAccessibility) :
  let n := Z.of_nat (length audio) in
  smooth_window <= n < 4294967296 ->
  (length audio <= fuel)%nat ->
  stutter_detection acc = true ->
  F32.ltb pf f1_0 = true ->
  exists mid out : list float,
    (if lisp_mitigation acc then lisp_pass fuel n pf audio else Returns audio)
    = Returns mid
    /\ obivox_apply_phonetic_normalization fuel (Some audio) n (Some acc) pf
       = Returns (0, Some out)
    /\ length out = length audio
    /\ (forall k : nat,
          Z.of_nat k < smooth_window \/ n - smooth_window <= Z.of_nat k ->
          out !! k = mid !! k)
    /\ (forall k : nat,
          smooth_window <= Z.of_nat k < n - smooth_window ->
          exists sum a,
            window_sum (take k out ++ drop k mid) (Z.of_nat k) = Returns sum
            /\ mid !! k = Some a
            /\ out !! k = Some (blend pf a (sum / F32.of_Z smooth_window)%f32)).
Proof.
  intros n Hn Hfuel Hst Hpf.
  assert (exists mid,
            (if lisp_mitigation acc then lisp_pass fuel n pf audio
             else Returns audio) = Returns mid
            /\ length mid = length audio) as (mid & Emid & Lmid).
  { destruct (lisp_mitigation acc); [|eauto].
    apply lisp_pass_returns; [unfold n in Hn; lia|exact Hfuel]. }
  destruct (stutter_pass_returns fuel pf mid) as (out & Eout & L & Frame & Done);
    [rewrite Lmid; exact Hn|rewrite Lmid; exact Hfuel|].
  rewrite Lmid in Eout, Frame, Done. fold n in Eout, Frame, Done.
  exists mid, out. split; [exact Emid|]. split.
  - unfold obivox_apply_phonetic_normalization. fold n.
    rewrite Hst, Hpf, andb_true_r. cbn [andb].
    rewrite Emid. cbn [obind]. rewrite Eout. reflexivity.
  - split; [congruence|]. split; [exact Frame|exact Done].
Qed.

(** The smoothing pass on the 1025-sample test buffer. *)
Lemma C6_smoothing_full_window_margin_witness :
  exists mid out : list float,
    Returns spike_buffer = Returns mid
    /\ obivox_apply_phonetic_normalization 1025 (Some spike_buffer) 1025
         (Some stutter_only_profile) f0_7 = Returns (0, Some out)
    /\ length out = length spike_buffer.
Proof.
  destruct (C6_smoothing_full_window_margin 1025 f0_7 spike_buffer
              stutter_only_profile) as (mid & out & E1 & E2 & E3 & _).
  - vm_compute. split; [discriminate|reflexivity].
  - apply Nat.leb_le. vm_compute. reflexivity.
  - reflexivity.
  - vm_compute. reflexivity.
  - exists mid, out. split; [exact E1|]. split; [exact E2|exact E3].
Defined.

(** C6, the claim as written fails.  Sample 256 of the test buffer is
    outside the half-window margins, yet the call returns it as it was,
    and that is not the blend of the sample with its 512-sample mean.  On
    the buffer of ones the 512-sample mean is 1.0 and so is the blend, yet
    sample 512 comes back different from 1.0.  And on a buffer of 100
    samples the call does not return a buffer at all: it reads past the
    end. *)
Lemma C6_counterexample :
  (exists out : list float,
     obivox_apply_phonetic_normalization 1025 (Some spike_buffer) 1025
       (Some stutter_only_profile) f0_7 = Returns (0, Some out)
     /\ 256 <= 256 < Z.of_nat (length spike_buffer) - 256
     /\ out !! 256%nat = spike_buffer !! 256%nat
     /\ out !! 256%nat <> Some (spec_blend f0_7 spike_buffer 256))
  /\ (exists out : list float,
        obivox_apply_phonetic_normalization 1025 (Some ones_buffer) 1025
          (Some stutter_only_profile) f0_7 = Returns (0, Some out)
        /\ spec_blend f0_7 ones_buffer 512 = f1_0
        /\ out !! 512%nat <> Some (spec_blend f0_7 ones_buffer 512))
  /\ obivox_apply_phonetic_normalization 1000 (Some short_buffer) 100
       (Some stutter_only_profile) f0_7 = OutOfBounds.
Proof.
  split; [|split].
  - eexists. split; [vm_compute; reflexivity|].
    split; [vm_compute; split; [discriminate|reflexivity]|].
    split; [vm_compute; reflexivity|].
    vm_compute. discriminate.
  - eexists. split; [vm_compute; reflexivity|].
    split; [vm_compute; reflexivity|].
    vm_compute. discriminate.
  - vm_compute. reflexivity.
Qed.

(** ** Speech variation detection *)

Lemma zcr_loop_returns (fuel : nat) (audio : list float) :
  Z.of_nat (length audio) < 4294967296 ->
  (length audio <= fuel)%nat ->
  exists zcr,
    for_loop (fun i => i <? Z.of_nat (length audio)) (fun i => u32 (i + 1))
             (zcr_body audio) fuel 1 F32.zero = Returns zcr.
Proof.
  intros Hn Hfuel.
  destruct (counting_loop_returns (Z.of_nat (length audio)) (zcr_body audio)
              (fun _ _ => True) Hn 1 ltac:(lia))
    with (fuel := fuel) (i := 1) (s := F32.zero) as (zcr & E & _);
    [|lia|lia|exact I|eauto].
  intros i s Hi _. unfold zcr_body.
  destruct (rd_in_bounds audio i) as (a & _ & ->); [lia|].
  destruct (rd_in_bounds audio (i - 1)) as (b & _ & ->); [lia|].
  cbn. eauto.
Qed.

(** On a buffer shorter than a window the first correlation reads
    [audio[1024]]. *)
Lemma repetition_body_short (audio : list float) (score : float) :
  Z.of_nat (length audio) < window_size ->
  repetition_body audio window_size score = OutOfBounds.
Proof.
  unfold window_size. intros H. unfold repetition_body, window_size.
  rewrite seqZ_cons by lia. cbn [ofold].
  rewrite (rd_out_of_bounds audio (u32 (1024 + 0))); [reflexivity|].
  change (u32 (1024 + 0)) with 1024. lia.
Qed.

Lemma short_bound_wraps (n : Z) :
  0 <= n < window_size ->
  (window_size <? u32 (n - window_size)) = true.
Proof.
  unfold window_size, u32. intros H.
  replace (n - 1024) with (n - 1024 + 4294967296 + (-1) * 4294967296) by lia.
  rewrite Z_mod_plus_full, Z.mod_small by lia.
  apply Z.ltb_lt. lia.
Qed.

(** C5, what the code does on a short buffer.  With valid pointers and
    fewer than 1024 samples the call never returns, neither with an error
    code nor with a score: as soon as the zero-crossing loop is through,
    the bound [num_samples - window_size] of the repetition loop has
    wrapped around, and its first window reads past the end of the
    buffer. *)
Theorem C5_short_buffer_reads_out_of_bounds
    (audio : list float) (acc : PhoneticAccessibility) (v : float) :
  Z.of_nat (length audio) < window_size ->
  forall fuel : nat,
    let call :=
      obivox_detect_speech_variations fuel (Some audio)
        (Z.of_nat (length audio)) (Some acc) (Some v) in
    (forall r, call <> Returns r)
    /\ ((length audio < fuel)%nat -> call = OutOfBounds).
Proof.
  intros Hn fuel. cbv zeta. unfold obivox_detect_speech_variations.
  assert (Second : forall score : float,
            exists bad,
              for_loop (fun i => i <? u32 (Z.of_nat (length audio) - window_size))
                (fun i => u32 (i + window_size / 2)) (repetition_body audio)
                fuel window_size score = bad
              /\ (forall r, bad <> Returns r)
              /\ ((0 < fuel)%nat -> bad = OutOfBounds)).
  { intros score. eexists. split; [reflexivity|].
    destruct fuel as [|fuel]; cbn [for_loop];
      rewrite short_bound_wraps by lia.
    - split; [discriminate|intros; lia].
    - rewrite repetition_body_short by exact Hn. split; [discriminate|reflexivity]. }
  split.
  - intros r. destruct (for_loop _ _ (zcr_body audio) fuel 1 F32.zero) as [zcr| |];
      cbn [obind]; try discriminate.
    destruct (Second F32.zero) as (bad & -> & Hbad & _).
    destruct bad; cbn [obind]; try discriminate. destruct (Hbad a eq_refl).
  - intros Hfuel.
    destruct (zcr_loop_returns fuel audio) as (zcr & ->);
      [unfold window_size in Hn; lia|lia|].
    cbn [obind]. destruct (Second F32.zero) as (bad & -> & _ & Hbad).
    rewrite Hbad by lia. reflexivity.
Qed.

(** The detector on 100 silent samples. *)
Lemma C5_short_buffer_reads_out_of_bounds_witness :
  obivox_detect_speech_variations 101 (Some short_buffer) 100
    (Some (accessibility initial_system)) (Some F32.zero) = OutOfBounds.
Proof.
  apply (C5_short_buffer_reads_out_of_bounds short_buffer
           (accessibility initial_system) F32.zero).
  - vm_compute. reflexivity.
  - apply Nat.ltb_lt. vm_compute. reflexivity.
Defined.

(** The detector writes [true] to the two flags or leaves them. *)
Lemma detect_flags (fuel : nat) (audio : option (list float)) (n : Z)
    (acc : PhoneticAccessibility) (v : option float)
    (code : Z) (oacc : option PhoneticAccessibility) (v' : option float) :
  obivox_detect_speech_variations fuel audio n (Some acc) v
  = Returns (code, oacc, v') ->
  exists acc',
    oacc = Some acc'
    /\ (lisp_mitigation acc' = lisp_mitigation acc \/ lisp_mitigation acc' = true)
    /\ (stutter_detection acc' = stutter_detection acc
        \/ stutter_detection acc' = true).
Proof.
  unfold obivox_detect_speech_variations.
  destruct audio as [au|]; [|intros [= <- <- <-]; exists acc; auto].
  destruct v as [v|]; [|intros [= <- <- <-]; exists acc; auto].
  destruct (for_loop _ _ (zcr_body au) fuel 1 F32.zero) as [zcr| |];
    cbn [obind]; try discriminate.
  destruct (for_loop _ _ (repetition_body au) fuel window_size F32.zero)
    as [rep| |]; cbn [obind]; try discriminate.
  intros [= <- <- <-]. eexists. split; [reflexivity|].
  destruct (F32.gtb (zcr / F32.of_Z n)%f32 f0_4);
    destruct (F32.gtb rep f3_0);
    match goal with |- context [if ?c then _ else _] => destruct c end;
    cbn; auto.
Qed.

Lemma drift_check_accessibility (s : OBIVoxNLMSystem) :
  accessibility (convert_drift_check s) = accessibility s.
Proof.
  unfold convert_drift_check.
  destruct (F32.gtb (drift_magnitude s) f0_3); [|reflexivity].
  destruct (handle_drift_zone s (drift_magnitude s) false)
    as (s' & -> & _ & _ & _ & _ & A & _).
  cbn. destruct (_ && _); cbn; exact A.
Qed.

Section ReachabilityFacts.
Variable tanhf : float -> float.
Variable obivox_select_optimal_codec :
  OBIVoxNLMSystem -> outcome (Z * OBIVoxNLMSystem * TreeMode).
Variable obivox_generate_pronunciation_guide :
  string -> PhoneticAccessibility -> outcome (Z * option string).
Variable tone : Z -> float.

(** The codec selector is not part of [nlm_core.c]; it is taken to leave
    the two flags as they are. *)
Hypothesis selector_keeps_flags :
  forall s code s' m,
    obivox_select_optimal_codec s = Returns (code, s', m) ->
    lisp_mitigation (accessibility s') = lisp_mitigation (accessibility s)
    /\ stutter_detection (accessibility s')
       = stutter_detection (accessibility s).

Lemma convert_flags (fuel : nat) (s s' : OBIVoxNLMSystem)
    (input : option ConvertInput) (output : option (option ConvertOutput))
    (conf : option float) (r : ConvertResult) :
  obivox_bidirectional_convert tanhf obivox_select_optimal_codec
    obivox_generate_pronunciation_guide tone fuel (Some s) input output conf
  = Returns r ->
  cr_system r = Some s' ->
  flags_set s -> flags_set s'.
Proof.
  unfold obivox_bidirectional_convert.
  destruct input as [inp|]; [|intros [= <-] [= <-]; auto].
  destruct output as [out|]; [|intros [= <-] [= <-]; auto].
  destruct conf as [c|]; [|intros [= <-] [= <-]; auto].
  pose proof (drift_check_accessibility s) as A.
  set (s1 := convert_drift_check s) in *.
  intros E Es' [Hl Hs]. rewrite <- A in Hl, Hs. clear A.
  destruct inp as [samples|text].
  - cbn [raw_audio num_samples] in E.
    destruct (obivox_detect_speech_variations fuel (Some samples) _
                (Some (accessibility s1)) (Some F32.zero))
      as [[[code oacc] ov]| |] eqn:D; cbn [obind] in E; try discriminate.
    destruct (detect_flags _ _ _ _ _ _ _ _ D) as (acc' & -> & Fl & Fs).
    cbn [default] in E.
    match type of E with
    | obind (obind ?m _) _ = _ => destruct m as [audio| |]
    end; cbn [obind] in E; try discriminate.
    match type of E with
    | context [obivox_map_to_nlm_space ?t ?f ?c] =>
        destruct (obivox_map_to_nlm_space t f c) as [mc pos]
    end.
    match type of E with
    | context [obivox_select_optimal_codec ?x] =>
        destruct (obivox_select_optimal_codec x) as [[[sc s2] m]| |] eqn:S
    end; cbn [obind] in E; try discriminate.
    apply selector_keeps_flags in S. destruct S as [Sl Ss].
    cbn [set_current_position set_accessibility accessibility] in Sl, Ss.
    injection E as <-. cbn [cr_system] in Es'. injection Es' as <-.
    split; cbn [set_codec_engine accessibility].
    + rewrite Sl. unfold Datatypes.id. destruct Fl as [->| ->]; auto.
    + rewrite Ss. unfold Datatypes.id. destruct Fs as [->| ->]; auto.
  - match type of E with
    | obind (obind ?m _) _ = _ => destruct m as [u| |]
    end; cbn [obind] in E; [|discriminate E|discriminate E].
    apply (f_equal (fun o => match o with
                             | Returns a => cr_system a
                             | _ => None
                             end)) in E.
    cbn [cr_system] in E. rewrite Es' in E. injection E as <-.
    split; cbn [set_codec_engine accessibility]; assumption.
Qed.

Lemma api_step_flags (s s' : OBIVoxNLMSystem) :
  api_step tanhf obivox_select_optimal_codec
    obivox_generate_pronunciation_guide tone s s' ->
  flags_set s -> flags_set s'.
Proof.
  intros Step [Hl Hs]. destruct Step as
    [s fuel audio n v code acc' v' D
    |s features code co M
    |s s' fuel input output conf r C Cs
    |s s' d b code cascade H
    |s s' fb code F].
  - destruct (detect_flags _ _ _ _ _ _ _ _ D) as (acc & [= <-] & Fl & Fs).
    split; cbn; [destruct Fl as [->| ->]|destruct Fs as [->| ->]]; auto.
  - split; assumption.
  - eapply convert_flags; [exact C|exact Cs|split; assumption].
  - destruct b as [b|].
    + destruct (handle_drift_zone s d b) as (s1 & E & _ & _ & _ & _ & A & _).
      rewrite E in H. injection H as _ <- _. split; rewrite A; assumption.
    + cbn in H. injection H as _ <- _. split; assumption.
  - unfold obivox_incorporate_feedback in F. destruct fb as [fb|].
    + injection F as _ <-. destruct (suggested_correction fb);
        split; assumption.
    + injection F as _ <-. split; assumption.
Qed.

Lemma reachable_flags (s : OBIVoxNLMSystem) :
  reachable tanhf obivox_select_optimal_codec
    obivox_generate_pronunciation_guide tone s ->
  flags_set s.
Proof.
  induction 1 as [s E|s s' _ IH Step].
  - injection E as <-. split; reflexivity.
  - eapply api_step_flags; eassumption.
Qed.
End ReachabilityFacts.

(** C10.  The detector sets each of the two flags to [true] or leaves it,
    and initialisation sets both.  Hence both are set in every reachable
    system, provided the codec selector, whose code is not part of
    [nlm_core.c], leaves them alone; and on the profile of a reachable system a
    normalisation with a factor below 1 always runs the fricative pass and
    then the smoothing pass, whatever the detector measured. *)
Theorem C10_flags_always_set
    (tanhf : float -> float)
    (obivox_select_optimal_codec :
       OBIVoxNLMSystem -> outcome (Z * OBIVoxNLMSystem * TreeMode))
    (obivox_generate_pronunciation_guide :
       string -> PhoneticAccessibility -> outcome (Z * option string))
    (tone : Z -> float) :
  (forall s code s' m,
     obivox_select_optimal_codec s = Returns (code, s', m) ->
     lisp_mitigation (accessibility s') = lisp_mitigation (accessibility s)
     /\ stutter_detection (accessibility s')
        = stutter_detection (accessibility s)) ->
  (forall fuel audio n acc v code acc' v',
     obivox_detect_speech_variations fuel audio n (Some acc) v
     = Returns (code, Some acc', v') ->
     (lisp_mitigation acc' = lisp_mitigation acc \/ lisp_mitigation acc' = true)
     /\ (stutter_detection acc' = stutter_detection acc
         \/ stutter_detection acc' = true))
  /\ (exists s, obivox_nlm_init true = (0, Some s) /\ flags_set s)
  /\ (forall s,
        reachable tanhf obivox_select_optimal_codec
          obivox_generate_pronunciation_guide tone s ->
        flags_set s)
  /\ (forall s fuel audio n pf,
        reachable tanhf obivox_select_optimal_codec
          obivox_generate_pronunciation_guide tone s ->
        F32.ltb pf f1_0 = true ->
        obivox_apply_phonetic_normalization fuel (Some audio) n
          (Some (accessibility s)) pf
        = (do mid <- lisp_pass fuel n pf audio;
           do out <- stutter_pass fuel n pf mid;
           Returns (0, Some out))).
Proof.
  intros Hsel. split; [|split; [|split]].
  - intros fuel audio n acc v code acc' v' D.
    destruct (detect_flags _ _ _ _ _ _ _ _ D) as (a & [= <-] & Fl & Fs). auto.
  - eexists. split; [reflexivity|]. split; reflexivity.
  - intros s R. eapply reachable_flags; eassumption.
  - intros s fuel audio n pf R Hpf.
    destruct (reachable_flags _ _ _ _ Hsel s R) as [Hl Hs].
    unfold obivox_apply_phonetic_normalization.
    rewrite Hl, Hs, Hpf. reflexivity.
Qed.

(** Both flags are set after initialisation and one drift-handler call. *)
Lemma C10_flags_always_set_witness : flags_set drifted_system.
Proof.
  apply (C10_flags_always_set (fun x => x) idle_selector no_guide silent_tone).
  - intros s code s' m [= _ <- _]. split; reflexivity.
  - eapply reach_step.
    + apply reach_init. reflexivity.
    + eapply (step_handle_drift _ _ _ _ _ _ f0_35 (Some false)). reflexivity.
Defined.

(** ** The discovery tree *)

Import Atlas.

(** Seven keys inserted in increasing order: both modes end with a tree of
    height 3; in relaxed mode its eight paths carry three black nodes
    each. *)
Example avl_insert_sorted :
  tree_height (avl_insert_all sample_entries) = 3%nat
  /\ tree_size (avl_insert_all sample_entries) = 7%nat.
Proof. vm_compute. split; reflexivity. Qed.

Example rb_insert_sorted :
  tree_height (rb_insert_all sample_entries) = 3%nat
  /\ black_count <$> paths (rb_insert_all sample_entries)
     = replicate 8 3%nat
  /\ existsb consecutive_red (paths (rb_insert_all sample_entries)) = false.
Proof. vm_compute. repeat split; reflexivity. Qed.

Lemma node_height_eq (t : NLMAtlasNode) :
  avl t -> node_height t = Z.of_nat (tree_height t).
Proof.
  destruct t as [|l e h c r]; [reflexivity|].
  intros (_ & _ & _ & _ & ->). reflexivity.
Qed.

Lemma mk_node_avl (l : NLMAtlasNode) (e : AtlasEntry) (c : Color)
    (r : NLMAtlasNode) :
  avl l -> avl r ->
  (tree_height l <= S (tree_height r))%nat ->
  (tree_height r <= S (tree_height l))%nat ->
  avl (mk_node l e c r).
Proof.
  intros Hl Hr H1 H2. unfold mk_node. cbn [avl].
  rewrite !node_height_eq by assumption.
  repeat split; try assumption. lia.
Qed.

Lemma mk_node_height (l : NLMAtlasNode) (e : AtlasEntry) (c : Color)
    (r : NLMAtlasNode) :
  tree_height (mk_node l e c r) = S (Nat.max (tree_height l) (tree_height r)).
Proof. reflexivity. Qed.

Lemma mk_node_size (l : NLMAtlasNode) (e : AtlasEntry) (c : Color)
    (r : NLMAtlasNode) :
  tree_size (mk_node l e c r) = S (tree_size l + tree_size r).
Proof. reflexivity. Qed.

Lemma rotate_right_mk (a : NLMAtlasNode) (x : AtlasEntry) (h : Z) (cx : Color)
    (b : NLMAtlasNode) (y : AtlasEntry) (cy : Color) (c : NLMAtlasNode) :
  rotate_right (mk_node (AtlasNode a x h cx b) y cy c)
  = mk_node a x cx (mk_node b y cy c).
Proof. reflexivity. Qed.

Lemma rotate_left_mk (a : NLMAtlasNode) (x : AtlasEntry) (cx : Color)
    (b : NLMAtlasNode) (y : AtlasEntry) (h : Z) (cy : Color) (c : NLMAtlasNode) :
  rotate_left (mk_node a x cx (AtlasNode b y h cy c))
  = mk_node (mk_node a x cx b) y cy c.
Proof. reflexivity. Qed.

Lemma rotate_right_mk_mk (a : NLMAtlasNode) (x : AtlasEntry) (cx : Color)
    (b : NLMAtlasNode) (y : AtlasEntry) (cy : Color) (c : NLMAtlasNode) :
  rotate_right (mk_node (mk_node a x cx b) y cy c)
  = mk_node a x cx (mk_node b y cy c).
Proof. reflexivity. Qed.

Lemma rotate_left_mk_mk (a : NLMAtlasNode) (x : AtlasEntry) (cx : Color)
    (b : NLMAtlasNode) (y : AtlasEntry) (cy : Color) (c : NLMAtlasNode) :
  rotate_left (mk_node a x cx (mk_node b y cy c))
  = mk_node (mk_node a x cx b) y cy c.
Proof. reflexivity. Qed.

(** Rebalancing two balanced subtrees whose heights differ by at most two
    gives a balanced tree on the same nodes; it is one taller than the
    taller subtree, or exactly as tall when a rotation was due. *)
Lemma avl_rebalance_spec (l : NLMAtlasNode) (e : AtlasEntry) (c : Color)
    (r : NLMAtlasNode) :
  avl l -> avl r ->
  (tree_height l <= tree_height r + 2)%nat ->
  (tree_height r <= tree_height l + 2)%nat ->
  let t := avl_rebalance l e c r in
  let m := Nat.max (tree_height l) (tree_height r) in
  avl t
  /\ tree_size t = S (tree_size l + tree_size r)
  /\ (m <= tree_height t <= S m)%nat
  /\ ((tree_height l <= S (tree_height r))%nat ->
      (tree_height r <= S (tree_height l))%nat ->
      tree_height t = S m).
Proof.
  intros Hl Hr H1 H2. cbv zeta. unfold avl_rebalance.
  rewrite (node_height_eq l Hl), (node_height_eq r Hr).
  destruct (Z.ltb_spec 1 (Z.of_nat (tree_height l) - Z.of_nat (tree_height r)))
    as [Heavy|NotLeft].
  - destruct l as [|ll le hl cl lr]; [cbn in Heavy; lia|].
    destruct Hl as (Hll & Hlr & B1 & B2 & ->).
    cbn [tree_height] in *. unfold balance_factor.
    rewrite (node_height_eq ll Hll), (node_height_eq lr Hlr).
    destruct (Z.ltb_spec (Z.of_nat (tree_height ll) - Z.of_nat (tree_height lr)) 0)
      as [Inner|Outer].
    + destruct lr as [|lrl lre hlr clr lrr]; [cbn in Inner; lia|].
      destruct Hlr as (Hlrl & Hlrr & B3 & B4 & ->).
      cbn [tree_height] in *.
      change (rotate_left (AtlasNode ll le ?h cl (AtlasNode lrl lre ?h' clr lrr)))
        with (mk_node (mk_node ll le cl lrl) lre clr lrr).
      rewrite rotate_right_mk_mk.
      rewrite !mk_node_height, !mk_node_size. cbn [tree_size].
      split; [|split; [lia|split; [lia|intros; lia]]].
      apply mk_node_avl; rewrite ?mk_node_height;
        try (apply mk_node_avl; try assumption; lia); lia.
    + rewrite rotate_right_mk.
      rewrite !mk_node_height, !mk_node_size. cbn [tree_size].
      split; [|split; [lia|split; [lia|intros; lia]]].
      apply mk_node_avl; rewrite ?mk_node_height;
        try (apply mk_node_avl; try assumption; lia);
        try assumption; lia.
  - destruct (Z.ltb_spec (Z.of_nat (tree_height l) - Z.of_nat (tree_height r)) (-1))
      as [Heavy|NotRight].
    + destruct r as [|rl re hr cr rr]; [cbn in Heavy; lia|].
      destruct Hr as (Hrl & Hrr & B1 & B2 & ->).
      cbn [tree_height] in *. unfold balance_factor.
      rewrite (node_height_eq rl Hrl), (node_height_eq rr Hrr).
      destruct (Z.ltb_spec 0 (Z.of_nat (tree_height rl) - Z.of_nat (tree_height rr)))
        as [Inner|Outer].
      * destruct rl as [|rll rle hrl crl rlr]; [cbn in Inner; lia|].
        destruct Hrl as (Hrll & Hrlr & B3 & B4 & ->).
        cbn [tree_height] in *.
        change (rotate_right (AtlasNode (AtlasNode rll rle ?h crl rlr) re ?h' cr rr))
          with (mk_node rll rle crl (mk_node rlr re cr rr)).
        rewrite rotate_left_mk_mk.
        rewrite !mk_node_height, !mk_node_size. cbn [tree_size].
        split; [|split; [lia|split; [lia|intros; lia]]].
        apply mk_node_avl; rewrite ?mk_node_height;
          try (apply mk_node_avl; try assumption; lia); lia.
      * rewrite rotate_left_mk.
        rewrite !mk_node_height, !mk_node_size. cbn [tree_size].
        split; [|split; [lia|split; [lia|intros; lia]]].
        apply mk_node_avl; rewrite ?mk_node_height;
          try (apply mk_node_avl; try assumption; lia);
          try assumption; lia.
    + rewrite mk_node_height, mk_node_size.
      split; [apply mk_node_avl; try assumption; lia|].
      split; [reflexivity|]. split; [lia|]. intros; lia.
Qed.

(** Strict-mode insertion keeps the tree height-balanced, adds at most one
    node and at most one level. *)
Lemma avl_insert_spec (x : AtlasEntry) (t : NLMAtlasNode) :
  avl t ->
  avl (avl_insert x t)
  /\ (tree_height t <= tree_height (avl_insert x t) <= S (tree_height t))%nat
  /\ (tree_size (avl_insert x t) <= S (tree_size t))%nat.
Proof.
  induction t as [|l IHl e h c r IHr]; intros Ht.
  - cbn. repeat split; lia.
  - destruct Ht as (Hl & Hr & B1 & B2 & Hh).
    cbn [avl_insert]. destruct (key_compare x e).
    + cbn. repeat split; try assumption; lia.
    + destruct (IHl Hl) as (Hl' & Hh' & Hs').
      destruct (avl_rebalance_spec (avl_insert x l) e c r Hl' Hr)
        as (A & Sz & Hb & He); [lia|lia|]. cbv zeta in *.
      split; [exact A|]. cbn [tree_height tree_size]. split; [|lia].
      destruct (le_lt_dec (tree_height (avl_insert x l)) (S (tree_height r)));
        [rewrite He by lia|]; lia.
    + destruct (IHr Hr) as (Hr' & Hh' & Hs').
      destruct (avl_rebalance_spec l e c (avl_insert x r) Hl Hr')
        as (A & Sz & Hb & He); [lia|lia|]. cbv zeta in *.
      split; [exact A|]. cbn [tree_height tree_size]. split; [|lia].
      destruct (le_lt_dec (tree_height (avl_insert x r)) (S (tree_height l)));
        [rewrite He by lia|]; lia.
Qed.

Lemma avl_insert_all_spec (entries : list AtlasEntry) :
  avl (avl_insert_all entries)
  /\ (tree_size (avl_insert_all entries) <= length entries)%nat.
Proof.
  unfold avl_insert_all.
  assert (G : forall t, avl t ->
            avl (fold_left (fun t x => avl_insert x t) entries t)
            /\ (tree_size (fold_left (fun t x => avl_insert x t) entries t)
                <= tree_size t + length entries)%nat).
  { induction entries as [|x entries IH]; intros t Ht; cbn [fold_left length].
    - split; [exact Ht|lia].
    - destruct (avl_insert_spec x t Ht) as (A & _ & Sz).
      destruct (IH _ A) as (A' & S'). split; [exact A'|lia]. }
  apply (G NullNode I).
Qed.

Lemma fib_step (n : nat) : fib (S (S n)) = (fib (S n) + fib n)%nat.
Proof. reflexivity. Qed.

Lemma fib_mono (n m : nat) : (n <= m)%nat -> (fib n <= fib m)%nat.
Proof.
  induction 1 as [|m _ IH]; [lia|].
  destruct m as [|m]; [cbn in *; lia|]. rewrite fib_step. lia.
Qed.

(** A height-balanced tree of height [h] has at least [fib (h + 2) - 1]
    nodes. *)
Lemma avl_fib (t : NLMAtlasNode) :
  avl t -> (fib (tree_height t + 2) <= tree_size t + 1)%nat.
Proof.
  induction t as [|l IHl e h c r IHr]; [cbn; lia|].
  intros (Hl & Hr & B1 & B2 & _). specialize (IHl Hl). specialize (IHr Hr).
  cbn [tree_height tree_size].
  replace (S (Nat.max (tree_height l) (tree_height r)) + 2)%nat
    with (S (S (S (Nat.max (tree_height l) (tree_height r))))) by lia.
  rewrite fib_step.
  destruct (le_lt_dec (tree_height r) (tree_height l)) as [L|L].
  - rewrite Nat.max_l by lia.
    pose proof (fib_mono (S (tree_height l)) (tree_height r + 2) ltac:(lia)).
    replace (S (S (tree_height l))) with (tree_height l + 2)%nat by lia. lia.
  - rewrite Nat.max_r by lia.
    pose proof (fib_mono (S (tree_height r)) (tree_height l + 2) ltac:(lia)).
    replace (S (S (tree_height r))) with (tree_height r + 2)%nat by lia. lia.
Qed.

(** Fibonacci numbers grow at least like powers of 647/400 = 1.6175. *)
Lemma fib_growth (h : nat) :
  647 ^ Z.of_nat h <= 400 ^ Z.of_nat h * Z.of_nat (fib (h + 2)).
Proof.
  assert (G : 647 ^ Z.of_nat h <= 400 ^ Z.of_nat h * Z.of_nat (fib (h + 2))
              /\ 647 ^ Z.of_nat (S h)
                 <= 400 ^ Z.of_nat (S h) * Z.of_nat (fib (S h + 2)));
    [|exact (proj1 G)].
  induction h as [|h [IH1 IH2]].
  - cbn. lia.
  - split; [exact IH2|].
    replace (S (S h) + 2)%nat with (S (S (S h + 1))) by lia.
    rewrite fib_step.
    replace (S (S h + 1)) with (S h + 2)%nat by lia.
    replace (S h + 1)%nat with (h + 2)%nat by lia.
    rewrite !Nat2Z.inj_succ, !Z.pow_succ_r in * by lia.
    rewrite Nat2Z.inj_add. nia.
Qed.

Lemma ceilR_ge (x : R) : (x <= IZR (ceilR x))%R.
Proof.
  unfold ceilR. rewrite minus_IZR.
  destruct (archimed (- x)) as [_ H]. lra.
Qed.

Lemma ln_le_compat (x y : R) : (0 < x)%R -> (x <= y)%R -> (ln x <= ln y)%R.
Proof.
  intros Hx [H| ->]; [|lra]. left. apply ln_increasing; assumption.
Qed.

(** [2^1000 <= 1.6175^1442], that is [1 / log2 1.6175 <= 1.442]. *)
Lemma growth_rate : (1000 * ln 2 <= 1442 * ln (647 / 400))%R.
Proof.
  assert (Z : 2 ^ 1000 * 400 ^ 1442 <= 647 ^ 1442) by (vm_compute; discriminate).
  apply IZR_le in Z. rewrite mult_IZR in Z.
  change 1000 with (Z.of_nat 1000) in Z at 1.
  change 1442 with (Z.of_nat 1442) in Z.
  rewrite <- !pow_IZR in Z.
  assert (P : (2 ^ 1000 <= (647 / 400) ^ 1442)%R).
  { unfold Rdiv. rewrite Rpow_mult_distr, pow_inv.
    apply Rmult_le_reg_r with (400 ^ 1442)%R; [apply pow_lt; lra|].
    rewrite Rmult_assoc, Rinv_l, Rmult_1_r; [exact Z|].
    apply pow_nonzero. lra. }
  apply ln_le_compat in P; [|apply pow_lt; lra].
  rewrite !ln_pow in P by lra.
  rewrite !INR_IZR_INZ in P.
  change (Z.of_nat 1000) with 1000 in P. change (Z.of_nat 1442) with 1442 in P.
  exact P.
Qed.

(** A tree with [n] nodes and at least [fib (h + 2) - 1] of them has a
    height [h] of at most [ceil (1.442 * log2 (n + 2))]. *)
Lemma height_log_bound (h n : nat) :
  (fib (h + 2) <= n + 1)%nat ->
  (Z.of_nat h <= ceilR (1.442 * log2R (INR n + 2)))%Z.
Proof.
  intros F.
  pose proof (fib_growth h) as G.
  assert (G' : 647 ^ Z.of_nat h <= 400 ^ Z.of_nat h * Z.of_nat (n + 1)).
  { etransitivity; [exact G|]. apply Z.mul_le_mono_nonneg_l; [|lia].
    apply Z.pow_nonneg. lia. }
  apply IZR_le in G'. rewrite mult_IZR, <- !pow_IZR, <- INR_IZR_INZ in G'.
  assert (P : ((647 / 400) ^ h <= INR (n + 1))%R).
  { unfold Rdiv. rewrite Rpow_mult_distr, pow_inv.
    apply Rmult_le_reg_r with (400 ^ h)%R; [apply pow_lt; lra|].
    rewrite Rmult_assoc, Rinv_l, Rmult_1_r; [lra|].
    apply pow_nonzero. lra. }
  apply ln_le_compat in P; [|apply pow_lt; lra].
  rewrite ln_pow in P by lra.
  assert (N1 : (0 < INR (n + 1))%R) by (apply lt_0_INR; lia).
  assert (L : (ln (INR (n + 1)) < ln (INR n + 2))%R).
  { apply ln_increasing; [exact N1|]. rewrite plus_INR. simpl INR. lra. }
  assert (L2 : (0 < ln 2)%R).
  { rewrite <- ln_1. apply ln_increasing; lra. }
  pose proof growth_rate as R.
  pose proof (pos_INR h) as Hh.
  assert (S1 : (INR h * ln 2 < 1.442 * ln (INR n + 2))%R) by nra.
  assert (S2 : (INR h < 1.442 * log2R (INR n + 2))%R).
  { unfold log2R. apply Rmult_lt_reg_r with (ln 2); [exact L2|].
    replace (1.442 * (ln (INR n + 2) / ln 2) * ln 2)%R
      with (1.442 * ln (INR n + 2))%R by (field; lra).
    exact S1. }
  pose proof (ceilR_ge (1.442 * log2R (INR n + 2))) as C.
  apply le_IZR. rewrite <- INR_IZR_INZ. lra.
Qed.

(** *** Relaxed mode *)

Ltac split_matches :=
  repeat match goal with
         | |- context [match ?x with _ => _ end] => is_var x; destruct x
         end.

Lemma rb_balance_black (c : Color) (l : NLMAtlasNode) (e : AtlasEntry) (h : Z)
    (r : NLMAtlasNode) :
  black_balanced l -> black_balanced r -> black_height l = black_height r ->
  black_balanced (rb_balance c l e h r)
  /\ black_height (rb_balance c l e h r) = black_height (AtlasNode l e h c r).
Proof.
  intros Hl Hr E. destruct c; [cbn; tauto|].
  unfold rb_balance. split_matches; cbn in *; intuition congruence.
Qed.

Lemma no_red_red_weaken (t : NLMAtlasNode) : no_red_red t -> no_red_red_below t.
Proof. destruct t; cbn; tauto. Qed.

Lemma rb_balance_red_left (l : NLMAtlasNode) (e : AtlasEntry) (h : Z)
    (r : NLMAtlasNode) :
  no_red_red_below l -> no_red_red r -> no_red_red (rb_balance BLACK l e h r).
Proof.
  intros Hl Hr. unfold rb_balance.
  split_matches; cbn in *; intuition (discriminate || auto).
Qed.

Lemma rb_balance_red_right (l : NLMAtlasNode) (e : AtlasEntry) (h : Z)
    (r : NLMAtlasNode) :
  no_red_red l -> no_red_red_below r -> no_red_red (rb_balance BLACK l e h r).
Proof.
  intros Hl Hr. unfold rb_balance.
  split_matches; cbn in *; intuition (discriminate || auto).
Qed.

Lemma rb_ins_red (x : AtlasEntry) (t : NLMAtlasNode) :
  no_red_red t ->
  no_red_red_below (rb_ins x t)
  /\ (is_red t = false -> no_red_red (rb_ins x t)).
Proof.
  induction t as [|l IHl e h c r IHr]; intros Ht.
  - cbn. intuition discriminate.
  - destruct Ht as (Hl & Hr & Hc). specialize (IHl Hl). specialize (IHr Hr).
    cbn [rb_ins]. destruct (key_compare x e).
    + cbn. tauto.
    + destruct c.
      * destruct (Hc eq_refl) as [Rl Rr]. cbn. intuition discriminate.
      * assert (N : no_red_red (rb_balance BLACK (rb_ins x l) e h r))
          by (apply rb_balance_red_left; tauto).
        split; [apply no_red_red_weaken|intros _]; exact N.
    + destruct c.
      * destruct (Hc eq_refl) as [Rl Rr]. cbn. intuition discriminate.
      * assert (N : no_red_red (rb_balance BLACK l e h (rb_ins x r)))
          by (apply rb_balance_red_right; tauto).
        split; [apply no_red_red_weaken|intros _]; exact N.
Qed.

Lemma rb_ins_black (x : AtlasEntry) (t : NLMAtlasNode) :
  black_balanced t ->
  black_balanced (rb_ins x t) /\ black_height (rb_ins x t) = black_height t.
Proof.
  induction t as [|l IHl e h c r IHr]; intros Ht.
  - cbn. tauto.
  - destruct Ht as (Hl & Hr & E).
    destruct (IHl Hl) as [Bl El]. destruct (IHr Hr) as [Br Er].
    cbn [rb_ins]. destruct (key_compare x e).
    + cbn. tauto.
    + destruct (rb_balance_black c (rb_ins x l) e h r Bl Hr) as [B H];
        [congruence|].
      split; [exact B|]. rewrite H. destruct c; cbn; congruence.
    + destruct (rb_balance_black c l e h (rb_ins x r) Hl Br) as [B H];
        [congruence|].
      split; [exact B|]. rewrite H. reflexivity.
Qed.

(** Relaxed-mode insertion keeps both colour conditions. *)
Lemma rb_insert_spec (x : AtlasEntry) (t : NLMAtlasNode) :
  no_red_red t -> black_balanced t ->
  no_red_red (rb_insert x t) /\ black_balanced (rb_insert x t).
Proof.
  intros Hr Hb. unfold rb_insert.
  destruct (rb_ins_red x t Hr) as [R _].
  destruct (rb_ins_black x t Hb) as [B _].
  destruct (rb_ins x t) as [|l e h c r]; cbn in *; [tauto|].
  intuition discriminate.
Qed.

Lemma rb_insert_all_spec (entries : list AtlasEntry) :
  no_red_red (rb_insert_all entries) /\ black_balanced (rb_insert_all entries).
Proof.
  unfold rb_insert_all.
  assert (G : forall t, no_red_red t -> black_balanced t ->
            no_red_red (fold_left (fun t x => rb_insert x t) entries t)
            /\ black_balanced (fold_left (fun t x => rb_insert x t) entries t)).
  { induction entries as [|x entries IH]; intros t Hr Hb; cbn [fold_left].
    - tauto.
    - destruct (rb_insert_spec x t Hr Hb) as [Hr' Hb']. apply IH; assumption. }
  apply G; exact I.
Qed.

(** *** From structural invariants to paths *)

Lemma paths_node (l : NLMAtlasNode) (e : AtlasEntry) (h : Z) (c : Color)
    (r : NLMAtlasNode) (p : list Color) :
  p ∈ paths (AtlasNode l e h c r) ->
  exists q, p = c :: q /\ (q ∈ paths l \/ q ∈ paths r).
Proof.
  cbn [paths]. intros H. apply list_elem_of_fmap in H as (q & -> & Hq).
  apply elem_of_app in Hq. eauto.
Qed.

Lemma paths_start (t : NLMAtlasNode) (p : list Color) :
  p ∈ paths t -> is_red t = false -> head p <> Some RED.
Proof.
  destruct t as [|l e h c r]; intros Hp Hred.
  - cbn in Hp. apply list_elem_of_singleton in Hp as ->. discriminate.
  - apply paths_node in Hp as (q & -> & _). destruct c; cbn in *; congruence.
Qed.

Lemma no_red_red_paths (t : NLMAtlasNode) (p : list Color) :
  no_red_red t -> p ∈ paths t -> consecutive_red p = false.
Proof.
  revert p. induction t as [|l IHl e h c r IHr]; intros p Ht Hp.
  - cbn in Hp. apply list_elem_of_singleton in Hp as ->. reflexivity.
  - destruct Ht as (Hl & Hr & Hc).
    apply paths_node in Hp as (q & -> & Hq).
    assert (Q : consecutive_red q = false /\ (c = RED -> head q <> Some RED)).
    { destruct Hq as [Hq|Hq].
      - split; [apply IHl; assumption|].
        intros C. apply (paths_start l); [assumption|]. apply Hc, C.
      - split; [apply IHr; assumption|].
        intros C. apply (paths_start r); [assumption|]. apply Hc, C. }
    destruct Q as [Q1 Q2]. destruct c; [|exact Q1].
    destruct q as [|[|] q]; cbn in *; try assumption.
    destruct (Q2 eq_refl eq_refl).
Qed.

Lemma black_balanced_paths (t : NLMAtlasNode) (p : list Color) :
  black_balanced t -> p ∈ paths t -> black_count p = black_height t.
Proof.
  revert p. induction t as [|l IHl e h c r IHr]; intros p Ht Hp.
  - cbn in Hp. apply list_elem_of_singleton in Hp as ->. reflexivity.
  - destruct Ht as (Hl & Hr & E).
    apply paths_node in Hp as (q & -> & Hq).
    assert (Q : black_count q = black_height l).
    { destruct Hq as [Hq|Hq]; [apply IHl; assumption|].
      rewrite E. apply IHr; assumption. }
    destruct c; cbn; congruence.
Qed.

Lemma subtree_black_balanced (u t : NLMAtlasNode) :
  subtree u t -> black_balanced t -> black_balanced u.
Proof.
  induction 1 as [|l e h c r _ IH|l e h c r _ IH]; [tauto|..];
    intros (Hl & Hr & _); apply IH; assumption.
Qed.

(** C9.  In strict mode the tree built by any sequence of [N] inserts has
    a height of at most [ceil (1.442 * log2 (N + 2))].  In relaxed mode
    the tree built by any sequence of inserts has no two red nodes in a row
    on a path from the root down, and below each of its nodes all paths
    down to the null links carry the same number of black nodes. *)
Theorem C9_discovery_tree_balance (entries : list AtlasEntry) :
  (Z.of_nat (tree_height (avl_insert_all entries))
   <= ceilR (1.442 * log2R (INR (length entries) + 2)))
  /\ (forall p : list Color,
        p ∈ paths (rb_insert_all entries) -> consecutive_red p = false)
  /\ (forall (u : NLMAtlasNode) (p q : list Color),
        subtree u (rb_insert_all entries) ->
        p ∈ paths u -> q ∈ paths u -> black_count p = black_count q).
Proof.
  destruct (avl_insert_all_spec entries) as [A S].
  destruct (rb_insert_all_spec entries) as [R B].
  split; [|split].
  - apply height_log_bound. pose proof (avl_fib _ A). lia.
  - intros p Hp. eapply no_red_red_paths; eassumption.
  - intros u p q Hu Hp Hq.
    pose proof (subtree_black_balanced u _ Hu B) as Bu.
    rewrite (black_balanced_paths u p Bu Hp), (black_balanced_paths u q Bu Hq).
    reflexivity.
Qed.

(** * Further properties of [nlm_core.c] *)

(** ** Loops *)

Section ForLoopInvariant.
Context {St : Type}.
Variable cond : Z -> bool.
Variable next : Z -> Z.
Variable body : Z -> St -> outcome St.
Variable Inv : Z -> St -> Prop.

Hypothesis body_keeps :
  forall i s s', cond i = true -> Inv i s -> body i s = Returns s' ->
                 Inv (next i) s'.

(** Whatever a loop returns satisfies what its body keeps, and the loop
    condition has become false. *)
Lemma for_loop_invariant (fuel : nat) (i : Z) (s r : St) :
  Inv i s -> for_loop cond next body fuel i s = Returns r ->
  exists i', Inv i' r /\ cond i' = false.
Proof.
  revert i s. induction fuel as [|fuel IH]; intros i s HI E; cbn [for_loop] in E.
  - destruct (cond i) eqn:C; [discriminate|]. injection E as <-. eauto.
  - destruct (cond i) eqn:C; [|injection E as <-; eauto].
    destruct (body i s) as [s'| |] eqn:B; cbn [obind] in E; try discriminate.
    eapply IH; [|exact E]. eapply body_keeps; eassumption.
Qed.
End ForLoopInvariant.

Section SteppingLoop.
Context {St : Type}.
Variable hi : Z.
Variable stride : Z.
Variable body : Z -> St -> outcome St.
Variable Inv : Z -> St -> Prop.

Hypothesis stride_pos : 0 < stride.
Hypothesis hi_u32 : hi + stride <= 4294967296.
Variable lo : Z.
Hypothesis lo_nonneg : 0 <= lo.
Hypothesis body_preserves :
  forall i s, lo <= i < hi -> Inv i s ->
              exists s', body i s = Returns s' /\ Inv (i + stride) s'.

(** A loop [for (i = lo; i < hi; i += stride)] whose body keeps an
    invariant returns once it has [hi - lo] units of fuel. *)
Lemma stepping_loop_returns (fuel : nat) (i : Z) (s : St) :
  lo <= i -> hi - i <= Z.of_nat fuel -> Inv i s ->
  exists s' i',
    for_loop (fun i => i <? hi) (fun i => u32 (i + stride)) body fuel i s
    = Returns s'
    /\ Inv i' s' /\ hi <= i' /\ i <= i'.
Proof.
  revert i s. induction fuel as [|fuel IH]; intros i s Hlo Hfuel HI.
  - cbn. destruct (Z.ltb_spec i hi); [lia|].
    exists s, i. repeat split; auto; lia.
  - cbn. destruct (Z.ltb_spec i hi).
    + destruct (body_preserves i s) as (s1 & E & HI1); [lia|assumption|].
      rewrite E. cbn.
      replace (u32 (i + stride)) with (i + stride)
        by (unfold u32; rewrite Z.mod_small; lia).
      destruct (IH (i + stride) s1) as (s' & i' & E' & HI' & Hhi & Hle);
        [lia|lia|assumption|].
      exists s', i'. repeat split; auto; lia.
    + exists s, i. repeat split; auto; lia.
Qed.
End SteppingLoop.

(** A fold that returns has run its body on every element. *)
Lemma ofold_returns_inv {A B : Type} (f : B -> A -> outcome B) (l : list A)
    (b r : B) (a : A) :
  ofold f l b = Returns r -> a ∈ l -> exists b0 b1, f b0 a = Returns b1.
Proof.
  revert b. induction l as [|x l IH]; intros b E Ha.
  - inversion Ha.
  - cbn [ofold] in E. destruct (f b x) as [b'| |] eqn:F; cbn [obind] in E;
      try discriminate.
    apply elem_of_cons in Ha as [->|Ha]; [eauto|]. eapply IH; eassumption.
Qed.

Lemma rd_returns_inv (audio : list float) (i : Z) (x : float) :
  rd audio i = Returns x -> 0 <= i < Z.of_nat (length audio).
Proof.
  unfold rd. destruct (Z.ltb_spec i 0); [discriminate|].
  destruct (audio !! Z.to_nat i) eqn:E; [|discriminate].
  intros _. apply lookup_lt_Some in E. lia.
Qed.

Lemma wr_returns_inv (audio : list float) (i : Z) (v : float) (out : list float) :
  wr audio i v = Returns out ->
  0 <= i < Z.of_nat (length audio) /\ out = <[Z.to_nat i := v]> audio.
Proof.
  unfold wr. destruct (Z.ltb_spec i 0); [discriminate|].
  destruct (audio !! Z.to_nat i) eqn:E; [|discriminate].
  intros [= <-]. apply lookup_lt_Some in E. split; [lia|reflexivity].
Qed.

(** ** Speech variation detection, continued *)

Lemma repetition_body_returns (audio : list float) (i : Z) (score : float) :
  window_size <= i ->
  i + window_size <= Z.of_nat (length audio) ->
  i + window_size <= 4294967296 ->
  exists score', repetition_body audio i score = Returns score'.
Proof.
  unfold window_size. intros H1 H2 H3. unfold repetition_body, window_size.
  destruct (ofold_returns
              (fun correlation j =>
                 do a <- rd audio (u32 (i + j));
                 do b <- rd audio (u32 (u32 (i - 1024) + j));
                 Returns (correlation + a * b)%f32)
              (seqZ 0 1024) F32.zero) as [c ->]; [|cbn; eauto].
  intros j c Hj. apply elem_of_seqZ in Hj.
  replace (u32 (i + j)) with (i + j)
    by (unfold u32; rewrite Z.mod_small; lia).
  replace (u32 (i - 1024)) with (i - 1024)
    by (unfold u32; rewrite Z.mod_small; lia).
  replace (u32 (i - 1024 + j)) with (i - 1024 + j)
    by (unfold u32; rewrite Z.mod_small; lia).
  destruct (rd_in_bounds audio (i + j)) as (a & _ & ->); [lia|].
  destruct (rd_in_bounds audio (i - 1024 + j)) as (b & _ & ->); [lia|].
  cbn. eauto.
Qed.

(** X1.  On a buffer of at least one window (1024 samples) the detector
    reads only inside the buffer and returns 0 with a score. *)
Theorem detect_returns_from_one_window
    (fuel : nat) (audio : list float) (acc : PhoneticAccessibility) (v : float) :
  window_size <= Z.of_nat (length audio) < 4294967296 ->
  (length audio <= fuel)%nat ->
  exists acc' score,
    obivox_detect_speech_variations fuel (Some audio) (Z.of_nat (length audio))
      (Some acc) (Some v) = Returns (0, Some acc', Some score).
Proof.
  unfold window_size. intros Hn Hfuel. unfold obivox_detect_speech_variations.
  destruct (zcr_loop_returns fuel audio) as (zcr & ->); [lia|lia|].
  cbn [obind].
  assert (Hb : u32 (Z.of_nat (length audio) - window_size)
               = Z.of_nat (length audio) - 1024)
    by (unfold u32, window_size; rewrite Z.mod_small; lia).
  rewrite Hb.
  assert (L : exists rep i',
            for_loop (fun i => i <? Z.of_nat (length audio) - 1024)
              (fun i => u32 (i + window_size / 2)) (repetition_body audio)
              fuel window_size F32.zero = Returns rep
            /\ True /\ Z.of_nat (length audio) - 1024 <= i' /\ window_size <= i').
  { apply (stepping_loop_returns (Z.of_nat (length audio) - 1024)
             (window_size / 2) (repetition_body audio) (fun _ _ => True))
      with (lo := window_size); unfold window_size;
      try (change (1024 / 2) with 512); try lia; try exact I.
    intros i s Hi _.
    destruct (repetition_body_returns audio i s) as [s' E];
      unfold window_size; try lia. eauto. }
  destruct L as (rep & i' & -> & _). cbn [obind]. eauto.
Qed.

Lemma detect_returns_from_one_window_witness :
  exists acc' score,
    obivox_detect_speech_variations 1025 (Some spike_buffer) 1025
      (Some stutter_only_profile) (Some F32.zero)
    = Returns (0, Some acc', Some score).
Proof.
  apply (detect_returns_from_one_window 1025 spike_buffer).
  - vm_compute. split; [discriminate|reflexivity].
  - apply Nat.leb_le. vm_compute. reflexivity.
Defined.

(** X2.  Between one and two windows (1024 to 2048 samples) the repetition
    loop does not run at all: whatever the audio, the detector leaves the
    stutter flag as it was and the repetition term of the score is the
    product [0 * 0.1]. *)
Theorem detect_no_window_pair
    (fuel : nat) (audio : list float) (acc : PhoneticAccessibility) (v : float) :
  window_size <= Z.of_nat (length audio) <= 2 * window_size ->
  (length audio <= fuel)%nat ->
  exists zcr acc',
    for_loop (fun i => i <? Z.of_nat (length audio)) (fun i => u32 (i + 1))
             (zcr_body audio) fuel 1 F32.zero = Returns zcr
    /\ obivox_detect_speech_variations fuel (Some audio)
         (Z.of_nat (length audio)) (Some acc) (Some v)
       = Returns (0, Some acc',
                  Some ((zcr / F32.of_Z (Z.of_nat (length audio))) * f0_3
                        + F32.zero * f0_1
                        + variation_tolerance acc * f0_6)%f32)
    /\ stutter_detection acc' = stutter_detection acc.
Proof.
  unfold window_size. intros Hn Hfuel.
  destruct (zcr_loop_returns fuel audio) as (zcr & Ez); [lia|lia|].
  unfold obivox_detect_speech_variations. rewrite Ez. cbn [obind].
  assert (Hb : u32 (Z.of_nat (length audio) - window_size)
               = Z.of_nat (length audio) - 1024)
    by (unfold u32, window_size; rewrite Z.mod_small; lia).
  assert (Er : for_loop (fun i => i <? u32 (Z.of_nat (length audio) - window_size))
                 (fun i => u32 (i + window_size / 2)) (repetition_body audio)
                 fuel window_size F32.zero = Returns F32.zero).
  { rewrite Hb. unfold window_size.
    destruct fuel; cbn [for_loop];
      (destruct (Z.ltb_spec 1024 (Z.of_nat (length audio) - 1024)); [lia|]);
      reflexivity. }
  rewrite Er. cbn [obind].
  change (F32.gtb F32.zero f3_0) with false. cbv iota.
  exists zcr. eexists. split; [reflexivity|]. split.
  - f_equal. f_equal. f_equal.
    destruct (F32.gtb (zcr / F32.of_Z (Z.of_nat (length audio)))%f32 f0_4);
      reflexivity.
  - destruct (F32.gtb (zcr / F32.of_Z (Z.of_nat (length audio)))%f32 f0_4);
      match goal with |- context [if ?c then _ else _] => destruct c end;
      reflexivity.
Qed.

Lemma detect_no_window_pair_witness :
  exists zcr acc',
    for_loop (fun i => i <? 1025) (fun i => u32 (i + 1))
             (zcr_body spike_buffer) 1025 1 F32.zero = Returns zcr
    /\ obivox_detect_speech_variations 1025 (Some spike_buffer) 1025
         (Some stutter_only_profile) (Some F32.zero)
       = Returns (0, Some acc',
                  Some ((zcr / F32.of_Z 1025) * f0_3 + F32.zero * f0_1
                        + variation_tolerance stutter_only_profile * f0_6)%f32)
    /\ stutter_detection acc' = stutter_detection stutter_only_profile.
Proof.
  apply (detect_no_window_pair 1025 spike_buffer stutter_only_profile F32.zero).
  - vm_compute. split; discriminate.
  - apply Nat.leb_le. vm_compute. reflexivity.
Defined.

(** X3.  Whenever the detector returns, it has left the tolerance, the
    dialect markers and the two integrity scores of the profile alone, and
    it has cleared the accent-normalisation flag or left it: it never
    switches accent normalisation on. *)
Theorem detect_profile_frame :
  forall (fuel : nat) (audio : option (list float)) (n : Z)
         (acc : PhoneticAccessibility) (v : option float)
         (code : Z) (acc' : PhoneticAccessibility) (v' : option float),
    obivox_detect_speech_variations fuel audio n (Some acc) v
    = Returns (code, Some acc', v') ->
    variation_tolerance acc' = variation_tolerance acc
    /\ dialect_markers acc' = dialect_markers acc
    /\ dialect_count acc' = dialect_count acc
    /\ phenomenological_integrity acc' = phenomenological_integrity acc
    /\ experiential_authenticity acc' = experiential_authenticity acc
    /\ (accent_normalization acc' = accent_normalization acc
        \/ accent_normalization acc' = false).
Proof.
  intros fuel audio n acc v code acc' v'. unfold obivox_detect_speech_variations.
  destruct audio as [au|]; [|intros [= _ <- _]; repeat split; auto].
  destruct v as [v|]; [|intros [= _ <- _]; repeat split; auto].
  destruct (for_loop _ _ (zcr_body au) fuel 1 F32.zero) as [zcr| |];
    cbn [obind]; try discriminate.
  destruct (for_loop _ _ (repetition_body au) fuel window_size F32.zero)
    as [rep| |]; cbn [obind]; try discriminate.
  intros [= _ <- _].
  destruct (F32.gtb (zcr / F32.of_Z n)%f32 f0_4);
    destruct (F32.gtb rep f3_0);
    match goal with |- context [if ?c then _ else _] => destruct c end;
    cbn; repeat split; auto.
Qed.

Lemma detect_profile_frame_witness :
  exists code acc' v',
    obivox_detect_speech_variations 1025 (Some spike_buffer) 1025
      (Some stutter_only_profile) (Some F32.zero)
    = Returns (code, Some acc', v')
    /\ variation_tolerance acc' = variation_tolerance stutter_only_profile.
Proof.
  assert (E : exists code acc' v',
            obivox_detect_speech_variations 1025 (Some spike_buffer) 1025
              (Some stutter_only_profile) (Some F32.zero)
            = Returns (code, Some acc', v')) by (vm_compute; eauto).
  destruct E as (code & acc' & v' & E). exists code, acc', v'.
  split; [exact E|]. apply (detect_profile_frame _ _ _ _ _ _ _ _ E).
Defined.

(** ** Phonetic normalisation, continued *)

Lemma u32_bound (z : Z) : 0 <= u32 z < 4294967296.
Proof. unfold u32. apply Z.mod_pos_bound. lia. Qed.

Lemma lisp_body_inv (pf : float) (i : Z) (s s' : list float) :
  lisp_body pf i s = Returns s' ->
  length s' = length s /\ s' !! 0%nat = s !! 0%nat.
Proof.
  unfold lisp_body. destruct (Z.ltb_spec 0 i); [|intros [= <-]; auto].
  destruct (rd s i) as [a| |]; cbn [obind]; try discriminate.
  destruct (rd s (i - 1)) as [b| |]; cbn [obind]; try discriminate.
  intros E. apply wr_returns_inv in E as [Hi ->].
  rewrite length_insert, list_lookup_insert_ne by lia. auto.
Qed.

Lemma stutter_body_inv (pf : float) (i : Z) (s s' : list float) :
  0 < i -> stutter_body pf i s = Returns s' ->
  length s' = length s /\ s' !! 0%nat = s !! 0%nat.
Proof.
  intros Hi. unfold stutter_body.
  destruct (window_sum s i) as [avg| |]; cbn [obind]; try discriminate.
  destruct (rd s i) as [a| |]; cbn [obind]; try discriminate.
  intros E. apply wr_returns_inv in E as [_ ->].
  rewrite length_insert, list_lookup_insert_ne by lia. auto.
Qed.

Lemma lisp_pass_inv (fuel : nat) (n : Z) (pf : float) (s s' : list float) :
  lisp_pass fuel n pf s = Returns s' ->
  length s' = length s /\ s' !! 0%nat = s !! 0%nat.
Proof.
  unfold lisp_pass. intros E.
  destruct (for_loop_invariant (fun i => i <? n) (fun i => u32 (i + 1))
              (lisp_body pf)
              (fun _ t => length t = length s /\ t !! 0%nat = s !! 0%nat))
    with (fuel := fuel) (i := 0) (s := s) (r := s') as (i' & H & _); auto.
  intros i t t' _ [L Z] B. apply lisp_body_inv in B as [L' Z']. split; congruence.
Qed.

Lemma stutter_pass_inv (fuel : nat) (n : Z) (pf : float) (s s' : list float) :
  stutter_pass fuel n pf s = Returns s' ->
  length s' = length s /\ s' !! 0%nat = s !! 0%nat.
Proof.
  unfold stutter_pass. intros E.
  destruct (for_loop_invariant (fun i => i <? u32 (n - smooth_window))
              (fun i => u32 (i + 1)) (stutter_body pf)
              (fun i t => 0 < i /\ length t = length s
                          /\ t !! 0%nat = s !! 0%nat))
    with (fuel := fuel) (i := smooth_window) (s := s) (r := s')
    as (i' & (_ & H) & _); auto; [|unfold smooth_window; repeat split; lia].
  intros i t t' C (Hi & L & Z) B.
  apply stutter_body_inv in B as [L' Z']; [|exact Hi].
  apply Z.ltb_lt in C. pose proof (u32_bound (n - smooth_window)).
  replace (u32 (i + 1)) with (i + 1) by (unfold u32; rewrite Z.mod_small; lia).
  repeat split; [lia|congruence|congruence].
Qed.

(** X4.  Whenever the normaliser returns, the buffer has the length it had
    and its first sample is the one it had: neither pass ever writes
    [audio[0]] or resizes the buffer, whatever the flags, the factor and
    the sample count. *)
Theorem normalization_keeps_length_and_first_sample :
  forall (fuel : nat) (audio : list float) (n : Z)
         (acc : PhoneticAccessibility) (pf : float) (code : Z)
         (out : list float),
    obivox_apply_phonetic_normalization fuel (Some audio) n (Some acc) pf
    = Returns (code, Some out) ->
    code = 0 /\ length out = length audio /\ out !! 0%nat = audio !! 0%nat.
Proof.
  intros fuel audio n acc pf code out.
  unfold obivox_apply_phonetic_normalization.
  assert (M : forall m,
            (if lisp_mitigation acc && (pf <? f1_0)%f32
             then lisp_pass fuel n pf audio else Returns audio) = m ->
            match m with
            | Returns mid => length mid = length audio
                             /\ mid !! 0%nat = audio !! 0%nat
            | _ => True
            end).
  { intros m <-. destruct (_ && _).
    - destruct (lisp_pass fuel n pf audio) eqn:E; [|exact I..].
      apply lisp_pass_inv in E. exact E.
    - auto. }
  specialize (M _ eq_refl).
  destruct (if lisp_mitigation acc && (pf <? f1_0)%f32
            then lisp_pass fuel n pf audio else Returns audio)
    as [mid| |]; cbn [obind]; try discriminate.
  destruct M as [L Z].
  destruct (stutter_detection acc && (pf <? f1_0)%f32).
  - destruct (stutter_pass fuel n pf mid) as [o| |] eqn:E; cbn [obind];
      try discriminate.
    intros [= <- <-]. apply stutter_pass_inv in E as [L' Z'].
    repeat split; congruence.
  - cbn [obind]. intros [= <- <-]. auto.
Qed.

Lemma normalization_keeps_length_and_first_sample_witness :
  exists code out,
    obivox_apply_phonetic_normalization 1025 (Some spike_buffer) 1025
      (Some stutter_only_profile) f0_7 = Returns (code, Some out)
    /\ length out = length spike_buffer.
Proof.
  assert (E : exists code out,
            obivox_apply_phonetic_normalization 1025 (Some spike_buffer) 1025
              (Some stutter_only_profile) f0_7 = Returns (code, Some out))
    by (vm_compute; eauto).
  destruct E as (code & out & E). exists code, out. split; [exact E|].
  apply (normalization_keeps_length_and_first_sample _ _ _ _ _ _ _ E).
Defined.

Lemma stutter_pass_idle (fuel : nat) (n : Z) (pf : float) (s : list float) :
  smooth_window <= n <= 2 * smooth_window ->
  stutter_pass fuel n pf s = Returns s.
Proof.
  unfold smooth_window. intros Hn. unfold stutter_pass, smooth_window.
  replace (u32 (n - 512)) with (n - 512)
    by (unfold u32; rewrite Z.mod_small; lia).
  destruct fuel; cbn [for_loop];
    (destruct (Z.ltb_spec 512 (n - 512)); [lia|]); reflexivity.
Qed.

(** X5.  For a sample count from 512 to 1024 the smoothing loop has no
    iteration: the stutter flag makes no difference to what the normaliser
    does, whatever the buffer and the factor. *)
Theorem normalization_ignores_stutter_flag_on_short_buffers
    (fuel : nat) (audio : list float) (n : Z) (acc : PhoneticAccessibility)
    (pf : float) :
  smooth_window <= n <= 2 * smooth_window ->
  obivox_apply_phonetic_normalization fuel (Some audio) n (Some acc) pf
  = obivox_apply_phonetic_normalization fuel (Some audio) n
      (Some (acc |> set_stutter_detection false)) pf.
Proof.
  intros Hn. unfold obivox_apply_phonetic_normalization.
  cbn [set_stutter_detection lisp_mitigation stutter_detection andb].
  destruct (if lisp_mitigation acc && (pf <? f1_0)%f32
            then lisp_pass fuel n pf audio else Returns audio)
    as [mid| |]; cbn [obind]; try reflexivity.
  destruct (stutter_detection acc && (pf <? f1_0)%f32); [|reflexivity].
  rewrite stutter_pass_idle by exact Hn. reflexivity.
Qed.

Lemma normalization_ignores_stutter_flag_on_short_buffers_witness :
  obivox_apply_phonetic_normalization 600 (Some short_buffer) 600
    (Some stutter_only_profile) f0_7
  = obivox_apply_phonetic_normalization 600 (Some short_buffer) 600
      (Some (stutter_only_profile |> set_stutter_detection false)) f0_7.
Proof.
  apply normalization_ignores_stutter_flag_on_short_buffers.
  vm_compute. split; discriminate.
Defined.

Lemma window_sum_returns_inv (s : list float) (i : Z) (avg : float) :
  0 <= i -> i + smooth_window / 2 < 4294967296 ->
  window_sum s i = Returns avg ->
  i + smooth_window / 2 < Z.of_nat (length s).
Proof.
  unfold window_sum, smooth_window. change (512 / 2) with 256. intros H0 H1 E.
  destruct (ofold_returns_inv _ _ _ _ 256 E) as (b0 & b1 & R).
  { apply elem_of_seqZ. lia. }
  destruct (rd s (u32 (i + 256))) as [x| |] eqn:Rd; cbn [obind] in R;
    try discriminate.
  apply rd_returns_inv in Rd.
  replace (u32 (i + 256)) with (i + 256) in Rd
    by (unfold u32; rewrite Z.mod_small; lia).
  lia.
Qed.

(** X6.  With the stutter flag set and a factor below 1, a buffer of fewer
    than 512 samples never comes back from the normaliser: the bound
    [num_samples - smooth_window] of the smoothing loop wraps around and
    the first window, at [i = 512], reaches past the end of the buffer. *)
Theorem normalization_short_buffer_never_returns
    (fuel : nat) (audio : list float) (acc : PhoneticAccessibility) (pf : float) :
  Z.of_nat (length audio) < smooth_window ->
  stutter_detection acc = true ->
  F32.ltb pf f1_0 = true ->
  forall r,
    obivox_apply_phonetic_normalization fuel (Some audio)
      (Z.of_nat (length audio)) (Some acc) pf <> Returns r.
Proof.
  unfold smooth_window. intros Hn Hs Hpf r.
  unfold obivox_apply_phonetic_normalization. rewrite Hs, Hpf, andb_true_r.
  cbn [andb].
  destruct (if lisp_mitigation acc
            then lisp_pass fuel (Z.of_nat (length audio)) pf audio
            else Returns audio) as [mid| |] eqn:M; cbn [obind];
    try discriminate.
  assert (L : length mid = length audio).
  { destruct (lisp_mitigation acc); [|congruence].
    apply lisp_pass_inv in M. tauto. }
  assert (S : forall r', stutter_pass fuel (Z.of_nat (length audio)) pf mid
                         <> Returns r').
  { intros r'. unfold stutter_pass.
    assert (C : (smooth_window <? u32 (Z.of_nat (length audio) - smooth_window))
                = true).
    { unfold smooth_window, u32.
      replace (Z.of_nat (length audio) - 512)
        with (Z.of_nat (length audio) - 512 + 4294967296 + (-1) * 4294967296)
        by lia.
      rewrite Z_mod_plus_full, Z.mod_small by lia. apply Z.ltb_lt. lia. }
    destruct fuel as [|fuel]; cbn [for_loop]; rewrite C; [discriminate|].
    unfold stutter_body at 1.
    destruct (window_sum mid smooth_window) as [avg| |] eqn:W; cbn [obind];
      try discriminate.
    apply window_sum_returns_inv in W; unfold smooth_window in *;
      change (512 / 2) with 256 in *; lia. }
  destruct (stutter_pass fuel (Z.of_nat (length audio)) pf mid) as [o| |] eqn:E;
    cbn [obind]; try discriminate.
  destruct (S o eq_refl).
Qed.

Lemma normalization_short_buffer_never_returns_witness :
  ~ exists r,
      obivox_apply_phonetic_normalization 1000 (Some short_buffer) 100
        (Some stutter_only_profile) f0_7 = Returns r.
Proof.
  intros [r E]. revert E.
  apply (normalization_short_buffer_never_returns 1000 short_buffer
           stutter_only_profile f0_7).
  - vm_compute. reflexivity.
  - reflexivity.
  - vm_compute. reflexivity.
Defined.

(** What the fricative pass has established when its counter is [i]. *)
Definition softened_up_to (pf : float) (audio : list float) (i : Z)
    (s : list float) : Prop :=
  length s = length audio
  /\ (forall k : nat, k = 0%nat \/ i <= Z.of_nat k -> s !! k = audio !! k)
  /\ (forall k : nat,
        1 <= Z.of_nat k < i ->
        exists a b,
          audio !! k = Some a /\ s !! (k - 1)%nat = Some b
          /\ s !! k = Some (a - (a - b) * f0_2 * (f1_0 - pf))%f32).

Lemma softened_up_to_step (pf : float) (audio : list float) (i : Z)
    (s : list float) :
  0 <= i < Z.of_nat (length audio) ->
  softened_up_to pf audio i s ->
  exists s', lisp_body pf i s = Returns s'
             /\ softened_up_to pf audio (i + 1) s'.
Proof.
  intros Hi (L & Frame & Done). unfold lisp_body.
  destruct (Z.ltb_spec 0 i).
  - destruct (rd_in_bounds s i) as (a & Ea & ->); [lia|].
    destruct (rd_in_bounds s (i - 1)) as (b & Eb & ->); [lia|]. cbn [obind].
    rewrite wr_in_bounds by lia. eexists. split; [reflexivity|].
    split; [|split].
    + rewrite length_insert. exact L.
    + intros k Hk. rewrite list_lookup_insert_ne by lia. apply Frame. lia.
    + intros k Hk. destruct (decide (k = Z.to_nat i)) as [->|Ne].
      * exists a, b. split; [|split].
        -- rewrite <- Ea. apply eq_sym, Frame. lia.
        -- rewrite list_lookup_insert_ne by lia.
           rewrite <- Eb. f_equal. lia.
        -- apply list_lookup_insert_eq. lia.
      * destruct (Done k) as (a' & b' & A & B & C); [lia|].
        exists a', b'. split; [exact A|].
        rewrite !list_lookup_insert_ne by lia. auto.
  - exists s. split; [reflexivity|]. split; [exact L|]. split.
    + intros k Hk. apply Frame. lia.
    + intros k Hk. lia.
Qed.

(** X7.  With only the lisp flag set and a factor below 1, the normaliser
    returns 0 on every buffer; the first sample stays, and every later
    sample [k] becomes [a - (a - b) * 0.2 * (1 - factor)], where [a] is the
    input sample [k] and [b] is the already softened sample [k - 1]: the
    damping runs on the output, not on the input differences. *)
Theorem normalization_lisp_recurrence
    (fuel : nat) (pf : float) (audio : list float) (acc : PhoneticAccessibility) :
  Z.of_nat (length audio) < 4294967296 ->
  (length audio <= fuel)%nat ->
  lisp_mitigation acc = true ->
  stutter_detection acc = false ->
  F32.ltb pf f1_0 = true ->
  exists out : list float,
    obivox_apply_phonetic_normalization fuel (Some audio)
      (Z.of_nat (length audio)) (Some acc) pf = Returns (0, Some out)
    /\ length out = length audio
    /\ out !! 0%nat = audio !! 0%nat
    /\ (forall k : nat,
          (1 <= k < length audio)%nat ->
          exists a b,
            audio !! k = Some a /\ out !! (k - 1)%nat = Some b
            /\ out !! k = Some (a - (a - b) * f0_2 * (f1_0 - pf))%f32).
Proof.
  intros Hn Hfuel Hl Hs Hpf.
  destruct (counting_loop_returns (Z.of_nat (length audio)) (lisp_body pf)
              (softened_up_to pf audio) Hn 0 (Z.le_refl 0))
    with (fuel := fuel) (i := 0) (s := audio) as (out & E & L & Frame & Done).
  - intros i s Hi HI. apply softened_up_to_step; [lia|exact HI].
  - lia.
  - lia.
  - split; [reflexivity|]. split; [reflexivity|]. intros k Hk. lia.
  - exists out. unfold obivox_apply_phonetic_normalization.
    rewrite Hl, Hs, Hpf. cbn [andb]. fold (lisp_pass fuel (Z.of_nat (length audio)) pf audio) in E.
    rewrite E. cbn [obind]. split; [reflexivity|]. split; [exact L|].
    split; [apply Frame; left; reflexivity|].
    intros k Hk. apply Done. lia.
Qed.

Lemma normalization_lisp_recurrence_witness :
  exists out : list float,
    obivox_apply_phonetic_normalization 1025 (Some spike_buffer) 1025
      (Some lisp_only_profile) f0_7 = Returns (0, Some out)
    /\ length out = length spike_buffer.
Proof.
  destruct (normalization_lisp_recurrence 1025 f0_7 spike_buffer
              lisp_only_profile) as (out & E & L & _).
  - vm_compute. reflexivity.
  - apply Nat.leb_le. vm_compute. reflexivity.
  - reflexivity.
  - reflexivity.
  - vm_compute. reflexivity.
  - exists out. split; [exact E|exact L].
Defined.

(** ** Coordinate mapping, continued *)

Lemma sub_self (x : float) : is_number x = true -> (x - x)%f32 = F32.zero.
Proof.
  destruct x as [s|s| |s m e]; try discriminate; intros _.
  - destruct s; reflexivity.
  - unfold F32.sub, SFsub. cbv zeta. rewrite Z.sub_diag. reflexivity.
Qed.

Lemma nth_replicate_Z (c d : float) (i : Z) :
  0 <= i < 256 -> nth (Z.to_nat i) (replicate 256 c) d = c.
Proof.
  intros H. apply nth_lookup_Some, lookup_replicate_2. lia.
Qed.

(** X9.  A flat pitch contour (256 equal entries, none of them infinite or
    NaN) has pitch variance [+0]: the mapper sets the coherence axis to
    [1 - 2 * tanhf(0)], which is exactly 1.0 when [tanhf(0) = 0]; it
    returns 0 and overwrites all four components whatever they were. *)
Theorem flat_pitch_is_fully_factual
    (tanhf : float -> float) (ft : AudioFeatures) (co : NLMCoordinate)
    (c : float) :
  pitch_contour ft = replicate 256 c ->
  is_number c = true ->
  exists co',
    obivox_map_to_nlm_space tanhf (Some ft) (Some co) = (0, Some co')
    /\ x_axis co' = (f1_0 - f2_0 * tanhf F32.zero)%f32
    /\ (tanhf F32.zero = F32.zero -> x_axis co' = f1_0)
    /\ forall co2,
         obivox_map_to_nlm_space tanhf (Some ft) (Some co2) = (0, Some co').
Proof.
  intros Hp Hc.
  assert (V : fold_left
                (fun pitch_variance i =>
                   let diff := (nth (Z.to_nat i) (pitch_contour ft) F32.zero
                                - nth (Z.to_nat (i - 1)) (pitch_contour ft)
                                      F32.zero)%f32 in
                   (pitch_variance + diff * diff)%f32)
                (seqZ 1 255) F32.zero = F32.zero).
  { rewrite Hp.
    assert (G : forall l : list Z,
              (forall i, i ∈ l -> 1 <= i < 256) ->
              fold_left
                (fun pitch_variance i =>
                   let diff := (nth (Z.to_nat i) (replicate 256 c) F32.zero
                                - nth (Z.to_nat (i - 1)) (replicate 256 c)
                                      F32.zero)%f32 in
                   (pitch_variance + diff * diff)%f32)
                l F32.zero = F32.zero).
    { induction l as [|i l IH]; intros Hl; [reflexivity|].
      cbn [fold_left]. cbv zeta.
      assert (1 <= i < 256) by (apply Hl; left).
      rewrite !nth_replicate_Z by lia. rewrite sub_self by exact Hc.
      change (F32.zero + F32.zero * F32.zero)%f32 with F32.zero.
      apply IH. intros j Hj. apply Hl. right. exact Hj. }
    apply G. intros i Hi. apply elem_of_seqZ in Hi. lia. }
  unfold obivox_map_to_nlm_space. cbv beta zeta. cbv beta zeta in V.
  eexists. split; [reflexivity|]. cbn [set_confidence set_z_axis set_y_axis
                                     set_x_axis x_axis y_axis z_axis confidence].
  rewrite V. change (F32.zero / f256_0)%f32 with F32.zero.
  split; [reflexivity|]. split; [|intros co2; reflexivity].
  intros ->. reflexivity.
Qed.

Lemma flat_pitch_is_fully_factual_witness :
  exists co',
    obivox_map_to_nlm_space (fun x => x) (Some flat_features)
      (Some (current_position initial_system)) = (0, Some co')
    /\ x_axis co' = f1_0.
Proof.
  destruct (flat_pitch_is_fully_factual (fun x => x) flat_features
              (current_position initial_system) f0_5)
    as (co' & E & _ & X & _); [reflexivity|reflexivity|].
  exists co'. split; [exact E|apply X; reflexivity].
Defined.

(** ** Drift handling and feedback, continued *)

(** X11.  Handling the same drift twice is the same as handling it once:
    the second call returns the same system and the same cascade flag.
    The handler only ever writes the tree mode, the threshold and the
    stored drift. *)
Theorem handle_drift_idempotent :
  forall (sys : OBIVoxNLMSystem) (d : float) (b b' : bool),
  exists sys' cascade,
    obivox_handle_drift (Some sys) d (Some b) = (0, Some sys', Some cascade)
    /\ obivox_handle_drift (Some sys') d (Some b') = (0, Some sys', Some cascade)
    /\ current_position sys' = current_position sys
    /\ accessibility sys' = accessibility sys
    /\ service_tree sys' = service_tree sys
    /\ codec_engine sys' = codec_engine sys
    /\ fault_tolerance_enabled sys' = fault_tolerance_enabled sys
    /\ recovery_attempts sys' = recovery_attempts sys.
Proof.
  intros sys d b b'. unfold obivox_handle_drift.
  destruct (F32.ltb (d * f24_0 - f12_0)%f32 fm3_0);
    [|destruct (F32.gtb (d * f24_0 - f12_0)%f32 f3_0)];
    eexists _, _; repeat split.
Qed.

(** One text conversion in the AI-stress band, from any attempt count. *)
Lemma text_cycle_ai_stress (sys : OBIVoxNLMSystem) :
  F32.gtb (drift_magnitude sys) f0_3 = true ->
  drift_zone (drift_magnitude sys) = AI_STRESS ->
  0 <= recovery_attempts sys <= 3 ->
  let sys' := text_conversion_system sys in
  current_tree_mode sys' = TREE_MODE_RB
  /\ coherence_threshold sys' = f0_85
  /\ drift_magnitude sys' = drift_magnitude sys
  /\ recovery_attempts sys' = Z.min 3 (recovery_attempts sys + 1).
Proof.
  intros Hd Hz Hr. cbv zeta.
  destruct (drift_check_ai_stress sys Hd Hz) as (M & T & D & R).
  unfold text_conversion_system.
  cbn [set_codec_engine current_tree_mode coherence_threshold drift_magnitude
       recovery_attempts].
  repeat split; try assumption. rewrite R.
  destruct (Z.ltb_spec (recovery_attempts sys) 3); [|lia].
  unfold u8. rewrite Z.mod_small; lia.
Qed.

(** X12.  In the AI-stress band the attempt counter saturates: after [k]
    conversions in a row it is [min 3 (r + k)] for a start value [r]
    between 0 and 3, the drift stays where it was, and from the first
    conversion on the system sits in the relaxed tree mode with threshold
    0.85, for every [k].  Conversions alone never lower the counter. *)
Theorem attempts_saturate_at_three (k : nat) (sys : OBIVoxNLMSystem) :
  F32.gtb (drift_magnitude sys) f0_3 = true ->
  drift_zone (drift_magnitude sys) = AI_STRESS ->
  0 <= recovery_attempts sys <= 3 ->
  let sys' := Nat.iter k text_conversion_system sys in
  recovery_attempts sys' = Z.min 3 (recovery_attempts sys + Z.of_nat k)
  /\ drift_magnitude sys' = drift_magnitude sys
  /\ ((1 <= k)%nat ->
      current_tree_mode sys' = TREE_MODE_RB /\ coherence_threshold sys' = f0_85).
Proof.
  intros Hd Hz Hr. cbv zeta. induction k as [|k (R & D & _)].
  - cbn [Nat.iter nat_rect]. repeat split; lia.
  - rewrite Nat.iter_succ.
    destruct (text_cycle_ai_stress (Nat.iter k text_conversion_system sys))
      as (M' & T' & D' & R'); [rewrite D; exact Hd|rewrite D; exact Hz|lia|].
    cbv zeta in *. rewrite R', R, D'. repeat split; auto; lia.
Qed.

Lemma attempts_saturate_at_three_witness :
  recovery_attempts (Nat.iter 10 text_conversion_system drifting_system) = 3.
Proof.
  apply (attempts_saturate_at_three 10 drifting_system); vm_compute;
    try reflexivity. split; discriminate.
Defined.

(** X18.  Feedback resets the drift and the attempt counter only: the
    conversion that follows finds no drift to handle, so the tree mode and
    the threshold stay where the last drift cycle left them (a threshold
    lowered to 0.85 stays lowered). *)
Theorem feedback_keeps_mode_and_threshold :
  forall (sys : OBIVoxNLMSystem) (fb : HumanFeedback),
  exists s1,
    obivox_incorporate_feedback (Some sys) (Some fb) = (0, Some s1)
    /\ convert_drift_check s1 = s1
    /\ current_tree_mode (text_conversion_system s1) = current_tree_mode sys
    /\ coherence_threshold (text_conversion_system s1) = coherence_threshold sys
    /\ recovery_attempts (text_conversion_system s1) = 0
    /\ drift_magnitude (text_conversion_system s1) = F32.zero.
Proof.
  intros sys fb. unfold obivox_incorporate_feedback.
  eexists. split; [reflexivity|].
  assert (C : forall s, convert_drift_check
                          (s |> set_drift_magnitude F32.zero
                             |> set_recovery_attempts 0)
                        = (s |> set_drift_magnitude F32.zero
                             |> set_recovery_attempts 0)).
  { intros s. unfold convert_drift_check.
    cbn [set_recovery_attempts set_drift_magnitude drift_magnitude].
    change (F32.gtb F32.zero f0_3) with false. reflexivity. }
  split; [apply C|]. unfold text_conversion_system. rewrite C.
  destruct (suggested_correction fb); repeat split.
Qed.

(** X14.  The record that [obivox_request_human_validation] builds always
    carries a suggestion buffer (an empty string).  Handing that record
    back unchanged therefore counts as a correction: the formality and
    evolution axes are raised, whether or not confirmation was required
    and although nobody entered a correction. *)
Theorem unanswered_request_still_nudges :
  forall (sys : OBIVoxNLMSystem) (text : string) (conf : float)
         (fb0 : HumanFeedback),
  let cap (v : float) := if F32.gtb v f1_0 then f1_0 else v in
  exists code fb sys',
    obivox_request_human_validation (Some text) conf (Some fb0)
    = (code, Some fb)
    /\ suggested_correction fb = Some EmptyString
    /\ obivox_incorporate_feedback (Some sys) (Some fb) = (0, Some sys')
    /\ y_axis (current_position sys')
       = cap (y_axis (current_position sys) + f0_1)%f32
    /\ z_axis (current_position sys')
       = cap (z_axis (current_position sys) + f0_05)%f32.
Proof.
  intros sys text conf fb0 cap.
  unfold obivox_request_human_validation.
  eexists _, _, _. split; [reflexivity|]. split; [reflexivity|].
  unfold obivox_incorporate_feedback. cbn [suggested_correction].
  split; [reflexivity|]. unfold cap.
  cbn [set_recovery_attempts set_drift_magnitude set_current_position
       current_position set_y_axis set_z_axis y_axis z_axis].
  destruct (F32.gtb (y_axis (current_position sys) + f0_1)%f32 f1_0);
    cbn [set_y_axis set_z_axis y_axis z_axis];
    destruct (F32.gtb (z_axis (current_position sys) + f0_05)%f32 f1_0);
    split; reflexivity.
Qed.

(** ** Reachable systems, continued *)

Lemma drift_check_limits (s : OBIVoxNLMSystem) :
  within_limits s -> within_limits (convert_drift_check s).
Proof.
  intros [R T]. unfold convert_drift_check.
  destruct (F32.gtb (drift_magnitude s) f0_3); [|split; assumption].
  destruct (handle_drift_zone s (drift_magnitude s) false)
    as (s' & -> & _ & T' & _ & R' & _).
  cbn [default from_option Datatypes.id].
  assert (L : within_limits s').
  { split; [rewrite R'; exact R|]. rewrite T'.
    destruct (drift_zone (drift_magnitude s)); auto. }
  destruct L as [R1 T1].
  destruct (match drift_zone (drift_magnitude s) with
            | AI_STRESS => true
            | _ => false
            end); cbn [andb]; [|split; assumption].
  destruct (Z.ltb_spec (recovery_attempts s') 3); [|split; assumption].
  split; cbn; [|exact T1]. unfold u8. rewrite Z.mod_small; lia.
Qed.

Section ReachableLimits.
Variable tanhf : float -> float.
Variable obivox_select_optimal_codec :
  OBIVoxNLMSystem -> outcome (Z * OBIVoxNLMSystem * TreeMode).
Variable obivox_generate_pronunciation_guide :
  string -> PhoneticAccessibility -> outcome (Z * option string).
Variable tone : Z -> float.

(** The codec selector is not part of [nlm_core.c]; it is taken to leave
    the attempt counter and the threshold as they are. *)
Hypothesis selector_keeps_limits :
  forall s code s' m,
    obivox_select_optimal_codec s = Returns (code, s', m) ->
    recovery_attempts s' = recovery_attempts s
    /\ coherence_threshold s' = coherence_threshold s.

Lemma convert_limits (fuel : nat) (s s' : OBIVoxNLMSystem)
    (input : option ConvertInput) (output : option (option ConvertOutput))
    (conf : option float) (r : ConvertResult) :
  obivox_bidirectional_convert tanhf obivox_select_optimal_codec
    obivox_generate_pronunciation_guide tone fuel (Some s) input output conf
  = Returns r ->
  cr_system r = Some s' ->
  within_limits s -> within_limits s'.
Proof.
  unfold obivox_bidirectional_convert.
  destruct input as [inp|]; [|intros [= <-] [= <-]; auto].
  destruct output as [out|]; [|intros [= <-] [= <-]; auto].
  destruct conf as [c|]; [|intros [= <-] [= <-]; auto].
  intros E Es' H. apply drift_check_limits in H.
  set (s1 := convert_drift_check s) in *. destruct H as [R T].
  destruct inp as [samples|text].
  - cbn [raw_audio num_samples] in E.
    destruct (obivox_detect_speech_variations fuel (Some samples) _
                (Some (accessibility s1)) (Some F32.zero))
      as [[[code oacc] ov]| |] eqn:D; cbn [obind] in E; try discriminate.
    match type of E with
    | obind (obind ?m _) _ = _ => destruct m as [audio| |]
    end; cbn [obind] in E; try discriminate.
    match type of E with
    | context [obivox_map_to_nlm_space ?t ?f ?c] =>
        destruct (obivox_map_to_nlm_space t f c) as [mc pos]
    end.
    match type of E with
    | context [obivox_select_optimal_codec ?x] =>
        destruct (obivox_select_optimal_codec x) as [[[sc s2] m]| |] eqn:S
    end; cbn [obind] in E; try discriminate.
    apply selector_keeps_limits in S. destruct S as [Sr St].
    cbn [set_current_position set_accessibility recovery_attempts
         coherence_threshold] in Sr, St.
    injection E as <-. cbn [cr_system] in Es'. injection Es' as <-.
    split; cbn [set_codec_engine recovery_attempts coherence_threshold];
      congruence.
  - match type of E with
    | obind (obind ?m _) _ = _ => destruct m as [u| |]
    end; cbn [obind] in E; [|discriminate E|discriminate E].
    apply (f_equal (fun o => match o with
                             | Returns a => cr_system a
                             | _ => None
                             end)) in E.
    cbn [cr_system] in E. rewrite Es' in E. injection E as <-.
    split; cbn [set_codec_engine recovery_attempts coherence_threshold];
      assumption.
Qed.

Lemma reachable_limits (s : OBIVoxNLMSystem) :
  reachable tanhf obivox_select_optimal_codec
    obivox_generate_pronunciation_guide tone s ->
  within_limits s.
Proof.
  induction 1 as [s E|s s' _ IH Step].
  - injection E as <-. split; [cbn; lia|left; reflexivity].
  - destruct Step as
      [s fuel audio n v code acc' v' D
      |s features code co M
      |s s' fuel input output conf r C Cs
      |s s' d b code cascade H
      |s s' fb code F].
    + exact IH.
    + exact IH.
    + eapply convert_limits; eassumption.
    + destruct IH as [R T]. destruct b as [b|].
      * destruct (handle_drift_zone s d b) as (s1 & E & _ & T' & _ & R' & _).
        rewrite E in H. injection H as _ <- _.
        split; [rewrite R'; exact R|]. rewrite T'.
        destruct (drift_zone d); auto.
      * cbn in H. injection H as _ <- _. split; assumption.
    + destruct IH as [R T]. unfold obivox_incorporate_feedback in F.
      destruct fb as [fb|].
      * injection F as _ <-. destruct (suggested_correction fb);
          (split; [cbn; lia|exact T]).
      * injection F as _ <-. split; assumption.
Qed.
End ReachableLimits.

(** X13.  In every reachable system the attempt counter lies between 0 and
    3 (the [uint8_t] never wraps) and the coherence threshold is one of the
    two constants 0.954 and 0.85, provided the codec selector, whose code
    is not part of [nlm_core.c], leaves both fields alone. *)
Theorem reachable_within_limits
    (tanhf : float -> float)
    (obivox_select_optimal_codec :
       OBIVoxNLMSystem -> outcome (Z * OBIVoxNLMSystem * TreeMode))
    (obivox_generate_pronunciation_guide :
       string -> PhoneticAccessibility -> outcome (Z * option string))
    (tone : Z -> float) :
  (forall s code s' m,
     obivox_select_optimal_codec s = Returns (code, s', m) ->
     recovery_attempts s' = recovery_attempts s
     /\ coherence_threshold s' = coherence_threshold s) ->
  forall s,
    reachable tanhf obivox_select_optimal_codec
      obivox_generate_pronunciation_guide tone s ->
    0 <= recovery_attempts s <= 3
    /\ (coherence_threshold s = f0_954 \/ coherence_threshold s = f0_85).
Proof.
  intros Hsel s R. eapply reachable_limits; eassumption.
Qed.

Lemma reachable_within_limits_witness :
  0 <= recovery_attempts drifted_system <= 3
  /\ (coherence_threshold drifted_system = f0_954
      \/ coherence_threshold drifted_system = f0_85).
Proof.
  apply (reachable_within_limits (fun x => x) idle_selector no_guide silent_tone).
  - intros s code s' m [= _ <- _]. split; reflexivity.
  - eapply reach_step.
    + apply reach_init. reflexivity.
    + eapply (step_handle_drift _ _ _ _ _ _ f0_35 (Some false)). reflexivity.
Defined.

(** ** Conversion, continued *)

(** X15.  A conversion that returns with all four pointers valid returns
    0, and the confidence it reports through [*confidence] is the one it
    has recorded in the codec engine of the system; for text input that
    confidence is the constant 0.95 and the input is handed back
    untouched. *)
Theorem conversion_records_reported_confidence :
  forall (tanhf : float -> float)
         (select : OBIVoxNLMSystem -> outcome (Z * OBIVoxNLMSystem * TreeMode))
         (guide : string -> PhoneticAccessibility -> outcome (Z * option string))
         (tone : Z -> float) (fuel : nat) (sys : OBIVoxNLMSystem)
         (inp : ConvertInput) (out : option ConvertOutput) (c : float)
         (r : ConvertResult),
    obivox_bidirectional_convert tanhf select guide tone fuel (Some sys)
      (Some inp) (Some out) (Some c) = Returns r ->
    cr_code r = 0
    /\ exists s' conf,
         cr_system r = Some s'
         /\ cr_confidence r = Some conf
         /\ last_confidence (codec_engine s') = conf
         /\ (forall text, inp = INPUT_TEXT text ->
                          conf = f0_95 /\ cr_input r = Some inp).
Proof.
  intros tanhf select guide tone fuel sys inp out c r.
  unfold obivox_bidirectional_convert.
  set (s1 := convert_drift_check sys). destruct inp as [samples|text]; intros E.
  - cbn [raw_audio num_samples] in E.
    destruct (obivox_detect_speech_variations fuel (Some samples) _
                (Some (accessibility s1)) (Some F32.zero))
      as [[[code oacc] ov]| |]; cbn [obind] in E; try discriminate.
    match type of E with
    | obind (obind ?m _) _ = _ => destruct m as [audio| |]
    end; cbn [obind] in E; try discriminate.
    match type of E with
    | context [obivox_map_to_nlm_space ?t ?f ?c] =>
        destruct (obivox_map_to_nlm_space t f c) as [mc pos]
    end.
    match type of E with
    | context [select ?x] => destruct (select x) as [[[sc s2] m]| |]
    end; cbn [obind] in E; try discriminate.
    injection E as <-. split; [reflexivity|].
    eexists _, _. split; [reflexivity|]. split; [reflexivity|].
    split; [reflexivity|]. intros text' [=].
  - match type of E with
    | obind (obind ?m _) _ = _ => destruct m as [u| |]
    end; cbn [obind] in E; [|discriminate E|discriminate E].
    pose proof (f_equal (fun o => match o with
                                  | Returns a => Some (cr_code a)
                                  | _ => None
                                  end) E) as E1.
    pose proof (f_equal (fun o => match o with
                                  | Returns a => cr_confidence a
                                  | _ => None
                                  end) E) as E2.
    pose proof (f_equal (fun o => match o with
                                  | Returns a => cr_system a
                                  | _ => None
                                  end) E) as E3.
    pose proof (f_equal (fun o => match o with
                                  | Returns a => cr_input a
                                  | _ => None
                                  end) E) as E4.
    cbn [cr_code cr_confidence cr_system cr_input] in E1, E2, E3, E4.
    injection E1 as E1. split; [auto|].
    eexists _, _. split; [symmetry; exact E3|]. split; [symmetry; exact E2|].
    split; [reflexivity|]. intros text' _. split; [reflexivity|].
    symmetry. exact E4.
Qed.

Lemma fold_insert_lookup (g : Z -> float) (n : nat) (l : list float) :
  (n <= length l)%nat ->
  let r := fold_left (fun acc i => <[Z.to_nat i := g i]> acc)
                     (seqZ 0 (Z.of_nat n)) l in
  length r = length l
  /\ forall k : nat,
       r !! k = if (k <? n)%nat then Some (g (Z.of_nat k)) else l !! k.
Proof.
  cbv zeta. induction n as [|n IH]; intros Hn.
  - cbn. split; [reflexivity|]. intros k. reflexivity.
  - rewrite seqZ_S, fold_left_app. cbn [fold_left].
    destruct IH as [L K]; [lia|]. rewrite Z.add_0_l, Nat2Z.id.
    split; [rewrite length_insert; exact L|].
    intros k. destruct (decide (k = n)) as [->|Ne].
    + rewrite list_lookup_insert_eq by lia.
      destruct (Nat.ltb_spec n (S n)); [reflexivity|lia].
    + rewrite list_lookup_insert_ne by lia. rewrite K.
      destruct (Nat.ltb_spec k n), (Nat.ltb_spec k (S n)); try lia; reflexivity.
Qed.

(** The text route, when the guide generator returns or is not called. *)
Lemma text_conversion_equation
    (tanhf : float -> float)
    (select : OBIVoxNLMSystem -> outcome (Z * OBIVoxNLMSystem * TreeMode))
    (guide : string -> PhoneticAccessibility -> outcome (Z * option string))
    (tone : Z -> float) (fuel : nat) (sys : OBIVoxNLMSystem) (text : string)
    (out : option ConvertOutput) (c : float) :
  (lisp_mitigation (accessibility (convert_drift_check sys)) = true ->
   exists g, guide text (accessibility (convert_drift_check sys)) = Returns g) ->
  obivox_bidirectional_convert tanhf select guide tone fuel (Some sys)
    (Some (INPUT_TEXT text)) (Some out) (Some c)
  = Returns (mkConvertResult 0 (Some (text_conversion_system sys))
               (Some (INPUT_TEXT text))
               (Some (Some (Synthesis (synthesis_buffer tone))))
               (Some f0_95)).
Proof.
  intros G.
  unfold obivox_bidirectional_convert, synthesis_buffer,
    text_conversion_system.
  destruct (lisp_mitigation (accessibility (convert_drift_check sys)));
    [destruct (G eq_refl) as [g ->]|]; cbn [obind]; reflexivity.
Qed.

(** X16.  A text conversion whose guide generator returns (or is not
    called, the lisp flag being unset) returns 0, reports the confidence
    0.95, leaves behind the system of [text_conversion_system] and hands
    out a buffer of 160000 samples of which only the first 16000 are
    written, with the tone at a tenth of its amplitude; the remaining nine
    seconds are [+0]. *)
Theorem text_conversion_returns
    (tanhf : float -> float)
    (select : OBIVoxNLMSystem -> outcome (Z * OBIVoxNLMSystem * TreeMode))
    (guide : string -> PhoneticAccessibility -> outcome (Z * option string))
    (tone : Z -> float) (fuel : nat) (sys : OBIVoxNLMSystem) (text : string)
    (out : option ConvertOutput) (c : float) :
  (lisp_mitigation (accessibility (convert_drift_check sys)) = true ->
   exists g, guide text (accessibility (convert_drift_check sys)) = Returns g) ->
  obivox_bidirectional_convert tanhf select guide tone fuel (Some sys)
    (Some (INPUT_TEXT text)) (Some out) (Some c)
  = Returns (mkConvertResult 0 (Some (text_conversion_system sys))
               (Some (INPUT_TEXT text))
               (Some (Some (Synthesis (synthesis_buffer tone))))
               (Some f0_95))
  /\ Z.of_nat (length (synthesis_buffer tone)) = 160000
  /\ (forall k : nat,
        Z.of_nat k < 16000 ->
        synthesis_buffer tone !! k = Some (tone (Z.of_nat k) * f0_1)%f32)
  /\ (forall k : nat,
        16000 <= Z.of_nat k < 160000 ->
        synthesis_buffer tone !! k = Some F32.zero).
Proof.
  intros G. split; [apply text_conversion_equation; exact G|].
  destruct (fold_insert_lookup (fun i => (tone i * f0_1)%f32)
              (Z.to_nat 16000) (replicate (Z.to_nat (16000 * 10)) F32.zero))
    as [L K]; [rewrite length_replicate; lia|].
  rewrite Z2Nat.id in L, K by lia. cbv beta in L, K.
  unfold synthesis_buffer. rewrite length_replicate in L.
  split; [rewrite L; lia|]. split; intros k Hk; rewrite K.
  - destruct (Nat.ltb_spec k (Z.to_nat 16000)); [reflexivity|lia].
  - destruct (Nat.ltb_spec k (Z.to_nat 16000)); [lia|].
    apply lookup_replicate_2. lia.
Qed.

Lemma text_conversion_returns_witness :
  obivox_bidirectional_convert (fun x => x) idle_selector no_guide silent_tone
    0 (Some initial_system) (Some (INPUT_TEXT "hello")) (Some None)
    (Some F32.zero)
  = Returns (mkConvertResult 0 (Some (text_conversion_system initial_system))
               (Some (INPUT_TEXT "hello"))
               (Some (Some (Synthesis (synthesis_buffer silent_tone))))
               (Some f0_95)).
Proof.
  apply (text_conversion_returns (fun x => x) idle_selector no_guide
           silent_tone 0 initial_system "hello" None F32.zero).
  intros _. exists (0, None). reflexivity.
Defined.

Lemma conversion_records_reported_confidence_witness :
  cr_code (mkConvertResult 0 (Some (text_conversion_system initial_system))
             (Some (INPUT_TEXT "hello"))
             (Some (Some (Synthesis (synthesis_buffer silent_tone))))
             (Some f0_95)) = 0.
Proof.
  apply (conversion_records_reported_confidence (fun x => x) idle_selector
           no_guide silent_tone 0 initial_system (INPUT_TEXT "hello") None
           F32.zero).
  apply (text_conversion_equation (fun x => x) idle_selector no_guide
           silent_tone 0 initial_system "hello" None F32.zero).
  intros _. exists (0, None). reflexivity.
Defined.

Lemma repetition_body_returns_inv (audio : list float) (i : Z) (s s' : float) :
  0 <= i -> i + window_size <= 4294967296 ->
  repetition_body audio i s = Returns s' ->
  i + window_size <= Z.of_nat (length audio).
Proof.
  unfold repetition_body, window_size. intros H0 H1 E.
  match type of E with
  | obind ?m _ = _ => destruct m as [c| |] eqn:F
  end; cbn [obind] in E; try discriminate.
  destruct (ofold_returns_inv _ _ _ _ 1023 F) as (b0 & b1 & R).
  { apply elem_of_seqZ. lia. }
  destruct (rd audio (u32 (i + 1023))) as [x| |] eqn:Rd; cbn [obind] in R;
    try discriminate.
  apply rd_returns_inv in Rd.
  replace (u32 (i + 1023)) with (i + 1023) in Rd
    by (unfold u32; rewrite Z.mod_small; lia).
  lia.
Qed.

(** With a sample count of 0 the bound of the repetition loop is
    [2^32 - 1024]: the loop cannot finish on a buffer that ends before
    its last window. *)
Lemma repetition_loop_overruns (audio : list float) (fuel : nat) (i : Z)
    (score r : float) :
  Z.of_nat (length audio) < 4294966784 ->
  window_size <= i < 4294966272 ->
  for_loop (fun i => i <? 4294966272) (fun i => u32 (i + window_size / 2))
           (repetition_body audio) fuel i score <> Returns r.
Proof.
  unfold window_size. change (1024 / 2) with 512. intros HL.
  revert i score. induction fuel as [|fuel IH]; intros i score Hi;
    cbn [for_loop]; (destruct (Z.ltb_spec i 4294966272); [|lia]);
    [discriminate|].
  destruct (repetition_body audio i score) as [s'| |] eqn:B; cbn [obind];
    try discriminate.
  apply repetition_body_returns_inv in B; unfold window_size in *; try lia.
  replace (u32 (i + 512)) with (i + 512)
    by (unfold u32; rewrite Z.mod_small; lia).
  apply IH. lia.
Qed.

(** X17.  The audio route of the conversion never returns on an input
    buffer of fewer than [2^32 - 512] samples: it passes the sample count
    of a zero-initialised feature record, which is 0, to the detector,
    whose loop bound [0 - 1024] wraps around to [2^32 - 1024], so the
    windows run on until one of them leaves the buffer (or the model runs
    out of fuel). *)
Theorem audio_conversion_never_returns
    (tanhf : float -> float)
    (select : OBIVoxNLMSystem -> outcome (Z * OBIVoxNLMSystem * TreeMode))
    (guide : string -> PhoneticAccessibility -> outcome (Z * option string))
    (tone : Z -> float) (fuel : nat) (sys : OBIVoxNLMSystem)
    (samples : list float) (out : option ConvertOutput) (c : float) :
  Z.of_nat (length samples) < 4294966784 ->
  forall r,
    obivox_bidirectional_convert tanhf select guide tone fuel (Some sys)
      (Some (INPUT_AUDIO samples)) (Some out) (Some c) <> Returns r.
Proof.
  intros HL r. unfold obivox_bidirectional_convert.
  cbn [raw_audio num_samples zero_AudioFeatures].
  assert (D : forall acc v res,
            obivox_detect_speech_variations fuel (Some samples) 0 (Some acc)
              (Some v) <> Returns res).
  { intros acc v res. unfold obivox_detect_speech_variations.
    assert (Z : for_loop (fun i => i <? 0) (fun i => u32 (i + 1))
                  (zcr_body samples) fuel 1 F32.zero = Returns F32.zero)
      by (destruct fuel; reflexivity).
    rewrite Z. cbn [obind].
    change (u32 (0 - window_size)) with 4294966272.
    destruct (for_loop (fun i => i <? 4294966272)
                (fun i => u32 (i + window_size / 2)) (repetition_body samples)
                fuel window_size F32.zero) as [rep| |] eqn:R; cbn [obind];
      try discriminate.
    apply repetition_loop_overruns in R; [destruct R|exact HL|].
    unfold window_size. lia. }
  destruct (obivox_detect_speech_variations fuel (Some samples) 0
              (Some (accessibility (convert_drift_check sys))) (Some F32.zero))
    as [res| |] eqn:E; cbn [obind]; try discriminate.
  destruct (D _ _ _ E).
Qed.

Lemma audio_conversion_never_returns_witness :
  ~ exists r,
      obivox_bidirectional_convert (fun x => x) idle_selector no_guide
        silent_tone 5000 (Some initial_system) (Some (INPUT_AUDIO spike_buffer))
        (Some None) (Some F32.zero) = Returns r.
Proof.
  intros [r E]. revert E.
  apply (audio_conversion_never_returns (fun x => x) idle_selector no_guide
           silent_tone 5000 initial_system spike_buffer None F32.zero).
  vm_compute. reflexivity.
Defined.

(** ** Null pointers *)

(** X20.  Every entry point that checks its pointers answers a null
    pointer with -1 and leaves everything it was given as it was; the
    conversion does so before its drift check, so a rejected call does
    not count as a drift cycle. *)
Theorem null_arguments_are_rejected :
  (forall fuel audio n acc v,
     audio = None \/ acc = None \/ v = None ->
     obivox_detect_speech_variations fuel audio n acc v = Returns (-1, acc, v))
  /\ (forall fuel audio n acc pf,
        audio = None \/ acc = None ->
        obivox_apply_phonetic_normalization fuel audio n acc pf
        = Returns (-1, audio))
  /\ (forall tanhf features co,
        features = None \/ co = None ->
        obivox_map_to_nlm_space tanhf features co = (-1, co))
  /\ (forall tanhf select guide tone fuel sys input output conf,
        sys = None \/ input = None \/ output = None \/ conf = None ->
        obivox_bidirectional_convert tanhf select guide tone fuel sys input
          output conf
        = Returns (mkConvertResult (-1) sys input output conf))
  /\ (forall sys d cascade,
        sys = None \/ cascade = None ->
        obivox_handle_drift sys d cascade = (-1, sys, cascade))
  /\ (forall text conf fb,
        text = None \/ fb = None ->
        obivox_request_human_validation text conf fb = (-1, fb))
  /\ (forall sys fb,
        sys = None \/ fb = None ->
        obivox_incorporate_feedback sys fb = (-1, sys)).
Proof.
  repeat split.
  - intros fuel [a|] n [acc|] [v|] H; try reflexivity.
    destruct H as [H|[H|H]]; discriminate.
  - intros fuel [a|] n [acc|] pf H; try reflexivity.
    destruct H as [H|H]; discriminate.
  - intros tanhf [f|] [co|] H; try reflexivity.
    destruct H as [H|H]; discriminate.
  - intros tanhf select guide tone fuel [s|] [i|] [o|] [c|] H; try reflexivity.
    destruct H as [H|[H|[H|H]]]; discriminate.
  - intros [s|] d [c|] H; try reflexivity.
    destruct H as [H|H]; discriminate.
  - intros [t|] conf [fb|] H; try reflexivity.
    destruct H as [H|H]; discriminate.
  - intros [s|] [fb|] H; try reflexivity.
    destruct H as [H|H]; discriminate.
Qed.

Lemma null_arguments_are_rejected_witness :
  obivox_bidirectional_convert (fun x => x) idle_selector no_guide silent_tone
    0 (Some drifting_system) None (Some None) (Some F32.zero)
  = Returns (mkConvertResult (-1) (Some drifting_system) None (Some None)
               (Some F32.zero)).
Proof.
  apply null_arguments_are_rejected. right. left. reflexivity.
Defined.

(** ** What the detector needs before it sets a flag *)

Lemma repetition_body_counts (audio : list float) (i : Z) (s s' : float) :
  repetition_body audio i s = Returns s' -> s' = s \/ s' = (s + f1_0)%f32.
Proof.
  unfold repetition_body.
  match goal with
  | |- obind ?m _ = _ -> _ => destruct m as [c| |]
  end; cbn [obind]; try discriminate.
  destruct (F32.gtb c f0_8); intros [= <-]; auto.
Qed.

(** X8.  The detector cannot set the stutter flag on a buffer of 1024 to
    3584 samples: the repetition loop then has at most three windows,
    and the flag needs a count above 3. *)
Theorem stutter_flag_needs_four_windows :
  forall (fuel : nat) (audio : list float) (n : Z)
         (acc : PhoneticAccessibility) (v : float) (code : Z)
         (acc' : PhoneticAccessibility) (v' : option float),
    window_size <= n <= 3584 ->
    obivox_detect_speech_variations fuel (Some audio) n (Some acc) (Some v)
    = Returns (code, Some acc', v') ->
    stutter_detection acc' = stutter_detection acc.
Proof.
  unfold window_size. intros fuel audio n acc v code acc' v' Hn.
  unfold obivox_detect_speech_variations.
  destruct (for_loop _ _ (zcr_body audio) fuel 1 F32.zero) as [zcr| |];
    cbn [obind]; try discriminate.
  replace (u32 (n - window_size)) with (n - 1024)
    by (unfold u32, window_size; rewrite Z.mod_small; lia).
  destruct (for_loop (fun i => i <? n - 1024)
              (fun i => u32 (i + window_size / 2)) (repetition_body audio)
              fuel window_size F32.zero) as [rep| |] eqn:R; cbn [obind];
    try discriminate.
  assert (Low : F32.gtb rep f3_0 = false).
  { destruct (for_loop_invariant (fun i => i <? n - 1024)
                (fun i => u32 (i + window_size / 2)) (repetition_body audio)
                (fun i s =>
                   (i = 1024 /\ s = F32.of_Z 0)
                   \/ (i = 1536 /\ (s = F32.of_Z 0 \/ s = F32.of_Z 1))
                   \/ (i = 2048 /\ (s = F32.of_Z 0 \/ s = F32.of_Z 1
                                    \/ s = F32.of_Z 2))
                   \/ (i = 2560 /\ (s = F32.of_Z 0 \/ s = F32.of_Z 1
                                    \/ s = F32.of_Z 2 \/ s = F32.of_Z 3))))
      with (fuel := fuel) (i := window_size) (s := F32.zero) (r := rep)
      as (i' & H & _).
    - intros i s s' C HI B. apply Z.ltb_lt in C.
      apply repetition_body_counts in B.
      unfold window_size. change (1024 / 2) with 512.
      destruct HI as [[-> ->]|[[-> Hs]|[[-> Hs]|[-> _]]]]; [| | |lia].
      + right; left. split; [reflexivity|].
        destruct B as [->| ->]; [left|right]; reflexivity.
      + right; right; left. split; [reflexivity|].
        destruct Hs as [->| ->]; destruct B as [->| ->];
          [left|right; left|right; left|right; right]; reflexivity.
      + right; right; right. split; [reflexivity|].
        destruct Hs as [->|[->| ->]]; destruct B as [->| ->];
          [left|right; left|right; left|right; right; left
          |right; right; left|right; right; right]; reflexivity.
    - left. split; reflexivity.
    - exact R.
    - destruct H as [[_ ->]|[[_ Hs]|[[_ Hs]|[_ Hs]]]];
        [|destruct Hs as [->| ->]|destruct Hs as [->|[->| ->]]
         |destruct Hs as [->|[->|[->| ->]]]]; reflexivity. }
  rewrite Low. intros [= _ <- _].
  destruct (F32.gtb (zcr / F32.of_Z n)%f32 f0_4);
    match goal with |- context [if ?c then _ else _] => destruct c end;
    reflexivity.
Qed.

Lemma stutter_flag_needs_four_windows_witness :
  exists code acc' v',
    obivox_detect_speech_variations 1025 (Some spike_buffer) 1025
      (Some no_flags_profile) (Some F32.zero) = Returns (code, Some acc', v')
    /\ stutter_detection acc' = stutter_detection no_flags_profile.
Proof.
  assert (E : exists code acc' v',
            obivox_detect_speech_variations 1025 (Some spike_buffer) 1025
              (Some no_flags_profile) (Some F32.zero)
            = Returns (code, Some acc', v')) by (vm_compute; eauto).
  destruct E as (code & acc' & v' & E). exists code, acc', v'.
  split; [exact E|].
  apply (stutter_flag_needs_four_windows 1025 spike_buffer 1025
           no_flags_profile F32.zero code acc' v'); [|exact E].
  vm_compute. split; discriminate.
Defined.

Lemma zero_rate_is_low (x : float) : F32.gtb (F32.zero / x)%f32 f0_4 = false.
Proof. destruct x as [[|]|[|]| |[|] m e]; reflexivity. Qed.

(** X10.  On a buffer without zero crossings (all neighbouring samples on
    the same side of the test [> 0]) the detector leaves the lisp flag
    alone, whatever the sample count. *)
Theorem lisp_flag_needs_zero_crossings :
  forall (fuel : nat) (audio : list float) (n : Z)
         (acc : PhoneticAccessibility) (v : float) (code : Z)
         (acc' : PhoneticAccessibility) (v' : option float),
    (forall (k : nat) (a b : float),
       audio !! k = Some a -> audio !! S k = Some b ->
       F32.gtb a F32.zero = F32.gtb b F32.zero) ->
    obivox_detect_speech_variations fuel (Some audio) n (Some acc) (Some v)
    = Returns (code, Some acc', v') ->
    lisp_mitigation acc' = lisp_mitigation acc.
Proof.
  intros fuel audio n acc v code acc' v' Flat.
  unfold obivox_detect_speech_variations.
  destruct (for_loop (fun i => i <? n) (fun i => u32 (i + 1)) (zcr_body audio)
              fuel 1 F32.zero) as [zcr| |] eqn:Z; cbn [obind]; try discriminate.
  assert (Hz : zcr = F32.zero).
  { destruct (for_loop_invariant (fun i => i <? n) (fun i => u32 (i + 1))
                (zcr_body audio) (fun _ s => s = F32.zero))
      with (fuel := fuel) (i := 1) (s := F32.zero) (r := zcr)
      as (i' & H & _); auto.
    intros i s s' _ -> B. unfold zcr_body in B.
    destruct (rd audio i) as [a| |] eqn:Ra; cbn [obind] in B; try discriminate.
    destruct (rd audio (i - 1)) as [b| |] eqn:Rb; cbn [obind] in B;
      try discriminate.
    pose proof (rd_returns_inv _ _ _ Ra) as Hi.
    pose proof (rd_returns_inv _ _ _ Rb) as Hi'.
    unfold rd in Ra, Rb.
    destruct (Z.ltb_spec i 0); [lia|]. destruct (Z.ltb_spec (i - 1) 0); [lia|].
    destruct (audio !! Z.to_nat i) as [a0|] eqn:La; [|discriminate].
    destruct (audio !! Z.to_nat (i - 1)) as [b0|] eqn:Lb; [|discriminate].
    injection Ra as ->. injection Rb as ->.
    replace (Z.to_nat i) with (S (Z.to_nat (i - 1))) in La by lia.
    rewrite (Flat _ _ _ Lb La) in B.
    destruct (F32.gtb a F32.zero); cbn in B; congruence. }
  subst zcr. rewrite zero_rate_is_low.
  destruct (for_loop _ _ (repetition_body audio) fuel window_size F32.zero)
    as [rep| |]; cbn [obind]; try discriminate.
  intros [= _ <- _].
  destruct (F32.gtb rep f3_0);
    match goal with |- context [if ?c then _ else _] => destruct c end;
    reflexivity.
Qed.

Lemma lisp_flag_needs_zero_crossings_witness :
  exists code acc' v',
    obivox_detect_speech_variations 1025 (Some silent_buffer) 1025
      (Some no_flags_profile) (Some F32.zero) = Returns (code, Some acc', v')
    /\ lisp_mitigation acc' = lisp_mitigation no_flags_profile.
Proof.
  assert (E : exists code acc' v',
            obivox_detect_speech_variations 1025 (Some silent_buffer) 1025
              (Some no_flags_profile) (Some F32.zero)
            = Returns (code, Some acc', v')) by (vm_compute; eauto).
  destruct E as (code & acc' & v' & E). exists code, acc', v'.
  split; [exact E|].
  apply (lisp_flag_needs_zero_crossings _ _ _ _ _ _ _ _) with (2 := E).
  intros k a b Ha Hb. unfold silent_buffer in Ha, Hb.
  apply lookup_replicate_1 in Ha as [-> _].
  apply lookup_replicate_1 in Hb as [-> _]. reflexivity.
Defined.

(** X19.  A conversion moves the attempt counter only when the stored
    drift is above 0.3, falls into the AI-stress branch and the counter is
    below 3, and then by exactly one; in the green and human-stress
    branches, and for a drift of at most 0.3, the counter stays. *)
Theorem attempts_move_only_under_ai_stress :
  forall sys : OBIVoxNLMSystem,
    0 <= recovery_attempts sys < 256 ->
    recovery_attempts (text_conversion_system sys) <> recovery_attempts sys ->
    F32.gtb (drift_magnitude sys) f0_3 = true
    /\ drift_zone (drift_magnitude sys) = AI_STRESS
    /\ recovery_attempts sys < 3
    /\ recovery_attempts (text_conversion_system sys) = recovery_attempts sys + 1.
Proof.
  intros sys Hr. unfold text_conversion_system.
  cbn [set_codec_engine recovery_attempts]. unfold convert_drift_check.
  destruct (F32.gtb (drift_magnitude sys) f0_3); [|intros Hne; destruct Hne; reflexivity].
  destruct (handle_drift_zone sys (drift_magnitude sys) false)
    as (s' & -> & _ & _ & _ & R' & _).
  cbn [default from_option Datatypes.id].
  destruct (drift_zone (drift_magnitude sys)); cbn [andb];
    try (intros Hne; destruct Hne; exact R').
  destruct (Z.ltb_spec (recovery_attempts s') 3);
    [|intros Hne; destruct Hne; exact R'].
  cbn [set_fault_tolerance_enabled set_recovery_attempts recovery_attempts].
  intros _. rewrite <- R'. unfold u8. rewrite Z.mod_small by lia.
  repeat split; lia.
Qed.

Lemma attempts_move_only_under_ai_stress_witness :
  recovery_attempts (text_conversion_system drifting_system)
  = recovery_attempts drifting_system + 1.
Proof.
  apply (attempts_move_only_under_ai_stress drifting_system).
  - vm_compute. split; [discriminate|reflexivity].
  - vm_compute. discriminate.
Defined.
